(** * CodeCollab: the synchronisation core of [src/App.jsx]

    A shallow embedding of the collaborative workspace's document store
    (whole-text last-writer-wins), its presence registry (TTL pruning,
    shallow-merge upserts) and the two delivery paths (BroadcastChannel
    messages and [storage] events), followed by the properties of the
    specification that are stated about them.

    Modelling conventions.
    - JavaScript values are the inductive [JsVal]: the primitives and plain
      objects (own enumerable string-keyed properties, a [gmap], with
      [Object.prototype] as prototype), which is what [JSON.parse] and the
      structured clone of a message deliver. Arrays and functions do not
      occur in the payloads of this protocol and are not modelled.
    - The registry objects, which the program fills by assignment under
      keys that come from outside, are objects with a prototype of their
      own ([Obj]): an assignment under the key ["__proto__"] reaches the
      accessor of [Object.prototype] and changes the prototype instead of
      adding a property.
    - Numbers are integers ([Z]): every number the program produces is a
      [Date.now()] reading in milliseconds. [NaN] only arises as the result
      of a numeric coercion and is the [None] of [ToNumber].
    - The conversions of the language runtime between strings and numbers
      ([StringToNumber], [Number::toString]) are taken abstractly, as the
      class [JsRuntime]; nothing is assumed about them.
    - A [localStorage] item is represented by what [JSON.parse] makes of it
      ([Item]); reads and writes of the storage are taken to succeed.
    - [Date.now()] is an explicit argument of every function that reads
      the clock, one argument per reading.
    - A thrown exception is the [Throw] of [Result]; [try]/[catch] blocks
      are written out with [try_catch]. A state updater handed to React
      that throws is taken as the failure of the call that handed it over:
      the component does not survive it, and its other effects are not
      followed. *)

From stdpp Require Import gmap strings list fin_maps.

Set Warnings "-register-all".
Open Scope Z_scope.

(** ** JavaScript values *)

Inductive JsVal :=
| JUndefined
| JNull
| JBool (b : bool)
| JNum (n : Z)
| JStr (s : string)
| JObj (fields : gmap string JsVal).

Inductive JsType := TUndefined | TObject | TBoolean | TNumber | TString.

(** [typeof v] *)
Definition typeof (v : JsVal) : JsType :=
  match v with
  | JUndefined => TUndefined
  | JNull => TObject
  | JBool _ => TBoolean
  | JNum _ => TNumber
  | JStr _ => TString
  | JObj _ => TObject
  end.

(** [ToBoolean]: the falsy values are [undefined], [null], [false], [0]
    and the empty string. *)
Definition truthy (v : JsVal) : bool :=
  match v with
  | JUndefined | JNull => false
  | JBool b => b
  | JNum n => negb (n =? 0)
  | JStr s => negb (String.eqb s "")
  | JObj _ => true
  end.

(** [a ?? b] *)
Definition nullish (a b : JsVal) : JsVal :=
  match a with
  | JUndefined | JNull => b
  | _ => a
  end.

(** ** Exceptions *)

Inductive JsError := TypeError | SyntaxError | DOMException.

Inductive Result (A : Type) :=
| Ok (a : A)
| Throw (e : JsError).
Arguments Ok {A} a.
Arguments Throw {A} e.

#[global] Instance result_ret : MRet Result := λ A a, Ok a.
#[global] Instance result_bind : MBind Result := λ A B k r,
  match r with
  | Ok a => k a
  | Throw e => Throw e
  end.

(** [try { body } catch { handler }] *)
Definition try_catch {A} (body : Result A) (handler : JsError → Result A) : Result A :=
  match body with
  | Ok a => Ok a
  | Throw e => handler e
  end.

(** ** Property access *)

(** [v?.f]: [undefined] on [null] and [undefined], on a primitive (none of
    the property names read by the program is defined on the prototypes of
    the primitives or of [Object]) and on an object without the field. *)
Definition get_opt (v : JsVal) (f : string) : JsVal :=
  match v with
  | JObj m => default JUndefined (m !! f)
  | _ => JUndefined
  end.

(** [v.f]: a [TypeError] on [null] and [undefined]. *)
Definition get (v : JsVal) (f : string) : Result JsVal :=
  match v with
  | JUndefined | JNull => Throw TypeError
  | _ => Ok (get_opt v f)
  end.

(** [x === 'lit'] *)
Definition is_str (v : JsVal) (lit : string) : bool :=
  match v with
  | JStr s => String.eqb s lit
  | _ => false
  end.

(** ** Objects used as maps *)

(** The prototype of an object the program builds: [Object.prototype], as
    for every object literal; [null]; or a plain object, itself with
    [Object.prototype] as prototype. *)
Inductive Prototype :=
| ObjectPrototype
| NullPrototype
| ObjectValue (fields : gmap string JsVal).

(** An object by its own enumerable properties and its prototype. *)
Record Obj := { props : gmap string JsVal; proto : Prototype }.

(** [{}], and [{ ...m }] for the own properties [m]: the spread defines
    own properties, a key ["__proto__"] included. *)
Definition new_object (m : gmap string JsVal) : Obj :=
  {| props := m; proto := ObjectPrototype |}.

(** Whether an assignment under ["__proto__"] to an object without such
    an own property finds the accessor of [Object.prototype] on the
    prototype chain: not below a [null] prototype, and not behind a
    prototype that has an own data property of that name. *)
Definition reaches_proto_accessor (p : Prototype) : bool :=
  match p with
  | ObjectPrototype => true
  | NullPrototype => false
  | ObjectValue fields => bool_decide (fields !! "__proto__" = None)
  end.

(** The setter of [Object.prototype.__proto__]: an object or [null]
    becomes the prototype, any other value is ignored. *)
Definition set_prototype (v : JsVal) (o : Obj) : Obj :=
  match v with
  | JNull => {| props := props o; proto := NullPrototype |}
  | JObj fields => {| props := props o; proto := ObjectValue fields |}
  | _ => o
  end.

(** [o[key] = v]. Every property of [Object.prototype] but [__proto__] is
    a writable data property, so the assignment defines or overwrites an
    own property of [o], except under the key ["__proto__"] when [o] has
    no own property of that name and the accessor is reached. *)
Definition obj_set (key : string) (v : JsVal) (o : Obj) : Obj :=
  if bool_decide (key = "__proto__") && bool_decide (props o !! key = None)
     && reaches_proto_accessor (proto o)
  then set_prototype v o
  else {| props := <[key := v]> (props o); proto := proto o |}.

(** [delete o[key]] *)
Definition obj_delete (key : string) (o : Obj) : Obj :=
  {| props := delete key (props o); proto := proto o |}.

(** The names of the members of [Object.prototype]: every object with the
    ordinary prototype answers to them without owning them. *)
Definition Object_prototype_members : list string :=
  [ "constructor"; "hasOwnProperty"; "isPrototypeOf"; "propertyIsEnumerable";
    "toLocaleString"; "toString"; "valueOf"; "__proto__";
    "__defineGetter__"; "__defineSetter__"; "__lookupGetter__";
    "__lookupSetter__" ].

(** [o[key]], an own property first and then the prototype chain. The
    getter of [__proto__] returns the prototype. The members of
    [Object.prototype] are functions, and [Object.prototype] is an object
    of its own; the values here have neither, and they are read as
    [undefined]: like [undefined] they have no own enumerable property
    and no [cursor], which is all the component's own updater and the
    spread look at in such a value. An updater of another kind could tell
    them from [undefined], so what is stated of every updater is stated
    for keys outside [Object_prototype_members]. *)
Definition obj_get (o : Obj) (key : string) : JsVal :=
  match props o !! key with
  | Some v => v
  | None =>
      match proto o with
      | ObjectValue fields =>
          match fields !! key with
          | Some v => v
          | None => if bool_decide (key = "__proto__") then JObj fields else JUndefined
          end
      | _ => JUndefined
      end
  end.

(** ** The durable store *)

(** A [localStorage] item, by what [JSON.parse] makes of it: the empty
    string, a string that is not JSON, or a JSON text with its value. *)
Inductive Item :=
| ItemEmpty
| ItemMalformed
| ItemJson (v : JsVal).

(** [!raw] for the result of [getItem] ([null] when the key is absent). *)
Definition raw_falsy (raw : option Item) : bool :=
  match raw with
  | None | Some ItemEmpty => true
  | Some _ => false
  end.

Definition JSON_parse (raw : Item) : Result JsVal :=
  match raw with
  | ItemJson v => Ok v
  | ItemEmpty | ItemMalformed => Throw SyntaxError
  end.

(** What [JSON.parse] reads back from [JSON.stringify v]: properties whose
    value is [undefined] are left out, at every depth. *)
Fixpoint json_norm (v : JsVal) : JsVal :=
  match v with
  | JObj m =>
      JObj (omap (λ x, match x with
                       | JUndefined => None
                       | _ => Some (json_norm x)
                       end) m)
  | _ => v
  end.

(** The item written by [setItem(key, JSON.stringify(v))];
    [JSON.stringify(undefined)] is [undefined], stored as the text
    ["undefined"], which is not JSON. *)
Definition JSON_stringify (v : JsVal) : Item :=
  match v with
  | JUndefined => ItemMalformed
  | _ => ItemJson (json_norm v)
  end.

(** ** Documents *)

Record Doc := { text : string; updatedAt : Z }.

Definition newline : string := String (Ascii.ascii_of_nat 10) EmptyString.

(** [{ text: `# Room ${roomId}\n\nStart collaborating here...`,
       updatedAt: Date.now() }] *)
Definition defaultDoc (roomId : string) (now : Z) : Doc :=
  {| text := "# Room " +:+ roomId +:+ newline +:+ newline
             +:+ "Start collaborating here...";
     updatedAt := now |}.

(** [readDocSnapshot]; [window] is [None] where [typeof window] is
    ['undefined'] and the [localStorage] otherwise. *)
Definition readDocSnapshot (window : option (gmap string Item))
    (key roomId : string) (now : Z) : Result Doc :=
  match window with
  | None => Ok (defaultDoc roomId now)
  | Some localStorage =>
      try_catch
        (let raw := localStorage !! key in
         if raw_falsy raw then Ok (defaultDoc roomId now)
         else
           parsed ← JSON_parse (default ItemEmpty raw);
           t ← get parsed "text";
           u ← get parsed "updatedAt";
           Ok {| text := match t with JStr s => s | _ => "" end;
                 updatedAt := match u with JNum n => n | _ => now end |})
        (λ _, Ok (defaultDoc roomId now))
  end.

(** The value stored for a document, [{ text, updatedAt }]. *)
Definition docJson (d : Doc) : JsVal :=
  JObj {[ "text" := JStr (text d); "updatedAt" := JNum (updatedAt d) ]}.

(** ** The runtime's conversions *)

Class JsRuntime := {
  (** [StringToNumber], with [None] for [NaN] *)
  StringToNumber : string → option Z;
  (** [Number::toString] *)
  NumberToString : Z → string;
}.

(** [OrdinaryToPrimitive] of a plain object, which looks for a callable
    [toString] and [valueOf]. The values of the model hold no function, so
    an own property of one of these names is not callable and hides the
    method of [Object.prototype]. Without an own [toString] the inherited
    one answers ["[object Object]"], under either hint
    ([Object.prototype.valueOf] returns the object, which is not a
    primitive). With an own [toString] nothing callable returns a
    primitive, and the conversion throws. *)
Definition OrdinaryToPrimitive (o : gmap string JsVal) : Result string :=
  if bool_decide (o !! "toString" = None) then Ok "[object Object]"
  else Throw TypeError.

Section Runtime.
Context `{!JsRuntime}.

(** [ToNumber]; ["[object Object]"] is not numeric. *)
Definition ToNumber (v : JsVal) : Result (option Z) :=
  match v with
  | JUndefined => Ok None
  | JNull => Ok (Some 0)
  | JBool b => Ok (Some (if b then 1 else 0))
  | JNum n => Ok (Some n)
  | JStr s => Ok (StringToNumber s)
  | JObj o => _ ← OrdinaryToPrimitive o; Ok None
  end.

(** [ToPropertyKey], for a computed member access [o[k]]. *)
Definition ToPropertyKey (v : JsVal) : Result string :=
  match v with
  | JUndefined => Ok "undefined"
  | JNull => Ok "null"
  | JBool b => Ok (if b then "true" else "false")
  | JNum n => Ok (NumberToString n)
  | JStr s => Ok s
  | JObj o => OrdinaryToPrimitive o
  end.

(** The own enumerable properties of a value, as [Object.entries] and the
    spread [{...v}] see them: the fields of an object, the characters of a
    string under their indices, nothing for the other primitives. *)
Definition own_props (v : JsVal) : gmap string JsVal :=
  match v with
  | JObj m => m
  | JStr s =>
      list_to_map
        (imap (λ i c, (NumberToString (Z.of_nat i), JStr (String c EmptyString)))
              (String.list_ascii_of_string s))
  | _ => ∅
  end.

(** ** Presence snapshots *)

Definition PRESENCE_STORAGE_PREFIX : string := "room-presence:".
Definition PRESENCE_TTL_MS : Z := 45000.

Definition buildPresenceKey (roomId : string) : string :=
  PRESENCE_STORAGE_PREFIX +:+ roomId.

(** The test of [prunePresenceSnapshot]'s reducer,
    [!entry?.lastSeen || now - entry.lastSeen <= PRESENCE_TTL_MS].
    The right operand is only evaluated when [entry?.lastSeen] is truthy,
    so [entry] is not nullish there and [entry.lastSeen] does not throw;
    the subtraction converts it to a number, which can. A comparison with
    [NaN] is false. *)
Definition fresh (now : Z) (entry : JsVal) : Result bool :=
  let lastSeen := get_opt entry "lastSeen" in
  if negb (truthy lastSeen) then Ok true
  else
    n ← ToNumber lastSeen;
    Ok (match n with
        | Some n => now - n <=? PRESENCE_TTL_MS
        | None => false
        end).

(** [Object.entries(snapshot ?? {}).reduce(..., {})]: the reducer runs
    over the own properties of the snapshot, and an exception of the test
    ends the reduction. *)
Definition prunePresenceSnapshot (now : Z) (snapshot : JsVal) : Result Obj :=
  map_fold
    (λ userId entry (reduced : Result Obj),
       acc ← reduced;
       keep ← fresh now entry;
       Ok (if keep : bool then obj_set userId entry acc else acc))
    (Ok (new_object ∅))
    (own_props (nullish snapshot (JObj ∅))).

(** [readPresenceSnapshot] *)
Definition readPresenceSnapshot (window : option (gmap string Item))
    (key : string) (now : Z) : Result Obj :=
  match window with
  | None => Ok (new_object ∅)
  | Some localStorage =>
      try_catch
        (let raw := localStorage !! key in
         parsed ← (if raw_falsy raw then Ok (JObj ∅)
                   else JSON_parse (default ItemEmpty raw));
         prunePresenceSnapshot now parsed)
        (λ _, Ok (new_object ∅))
  end.

(** [persistPresenceSnapshot], returning the storage after the call;
    nothing happens where [window] is undefined. [JSON.stringify] writes
    the own properties of the snapshot. *)
Definition persistPresenceSnapshot (window : option (gmap string Item))
    (key : string) (snapshot : Obj) : option (gmap string Item) :=
  match window with
  | None => None
  | Some localStorage =>
      Some (<[key := JSON_stringify (JObj (props snapshot))]> localStorage)
  end.

(** ** The workspace component *)

(** The state of one mounted [CollaborativeWorkspace], in a browser
    ([window] is defined): its props, React state and refs, and the
    [localStorage] it reads and writes. [channelClosed] is the closed flag
    of the channel [channelRef] holds, and [outbox] collects what was
    handed to [channel.postMessage]. *)
Record Replica := {
  roomId : string;
  docState : Doc;
  lastUpdateRef : Z;
  presence : Obj;
  isChannelReady : bool;
  channelRef : option string;
  channelClosed : bool;
  localStorage : gmap string Item;
  outbox : list JsVal;
}.

Definition storageKey (r : Replica) : string := "room-doc:" +:+ roomId r.
Definition presenceStorageKey (r : Replica) : string := buildPresenceKey (roomId r).

Definition set_doc (d : Doc) (ts : Z) (st : gmap string Item) (r : Replica) : Replica :=
  {| roomId := roomId r; docState := d; lastUpdateRef := ts;
     presence := presence r; isChannelReady := isChannelReady r;
     channelRef := channelRef r; channelClosed := channelClosed r;
     localStorage := st; outbox := outbox r |}.

Definition set_presence (p : Obj) (st : option (gmap string Item))
    (r : Replica) : Replica :=
  {| roomId := roomId r; docState := docState r; lastUpdateRef := lastUpdateRef r;
     presence := p; isChannelReady := isChannelReady r;
     channelRef := channelRef r; channelClosed := channelClosed r;
     localStorage := default (localStorage r) st;
     outbox := outbox r |}.

Definition set_channel (ready : bool) (c : option string) (closed : bool)
    (r : Replica) : Replica :=
  {| roomId := roomId r; docState := docState r; lastUpdateRef := lastUpdateRef r;
     presence := presence r; isChannelReady := ready;
     channelRef := c; channelClosed := closed;
     localStorage := localStorage r; outbox := outbox r |}.

Definition set_outbox (o : list JsVal) (r : Replica) : Replica :=
  {| roomId := roomId r; docState := docState r; lastUpdateRef := lastUpdateRef r;
     presence := presence r; isChannelReady := isChannelReady r;
     channelRef := channelRef r; channelClosed := channelClosed r;
     localStorage := localStorage r; outbox := o |}.

(** The first render: [useState(() => readDocSnapshot(...))],
    [useState(() => readPresenceSnapshot(...))], [useState(false)],
    [useRef(updatedAt)], [useRef(null)]. *)
Definition mount (room : string) (st : gmap string Item) (now now' : Z) : Result Replica :=
  d ← readDocSnapshot (Some st) ("room-doc:" +:+ room) room now;
  p ← readPresenceSnapshot (Some st) (buildPresenceKey room) now';
  Ok {| roomId := room; docState := d; lastUpdateRef := updatedAt d;
        presence := p; isChannelReady := false; channelRef := None;
        channelClosed := false; localStorage := st; outbox := [] |}.

(** [persistDoc(nextText, timestamp)] *)
Definition persistDoc (nextText : string) (timestamp : Z) (r : Replica) : Replica :=
  let d := {| text := nextText; updatedAt := timestamp |} in
  set_doc d timestamp (<[storageKey r := JSON_stringify (docJson d)]> (localStorage r)) r.

(** The second argument of [upsertPresence]: a value ([null] or an entry)
    or an updater function of the previous entry. *)
Inductive EntryOrUpdater :=
| EValue (v : JsVal)
| EUpdater (f : JsVal → JsVal).

(** [typeof entryOrUpdater === 'function'
      ? entryOrUpdater(prev[userId]) : entryOrUpdater] *)
Definition resolve (entryOrUpdater : EntryOrUpdater) (previousEntry : JsVal) : JsVal :=
  match entryOrUpdater with
  | EUpdater f => f previousEntry
  | EValue v => v
  end.

(** The snapshot [next] that [upsertPresence]'s state updater builds from
    [prev], before it is pruned; [key] is the property key that [userId]
    converts to. *)
Definition upsertNext (key : string) (entryOrUpdater : EntryOrUpdater)
    (prev : Obj) : Obj :=
  let next := new_object (props prev) in
  match entryOrUpdater with
  | EValue JNull => obj_delete key next
  | _ =>
      let source := resolve entryOrUpdater (obj_get prev key) in
      if negb (truthy source) then obj_delete key next
      else obj_set key (JObj (own_props source ∪ own_props (obj_get prev key))) next
  end.

(** [upsertPresence(userId, entryOrUpdater)]; [now] is the clock read by
    the pruning of the updated snapshot. Every path of the updater
    evaluates [next[userId]] or [prev[userId]], and with it the conversion
    of [userId] to a property key. *)
Definition upsertPresence (now : Z) (userId : JsVal) (entryOrUpdater : EntryOrUpdater)
    (r : Replica) : Result Replica :=
  if negb (truthy userId) then Ok r
  else
    key ← ToPropertyKey userId;
    let next := upsertNext key entryOrUpdater (presence r) in
    pruned ← prunePresenceSnapshot now (JObj (props next));
    Ok (set_presence pruned
          (persistPresenceSnapshot (Some (localStorage r)) (presenceStorageKey r) pruned)
          r).

(** [handlePresenceMessage(payload)]; [stamp] is the clock read for
    [lastSeen], [now] the one read by the pruning that follows. *)
Definition handlePresenceMessage (stamp now : Z) (payload : JsVal) (r : Replica)
    : Result Replica :=
  user ← get payload "user";
  action ← get payload "action";
  cursor ← get payload "cursor";
  if negb (truthy (get_opt user "id")) then Ok r
  else if is_str action "leave" then
    upsertPresence now (get_opt user "id") (EValue JNull) r
  else
    upsertPresence now (get_opt user "id")
      (EUpdater (λ previousEntry,
         JObj {[ "user" := user;
                 "cursor" := nullish cursor (get_opt previousEntry "cursor");
                 "lastSeen" := JNum stamp ]}))
      r.

(** A [storage] event: the key and the new value, each possibly [null]. *)
Record StorageEvent := { key : option string; newValue : option Item }.

(** [handleStorage(event)] *)
Definition handleStorage (event : StorageEvent) (r : Replica) : Result Replica :=
  if negb (bool_decide (key event = Some (storageKey r))) || raw_falsy (newValue event)
  then Ok r
  else
    try_catch
      (payload ← JSON_parse (default ItemEmpty (newValue event));
       t ← get payload "text";
       u ← get payload "updatedAt";
       match t, u with
       | JStr s, JNum n =>
           if lastUpdateRef r <? n then Ok (persistDoc s n r) else Ok r
       | _, _ => Ok r
       end)
      (λ _, Ok r).

(** [handlePresenceStorage(event)] *)
Definition handlePresenceStorage (now : Z) (event : StorageEvent) (r : Replica)
    : Result Replica :=
  if negb (bool_decide (key event = Some (presenceStorageKey r)))
     || raw_falsy (newValue event)
  then Ok r
  else
    try_catch
      (parsed ← JSON_parse (default ItemEmpty (newValue event));
       let snapshot := if truthy parsed then parsed else JObj ∅ in
       pruned ← prunePresenceSnapshot now snapshot;
       Ok (set_presence pruned None r))
      (λ _, Ok r).

(** The callback of [window.setInterval(..., PRESENCE_TTL_MS)]. *)
Definition pruneTick (now : Z) (r : Replica) : Result Replica :=
  let prev := presence r in
  pruned ← prunePresenceSnapshot now (JObj (props prev));
  if bool_decide (size (props prev) = size (props pruned)) then Ok r
  else Ok (set_presence pruned
             (persistPresenceSnapshot (Some (localStorage r)) (presenceStorageKey r) pruned)
             r).

(** [channel.onmessage]; [data] is [event?.data]. *)
Definition onmessage (stamp now : Z) (data : JsVal) (r : Replica) : Result Replica :=
  let payload := data in
  if negb (truthy payload) then Ok r
  else
    ty ← get payload "type";
    if is_str ty "presence" then handlePresenceMessage stamp now payload r
    else
      let message := if is_str ty "doc" then payload else JNull in
      let textPayload := nullish message payload in
      match get_opt textPayload "text", get_opt textPayload "updatedAt" with
      | JStr s, JNum n =>
          if lastUpdateRef r <? n then Ok (persistDoc s n r) else Ok r
      | _, _ => Ok r
      end.

(** [new BroadcastChannel(name)], which throws where the feature is
    unsupported or blocked. *)
Definition new_BroadcastChannel (supported : bool) (name : string) : Result string :=
  if supported then Ok name else Throw DOMException.

(** The effect that opens the room's channel (its body up to the
    installation of [onmessage]). *)
Definition openChannel (supported : bool) (r : Replica) : Result Replica :=
  try_catch
    (channel ← new_BroadcastChannel supported ("room-channel:" +:+ roomId r);
     Ok (set_channel true (Some channel) false r))
    (λ error, Ok (set_channel false (channelRef r) (channelClosed r) r)).

(** The cleanup of that effect, which exists when the channel was
    constructed: [setIsChannelReady(false); channel.close()]. The ref
    keeps the closed channel. *)
Definition closeChannel (r : Replica) : Replica :=
  match channelRef r with
  | Some channel => set_channel false (Some channel) true r
  | None => r
  end.

(** [channelRef.current?.postMessage(msg)]; posting on a closed channel
    throws an [InvalidStateError]. *)
Definition postMessage (msg : JsVal) (r : Replica) : Result Replica :=
  match channelRef r with
  | Some _ =>
      if channelClosed r then Throw DOMException
      else Ok (set_outbox (outbox r ++ [msg]) r)
  | None => Ok r
  end.

(** The message [handleInput] publishes,
    [{ type: 'doc', text: nextText, updatedAt: timestamp }]. *)
Definition docMessage (d : Doc) : JsVal :=
  JObj {[ "type" := JStr "doc"; "text" := JStr (text d);
          "updatedAt" := JNum (updatedAt d) ]}.

(** The ['cursor'] message of the presence protocol. *)
Definition cursorMessage (currentUser cursor : JsVal) : JsVal :=
  JObj {[ "type" := JStr "presence"; "action" := JStr "cursor";
          "user" := currentUser; "cursor" := cursor ]}.

(** [broadcastCursor], for a mounted editor. [caret] is [None] when there
    is no selection, when the selection lies outside the editor or when it
    has no rectangle, and otherwise the measured offsets [x] and [y],
    carried as they are. [stampCursor], [stampSeen] and [now] are the
    three clock readings, in the order they are made. *)
Definition broadcastCursor (stampCursor stampSeen now : Z) (currentUser : JsVal)
    (caret : option (JsVal * JsVal)) (r : Replica) : Result Replica :=
  if negb (truthy currentUser) || negb (isChannelReady r) then Ok r
  else
    match caret with
    | None => Ok r
    | Some (x, y) =>
        let cursor := JObj {[ "x" := x; "y" := y; "updatedAt" := JNum stampCursor ]} in
        r1 ← upsertPresence now (get_opt currentUser "id")
               (EValue (JObj {[ "user" := currentUser; "cursor" := cursor;
                                "lastSeen" := JNum stampSeen ]}))
               r;
        postMessage (cursorMessage currentUser cursor) r1
    end.

(** [handleInput], for a mounted editor whose [innerText] is [nextText];
    [timestamp] is its own clock reading, the others are those of
    [broadcastCursor]. *)
Definition handleInput (nextText : string) (timestamp stampCursor stampSeen now : Z)
    (currentUser : JsVal) (caret : option (JsVal * JsVal)) (r : Replica)
    : Result Replica :=
  r1 ← postMessage (docMessage {| text := nextText; updatedAt := timestamp |})
         (persistDoc nextText timestamp r);
  broadcastCursor stampCursor stampSeen now currentUser caret r1.

(** The [entries] of [presenceList], before they are sorted by [lastSeen]:
    the values of [presence ?? {}] whose [entry?.user?.id] is truthy. *)
Definition presenceList (r : Replica) : list JsVal :=
  filter (λ entry, truthy (get_opt (get_opt entry "user") "id") = true)
         (snd <$> map_to_list (props (presence r))).

(** ** Runs of a replica *)

(** What happens to a mounted replica: a tick of the pruning timer, a
    channel message, a [storage] event (as the document listener and as
    the presence listener see it), a local edit (with the clock readings
    that precede the last one, the user of the render and the caret), a
    local presence upsert (the registration and the join announcement). *)
Inductive Event :=
| Tick
| Message (stamp : Z) (data : JsVal)
| DocStorage (ev : StorageEvent)
| PresenceStorage (ev : StorageEvent)
| Input (nextText : string) (timestamp stampCursor stampSeen : Z)
        (currentUser : JsVal) (caret : option (JsVal * JsVal))
| Upsert (userId : JsVal) (entryOrUpdater : EntryOrUpdater).

(** One event; [now] is the last clock reading of its handler. *)
Definition step (now : Z) (ev : Event) (r : Replica) : Result Replica :=
  match ev with
  | Tick => pruneTick now r
  | Message stamp data => onmessage stamp now data r
  | DocStorage e => handleStorage e r
  | PresenceStorage e => handlePresenceStorage now e r
  | Input nextText timestamp stampCursor stampSeen currentUser caret =>
      handleInput nextText timestamp stampCursor stampSeen now currentUser caret r
  | Upsert userId entryOrUpdater => upsertPresence now userId entryOrUpdater r
  end.

Fixpoint run (trace : list (Z * Event)) (r : Replica) : Result Replica :=
  match trace with
  | [] => Ok r
  | (now, ev) :: rest => r' ← step now ev r; run rest r'
  end.

(** The event is a presence message, a local upsert or a local edit for
    the user whose registry key is [U], or a presence [storage] event,
    which replaces the whole registry by another replica's snapshot. *)
Definition concerns (U : string) (ev : Event) : Prop :=
  match ev with
  | Message _ data =>
      is_str (get_opt data "type") "presence" = true
      ∧ ToPropertyKey (get_opt (get_opt data "user") "id") = Ok U
  | Upsert userId _ => ToPropertyKey userId = Ok U
  | Input _ _ _ _ currentUser _ => ToPropertyKey (get_opt currentUser "id") = Ok U
  | PresenceStorage _ => True
  | _ => False
  end.

End Runtime.

(** * The rest of the component *)

(** ** The stored identity *)

Definition CURRENT_USER_KEY : string := "collabCurrentUser".

(** [readCurrentUserFromStorage] *)
Definition readCurrentUserFromStorage (window : option (gmap string Item))
    : Result JsVal :=
  match window with
  | None => Ok JNull
  | Some localStorage =>
      try_catch
        (let raw := localStorage !! CURRENT_USER_KEY in
         parsed ← (if raw_falsy raw then Ok JNull
                   else JSON_parse (default ItemEmpty raw));
         if truthy (get_opt parsed "id") && truthy (get_opt parsed "name")
         then Ok parsed
         else Ok JNull)
        (λ _, Ok JNull)
  end.

(** [persistCurrentUser], returning the storage after the call. *)
Definition persistCurrentUser (window : option (gmap string Item)) (user : JsVal)
    : option (gmap string Item) :=
  match window with
  | None => None
  | Some localStorage => Some (<[CURRENT_USER_KEY := JSON_stringify user]> localStorage)
  end.

(** ** Initials *)

(** What the runtime says of one code unit of a string: whether the
    pattern [\s] matches it, and its [toUpperCase()], which may be longer
    than one unit. Nothing is assumed about either. *)
Class JsText := {
  isWhiteSpace : Ascii.ascii → bool;
  charToUpperCase : Ascii.ascii → string;
}.

Section Initials.
Context `{!JsText}.

(** [s.split(/\s+/)]: the pieces between the maximal runs of white space,
    the empty pieces before a leading run and after a trailing one
    included. [piece] holds the current piece, reversed; [in_sep] says
    that the last unit read was white space. *)
Fixpoint split_ws (s : list Ascii.ascii) (piece : list Ascii.ascii) (in_sep : bool)
    : list (list Ascii.ascii) :=
  match s with
  | [] => [rev piece]
  | c :: s' =>
      if isWhiteSpace c then
        if in_sep then split_ws s' [] true
        else rev piece :: split_ws s' [] true
      else split_ws s' (c :: piece) false
  end.

(** [segment[0]?.toUpperCase() ?? ''] *)
Definition initial (segment : list Ascii.ascii) : string :=
  match segment with
  | [] => ""
  | c :: _ => charToUpperCase c
  end.

(** The body of [getInitials], on the units of a string:
    [.split(/\s+/).filter(Boolean).slice(0, 2).map(...).join('')]. *)
Definition initials_of (name : list Ascii.ascii) : string :=
  foldr String.append ""
    (initial <$> take 2 (filter (λ seg, seg ≠ []) (split_ws name [] false))).

(** A run of white space, and a word: a non-empty run without white
    space. *)
Definition spaces (sp : list Ascii.ascii) : Prop :=
  Forall (λ c, isWhiteSpace c = true) sp.

Definition word (w : list Ascii.ascii) : Prop :=
  w ≠ [] ∧ Forall (λ c, isWhiteSpace c = false) w.

(** [getInitials(name)]; the default [''] stands in for [undefined] only,
    and any other value that is not a string has no [split] to call. *)
Definition getInitials (name : JsVal) : Result string :=
  match name with
  | JUndefined => Ok (initials_of [])
  | JStr s => Ok (initials_of (String.list_ascii_of_string s))
  | _ => Throw TypeError
  end.

End Initials.

(** ** Joining and leaving *)

Section Lifecycle.
Context `{!JsRuntime}.

(** [removeUserFromPresenceSnapshot(key, userId)], returning the storage
    after the call. The [delete] stands outside any [try]. *)
Definition removeUserFromPresenceSnapshot (window : option (gmap string Item))
    (key : string) (userId : JsVal) (now : Z) : Result (option (gmap string Item)) :=
  match window with
  | None => Ok window
  | Some _ =>
      if negb (truthy userId) then Ok window
      else
        snapshot ← readPresenceSnapshot window key now;
        k ← ToPropertyKey userId;
        Ok (persistPresenceSnapshot window key (obj_delete k snapshot))
  end.

(** The entry a replica writes for its own user,
    [{ user: currentUser, lastSeen: Date.now() }]. *)
Definition selfEntry (currentUser : JsVal) (stamp : Z) : JsVal :=
  JObj {[ "user" := currentUser; "lastSeen" := JNum stamp ]}.

(** The effect that registers the local user,
    [if (!currentUser) return; upsertPresence(currentUser.id, ...)]. *)
Definition registerSelf (stamp now : Z) (currentUser : JsVal) (r : Replica)
    : Result Replica :=
  if negb (truthy currentUser) then Ok r
  else upsertPresence now (get_opt currentUser "id")
         (EValue (selfEntry currentUser stamp)) r.

(** The ['join'] and ['leave'] messages of the presence protocol. *)
Definition joinMessage (currentUser : JsVal) : JsVal :=
  JObj {[ "type" := JStr "presence"; "action" := JStr "join";
          "user" := currentUser ]}.

Definition leaveMessage (currentUser : JsVal) : JsVal :=
  JObj {[ "type" := JStr "presence"; "action" := JStr "leave";
          "user" := currentUser ]}.

(** The effect that announces the local user once the channel is ready:
    its guard and [announceJoin]. *)
Definition announceJoin (stamp now : Z) (currentUser : JsVal) (r : Replica)
    : Result Replica :=
  if negb (truthy currentUser) || negb (isChannelReady r) then Ok r
  else
    r1 ← postMessage (joinMessage currentUser) r;
    upsertPresence now (get_opt currentUser "id")
      (EValue (selfEntry currentUser stamp)) r1.

(** [handleBeforeUnload], which is also the body of the announcing
    effect's cleanup; both are installed when the effect ran with a truthy
    [currentUser] and a ready channel. When the component unmounts, the
    cleanups run in the order the effects are declared, this one after
    [closeChannel]. *)
Definition announceLeave (now : Z) (currentUser : JsVal) (r : Replica) : Result Replica :=
  r1 ← postMessage (leaveMessage currentUser) r;
  st ← removeUserFromPresenceSnapshot (Some (localStorage r1))
         (presenceStorageKey r1) (get_opt currentUser "id") now;
  Ok (set_presence (presence r1) st r1).

(** The events of the presence protocol, those that carry a document,
    and the local edits. *)
Definition presence_event (ev : Event) : bool :=
  match ev with
  | Tick | PresenceStorage _ | Upsert _ _ => true
  | Message _ data => truthy data && is_str (get_opt data "type") "presence"
  | DocStorage _ | Input _ _ _ _ _ _ => false
  end.

Definition document_event (ev : Event) : bool :=
  match ev with
  | DocStorage _ => true
  | Message _ data => negb (truthy data && is_str (get_opt data "type") "presence")
  | Tick | PresenceStorage _ | Upsert _ _ | Input _ _ _ _ _ _ => false
  end.

Definition is_input (ev : Event) : bool :=
  match ev with
  | Input _ _ _ _ _ _ => true
  | _ => false
  end.

End Lifecycle.

(** * Notions used in the statements *)

(** ** Values that convert *)

(** [ToNumber] and [ToPropertyKey] return on [v]: it is a primitive, or an
    object without an own [toString]. *)
Definition convertible (v : JsVal) : bool :=
  match v with
  | JObj o => bool_decide (o !! "toString" = None)
  | _ => true
  end.

(** A snapshot on which the pruning test can be evaluated throughout. *)
Definition prunable (m : gmap string JsVal) : Prop :=
  map_Forall (λ _ entry, convertible (get_opt entry "lastSeen") = true) m.

(** A registry object as pruning returns it, whatever the prototype it
    ends with: no own property ["__proto__"], and the test evaluates on
    every entry. *)
Definition wellformed (o : Obj) : Prop :=
  props o !! "__proto__" = None ∧ prunable (props o).

(** What the setter of [__proto__] makes of a value. *)
Definition prototype_of (v : JsVal) : Prototype :=
  match v with
  | JNull => NullPrototype
  | JObj fields => ObjectValue fields
  | _ => ObjectPrototype
  end.

Section ClosedForms.
Context `{!JsRuntime}.

(** The pruning test returns [true]. *)
Definition passes (now : Z) (entry : JsVal) : bool :=
  match fresh now entry with
  | Ok true => true
  | _ => false
  end.

(** The object [prunePresenceSnapshot] returns for the own properties
    [m], in closed form: the entries that pass the test, except the one
    under ["__proto__"], which becomes the prototype when it passes. *)
Definition pruned (now : Z) (m : gmap string JsVal) : Obj :=
  {| props := filter (λ kv, kv.1 ≠ "__proto__" ∧ passes now kv.2 = true) m;
     proto := match m !! "__proto__" with
              | Some entry => if passes now entry then prototype_of entry
                              else ObjectPrototype
              | None => ObjectPrototype
              end |}.

(** What a replica reads, at time [now], of an entry that another one
    persisted: nothing for an [undefined] or an expired entry, and
    otherwise the entry as [JSON] returns it. *)
Definition reloaded (now : Z) (entry : JsVal) : option JsVal :=
  match entry with
  | JUndefined => None
  | _ => if passes now entry then Some (json_norm entry) else None
  end.

(** An event whose user id converts to a property key and, for a local
    upsert, whose value carries a [lastSeen] that converts to a number:
    the shape of every event the protocol describes. An updater is only
    handed over for a key that is not the name of a member of
    [Object.prototype], where it would receive that member. *)
Definition well_typed (ev : Event) : Prop :=
  match ev with
  | Message _ data => convertible (get_opt (get_opt data "user") "id") = true
  | Input _ _ _ _ currentUser _ => convertible (get_opt currentUser "id") = true
  | Upsert userId entryOrUpdater =>
      convertible userId = true
      ∧ (∀ previousEntry,
           let source := resolve entryOrUpdater previousEntry in
           truthy source = true →
           ∃ lastSeen, own_props source !! "lastSeen" = Some lastSeen
                       ∧ convertible lastSeen = true)
      ∧ match entryOrUpdater with
        | EUpdater _ =>
            ∀ U, ToPropertyKey userId = Ok U → U ∉ Object_prototype_members
        | EValue _ => True
        end
  | Tick | DocStorage _ | PresenceStorage _ => True
  end.

End ClosedForms.

(** ** The specification's reading of expiry *)

(** An entry is expired, in the words of the specification, when its
    [lastSeen] satisfies [now - lastSeen > 45000]. *)
Definition expired_by_spec (now : Z) (entry : JsVal) : bool :=
  match get_opt entry "lastSeen" with
  | JNum n => 45000 <? now - n
  | _ => false
  end.

(** The same with the timestamp [0] set apart: [lastSeen] is a number
    other than [0] and [now - lastSeen > 45000]. *)
Definition stale (now : Z) (entry : JsVal) : bool :=
  match get_opt entry "lastSeen" with
  | JNum n => negb (n =? 0) && (45000 <? now - n)
  | _ => false
  end.

(** An entry whose [lastSeen] is a timestamp or is missing ([undefined],
    also for an absent field, or [null]). *)
Definition timestamped (entry : JsVal) : Prop :=
  match get_opt entry "lastSeen" with
  | JNum _ | JUndefined | JNull => True
  | _ => False
  end.

(** ** Document candidates *)

(** The timestamp ref and the document state agree. *)
Definition coherent (r : Replica) : Prop :=
  lastUpdateRef r = updatedAt (docState r).

(** A document candidate: an object with a string [text] and a number
    [updatedAt]. *)
Definition candidate (p : gmap string JsVal) (d : Doc) : Prop :=
  p !! "text" = Some (JStr (text d)) ∧ p !! "updatedAt" = Some (JNum (updatedAt d)).

(** The value a durable document record holds, when it is there and
    parses to something other than [null]. *)
Definition stored_value (window : option (gmap string Item)) (key : string)
    : option JsVal :=
  match window ≫= (.!! key) with
  | Some (ItemJson v) =>
      match v with
      | JUndefined | JNull => None
      | _ => Some v
      end
  | _ => None
  end.

(** ** Messages that carry nothing to apply *)

Definition doc_fields_ok (payload : JsVal) : bool :=
  match get_opt payload "text", get_opt payload "updatedAt" with
  | JStr _, JNum _ => true
  | _, _ => false
  end.

(** A falsy payload, a presence message that names no user id, or any
    other message without a string [text] and a number [updatedAt]. *)
Definition malformed (data : JsVal) : bool :=
  negb (truthy data)
  || if is_str (get_opt data "type") "presence"
     then negb (truthy (get_opt (get_opt data "user") "id"))
     else negb (doc_fields_ok data).

(** ** What a handler leaves alone *)

(** The replica [r'] differs from [r] in the registry and in the presence
    record at most. *)
Definition presence_only (r r' : Replica) : Prop :=
  docState r' = docState r ∧ lastUpdateRef r' = lastUpdateRef r
  ∧ outbox r' = outbox r ∧ roomId r' = roomId r
  ∧ channelRef r' = channelRef r ∧ channelClosed r' = channelClosed r
  ∧ isChannelReady r' = isChannelReady r
  ∧ ∀ k, k ≠ presenceStorageKey r → localStorage r' !! k = localStorage r !! k.

(** ** Sample data *)

(** A replica of room ["lobby"] that holds document [d] and the presence
    entries [p], with no channel and an empty storage. *)
Definition replica_holding (d : Doc) (p : gmap string JsVal) : Replica :=
  {| roomId := "lobby"; docState := d; lastUpdateRef := updatedAt d;
     presence := new_object p; isChannelReady := false; channelRef := None;
     channelClosed := false; localStorage := ∅; outbox := [] |}.

(** A replica of room ["lobby"] whose channel is open. *)
Definition replica_online (d : Doc) (p : gmap string JsVal) : Replica :=
  {| roomId := "lobby"; docState := d; lastUpdateRef := updatedAt d;
     presence := new_object p; isChannelReady := true;
     channelRef := Some "room-channel:lobby"; channelClosed := false;
     localStorage := ∅; outbox := [] |}.

(** The presence entry [{ user: { id }, lastSeen: T }]. *)
Definition entry_at (id : string) (T : Z) : JsVal :=
  JObj {[ "user" := JObj {[ "id" := JStr id ]}; "lastSeen" := JNum T ]}.

(** A presence entry without a [lastSeen]. *)
Definition entry_unstamped (id : string) : JsVal :=
  JObj {[ "user" := JObj {[ "id" := JStr id ]} ]}.

(** A message of an unknown type that carries document fields. *)
Definition ping_message : gmap string JsVal :=
  {[ "type" := JStr "ping"; "text" := JStr "x"; "updatedAt" := JNum 100 ]}.

(** A ['doc'] message whose [updatedAt] is a string. *)
Definition mistyped_message : JsVal :=
  JObj {[ "type" := JStr "doc"; "text" := JStr "x"; "updatedAt" := JStr "100" ]}.

(** The message a leaving replica posts for user [id]. *)
Definition leave_message (id : string) : gmap string JsVal :=
  {[ "type" := JStr "presence"; "action" := JStr "leave";
     "user" := JObj {[ "id" := JStr id ]} ]}.

(** A storage whose document record for room ["lobby"] has an [updatedAt]
    and no [text]. *)
Definition storage_without_text : gmap string Item :=
  {[ "room-doc:lobby" := ItemJson (JObj {[ "updatedAt" := JNum 5 ]}) ]}.

(** A user profile. *)
Definition profile (id name : string) : JsVal :=
  JObj {[ "id" := JStr id; "name" := JStr name; "color" := JStr "#ef4444" ]}.

(** A ['join'] message for user ["u1"], as the fields of its object. *)
Definition join_payload : gmap string JsVal :=
  {[ "type" := JStr "presence"; "action" := JStr "join";
     "user" := profile "u1" "Ann" ]}.

(** An object that does not convert to a primitive: its own [toString]
    is not a function. *)
Definition unconvertible_object : JsVal := JObj {[ "toString" := JNum 1 ]}.

(** A ['join'] message whose user id is that object. *)
Definition unconvertible_join : JsVal :=
  JObj {[ "type" := JStr "presence"; "action" := JStr "join";
          "user" := JObj {[ "id" := unconvertible_object; "name" := JStr "Ann" ]} ]}.

(** The code units of a string. *)
Definition units (s : string) : list Ascii.ascii := String.list_ascii_of_string s.

(** The runtime on ASCII text: the white space [\s] matches there (tab to
    carriage return, and the space) and the upper case of the letters. *)
Definition ascii_text : JsText :=
  {| isWhiteSpace c :=
       let n := Ascii.nat_of_ascii c in
       ((9 <=? n)%nat && (n <=? 13)%nat) || (n =? 32)%nat;
     charToUpperCase c :=
       let n := Ascii.nat_of_ascii c in
       if ((97 <=? n)%nat && (n <=? 122)%nat)
       then String (Ascii.ascii_of_nat (n - 32)) EmptyString
       else String c EmptyString |}.

(** * Properties *)

Section Properties.
Context `{!JsRuntime}.

(** ** Conversions and the pruning test *)

Lemma ToNumber_convertible v :
  convertible v = true → ∃ n, ToNumber v = Ok n.
Proof.
  destruct v as [| |b|n|s|o]; simpl; try by eexists.
  unfold OrdinaryToPrimitive. intros ->. by eexists.
Qed.

Lemma ToNumber_unconvertible v :
  convertible v = false → ToNumber v = Throw TypeError.
Proof.
  destruct v as [| |b|n|s|o]; simpl; try done.
  unfold OrdinaryToPrimitive. by intros ->.
Qed.

Lemma ToPropertyKey_convertible v :
  convertible v = true → ∃ k, ToPropertyKey v = Ok k.
Proof.
  destruct v as [| |b|n|s|o]; simpl; try by eexists.
  unfold OrdinaryToPrimitive. intros ->. by eexists.
Qed.

Lemma ToPropertyKey_unconvertible v :
  convertible v = false → ToPropertyKey v = Throw TypeError.
Proof.
  destruct v as [| |b|n|s|o]; simpl; try done.
  unfold OrdinaryToPrimitive. by intros ->.
Qed.

Lemma ToPropertyKey_Ok v k : ToPropertyKey v = Ok k → convertible v = true.
Proof.
  destruct (convertible v) eqn:Hc; [done|].
  by rewrite ToPropertyKey_unconvertible.
Qed.

Lemma falsy_convertible v : truthy v = false → convertible v = true.
Proof. by destruct v. Qed.

Lemma fresh_convertible now e :
  convertible (get_opt e "lastSeen") = true → fresh now e = Ok (passes now e).
Proof.
  intros Hc. unfold passes, fresh.
  destruct (negb (truthy (get_opt e "lastSeen"))); [done|].
  destruct (ToNumber_convertible _ Hc) as (n & ->). simpl.
  by destruct (match n with Some _ => _ | None => _ end).
Qed.

Lemma fresh_unconvertible now e :
  convertible (get_opt e "lastSeen") = false → fresh now e = Throw TypeError.
Proof.
  intros Hc. unfold fresh.
  destruct (truthy (get_opt e "lastSeen")) eqn:Ht; simpl.
  - by rewrite ToNumber_unconvertible.
  - by rewrite falsy_convertible in Hc.
Qed.

Lemma passes_fresh now e : passes now e = true ↔ fresh now e = Ok true.
Proof.
  unfold passes. destruct (fresh now e) as [[]|]; split; done.
Qed.

Lemma passes_convertible now e :
  passes now e = true → convertible (get_opt e "lastSeen") = true.
Proof.
  intros Hp. destruct (convertible _) eqn:Hc; [done|].
  unfold passes in Hp. by rewrite fresh_unconvertible in Hp.
Qed.

Lemma passes_falsy now e :
  truthy (get_opt e "lastSeen") = false → passes now e = true.
Proof. unfold passes, fresh. by intros ->. Qed.

(** Case analysis on the integer comparisons of the goal. *)
Ltac compare_ints :=
  unfold PRESENCE_TTL_MS;
  repeat match goal with
         | |- context [?a =? ?b] => destruct (Z.eqb_spec a b)
         | |- context [?a <=? ?b] => destruct (Z.leb_spec a b)
         | |- context [?a <? ?b] => destruct (Z.ltb_spec a b)
         end;
  simpl; try done; try lia.

Lemma passes_timestamped now e :
  timestamped e → passes now e = negb (stale now e).
Proof.
  unfold timestamped, passes, fresh, stale.
  destruct (get_opt e "lastSeen") as [| |b|n|s|o]; simpl; try done.
  compare_ints.
Qed.

Lemma timestamped_convertible e :
  timestamped e → convertible (get_opt e "lastSeen") = true.
Proof. unfold timestamped. by destruct (get_opt e "lastSeen"). Qed.

Lemma passes_not_stale now e : passes now e = true → stale now e = false.
Proof.
  unfold passes, fresh, stale.
  destruct (get_opt e "lastSeen") as [| |b|n|s|o]; simpl; try done.
  compare_ints.
Qed.

Lemma passes_numeric now e T :
  get_opt e "lastSeen" = JNum T → T ≠ 0 →
  passes now e = (now - T <=? 45000).
Proof.
  intros HT Hne. unfold passes, fresh. rewrite HT; simpl. compare_ints.
Qed.

Lemma passes_earlier now1 now2 e :
  now1 ≤ now2 → passes now2 e = true → passes now1 e = true.
Proof.
  intros Hle. unfold passes, fresh.
  destruct (negb (truthy (get_opt e "lastSeen"))); [done|]; simpl.
  destruct (ToNumber (get_opt e "lastSeen")) as [[n|]|]; simpl; try done.
  unfold PRESENCE_TTL_MS.
  destruct (Z.leb_spec (now2 - n) 45000); [|done].
  destruct (Z.leb_spec (now1 - n) 45000); [done|lia].
Qed.

(** ** Pruning in closed form *)

Lemma pruned_empty now : pruned now ∅ = new_object ∅.
Proof. unfold pruned, new_object. by rewrite map_filter_empty, lookup_empty. Qed.

Lemma pruned_lookup now m k :
  props (pruned now m) !! k
  = if bool_decide (k = "__proto__") then None
    else e ← m !! k; if passes now e then Some e else None.
Proof.
  unfold pruned; simpl. rewrite map_lookup_filter.
  case_bool_decide as Hk.
  - destruct (m !! k) as [e|]; simpl; [|done].
    rewrite option_guard_False; [done|]. simpl. by intros [? _].
  - destruct (m !! k) as [e|]; simpl; [|done].
    destruct (passes now e) eqn:Hp.
    + by rewrite option_guard_True.
    + rewrite option_guard_False; [done|]. simpl. intros [_ ?]. congruence.
Qed.

Lemma pruned_lookup_Some now m k e :
  props (pruned now m) !! k = Some e
  ↔ k ≠ "__proto__" ∧ m !! k = Some e ∧ passes now e = true.
Proof.
  rewrite pruned_lookup. case_bool_decide as Hk.
  - split; [done|]. by intros [? _].
  - destruct (m !! k) as [e'|]; simpl.
    + destruct (passes now e') eqn:Hp; split.
      * by intros [= ->].
      * by intros (_ & [= ->] & _).
      * done.
      * intros (_ & [= ->] & ?). congruence.
    + split; [done|]. by intros (_ & ? & _).
Qed.

Lemma pruned_no_proto_key now m : props (pruned now m) !! "__proto__" = None.
Proof. by rewrite pruned_lookup, bool_decide_eq_true_2. Qed.

Lemma pruned_all_pass now m :
  map_Forall (λ _ e, passes now e = true) (props (pruned now m)).
Proof. intros k e. by intros (_ & _ & ?)%pruned_lookup_Some. Qed.

Lemma pruned_wellformed now m : wellformed (pruned now m).
Proof.
  split; [apply pruned_no_proto_key|].
  intros k e Hk. eapply passes_convertible. by eapply pruned_all_pass.
Qed.

Lemma pruned_subseteq now m : props (pruned now m) ⊆ m.
Proof. apply map_filter_subseteq. Qed.

Lemma pruned_ordinary now m :
  m !! "__proto__" = None →
  pruned now m
  = new_object (filter (λ kv, kv.1 ≠ "__proto__" ∧ passes now kv.2 = true) m).
Proof. intros Hk. unfold pruned. by rewrite Hk. Qed.

Lemma pruned_insert now m k e :
  m !! k = None →
  pruned now (<[k := e]> m)
  = if passes now e then obj_set k e (pruned now m) else pruned now m.
Proof.
  intros Hk. unfold obj_set. rewrite pruned_lookup.
  destruct (decide (k = "__proto__")) as [->|Hne].
  - rewrite !bool_decide_eq_true_2 by done.
    rewrite (pruned_ordinary now m Hk). cbn [andb proto new_object reaches_proto_accessor].
    unfold pruned. rewrite lookup_insert_eq.
    rewrite map_filter_insert_False by (simpl; by intros [? _]).
    rewrite delete_id by done.
    destruct (passes now e); [|done]. by destruct e.
  - rewrite (bool_decide_eq_false_2 (k = "__proto__")) by done. cbn [andb].
    unfold pruned. rewrite lookup_insert_ne by done.
    destruct (passes now e) eqn:Hp; simpl.
    + by rewrite map_filter_insert_True.
    + rewrite map_filter_insert_False by (simpl; intros [_ ?]; congruence).
      by rewrite delete_id.
Qed.

(** [prunePresenceSnapshot] returns when the test evaluates on every
    entry, and then it returns the closed form. *)
Lemma prune_closed now (m : gmap string JsVal) :
  prunable m → prunePresenceSnapshot now (JObj m) = Ok (pruned now m).
Proof.
  unfold prunePresenceSnapshot. cbn [nullish own_props].
  induction m as [|k e m Hk Hfirst IH] using map_first_key_ind; intros Hm.
  - by rewrite map_fold_empty, pruned_empty.
  - apply map_Forall_insert in Hm as [He Hm]; [|done].
    rewrite map_fold_insert_first_key by done. rewrite IH by done.
    cbn [mbind result_bind]. rewrite fresh_convertible by done.
    cbn [mbind result_bind]. by rewrite pruned_insert.
Qed.

(** It throws a [TypeError] otherwise. *)
Lemma prune_throws now (m : gmap string JsVal) :
  ¬ prunable m → prunePresenceSnapshot now (JObj m) = Throw TypeError.
Proof.
  unfold prunePresenceSnapshot. cbn [nullish own_props].
  induction m as [|k e m Hk Hfirst IH] using map_first_key_ind; intros Hm.
  - destruct Hm. apply map_Forall_empty.
  - rewrite map_fold_insert_first_key by done.
    destruct (decide (prunable m)) as [Hpm|Hnpm].
    + pose proof (prune_closed now m Hpm) as Hc.
      unfold prunePresenceSnapshot in Hc. cbn [nullish own_props] in Hc.
      rewrite Hc. cbn [mbind result_bind].
      destruct (convertible (get_opt e "lastSeen")) eqn:He.
      * destruct Hm. by apply map_Forall_insert.
      * by rewrite fresh_unconvertible.
    + by rewrite IH.
Qed.

Lemma prune_of_value now (s : JsVal) :
  prunePresenceSnapshot now s
  = prunePresenceSnapshot now (JObj (own_props (nullish s (JObj ∅)))).
Proof. done. Qed.

Lemma prune_cases now (s : JsVal) :
  let m := own_props (nullish s (JObj ∅)) in
  (prunable m ∧ prunePresenceSnapshot now s = Ok (pruned now m))
  ∨ (¬ prunable m ∧ prunePresenceSnapshot now s = Throw TypeError).
Proof.
  intros m. rewrite prune_of_value. fold m.
  destruct (decide (prunable m)).
  - left. split; [done|]. by apply prune_closed.
  - right. split; [done|]. by apply prune_throws.
Qed.

Lemma prune_Ok now (s : JsVal) o :
  prunePresenceSnapshot now s = Ok o →
  prunable (own_props (nullish s (JObj ∅)))
  ∧ o = pruned now (own_props (nullish s (JObj ∅))).
Proof.
  intros Ho. destruct (prune_cases now s) as [[Hm Hc]|[_ Hc]];
    rewrite Hc in Ho; [|done].
  by injection Ho as <-.
Qed.

Lemma prune_Ok_wellformed now s o :
  prunePresenceSnapshot now s = Ok o → wellformed o.
Proof. intros [_ ->]%prune_Ok. apply pruned_wellformed. Qed.


(** C2 (as amended). On a snapshot that has no entry under the key
    ["__proto__"] and whose entries carry a timestamp or no [lastSeen] at
    all, [prunePresenceSnapshot] removes exactly the entries whose
    [lastSeen] is a number other than [0] with [now - lastSeen > 45000],
    and returns all the others unchanged; the entries without a
    [lastSeen] are among those it keeps. *)
Theorem prune_removes_exactly_stale now (snapshot : gmap string JsVal) :
  (∀ k e, snapshot !! k = Some e → timestamped e) →
  snapshot !! "__proto__" = None →
  prunePresenceSnapshot now (JObj snapshot)
  = Ok (new_object (filter (λ kv, stale now kv.2 = false) snapshot)).
Proof.
  intros Hts Hproto. rewrite prune_closed.
  - rewrite pruned_ordinary by done. do 2 f_equal. apply map_filter_ext.
    intros k e Hk; simpl. rewrite (passes_timestamped now e) by eauto.
    destruct (stale now e); simpl; split; try done.
    + by intros [_ ?].
    + intros _. split; [|done]. intros ->. congruence.
  - intros k e Hk. apply timestamped_convertible. eauto.
Qed.

(** C10 (what the code does at the failing input). An entry stored under
    the key ["__proto__"] is not kept, although its [lastSeen] is falsy:
    the reducer's assignment makes it the prototype of the snapshot it
    returns, which has no property of that name. Under every other key an
    entry with a falsy [lastSeen] is kept, whatever the time. *)
Theorem prune_loses_proto_entry now (snapshot : gmap string JsVal) e :
  snapshot !! "__proto__" = Some e →
  truthy (get_opt e "lastSeen") = false →
  prunable snapshot →
  ∃ o, prunePresenceSnapshot now (JObj snapshot) = Ok o
       ∧ props o !! "__proto__" = None
       ∧ proto o = prototype_of e
       ∧ ∀ k e', k ≠ "__proto__" → snapshot !! k = Some e' →
                 truthy (get_opt e' "lastSeen") = false →
                 props o !! k = Some e'.
Proof.
  intros He Hfalsy Hp. exists (pruned now snapshot).
  split; [by apply prune_closed|]. split; [apply pruned_no_proto_key|].
  split.
  - unfold pruned; simpl. by rewrite He, passes_falsy.
  - intros k e' Hk He' Hf. apply pruned_lookup_Some.
    split; [done|]. split; [done|]. by apply passes_falsy.
Qed.

(** ** The document store *)

Lemma get_truthy v f : truthy v = true → get v f = Ok (get_opt v f).
Proof. by destruct v. Qed.

Lemma nullish_doc_or_self (ty payload : JsVal) :
  truthy payload = true →
  nullish (if is_str ty "doc" then payload else JNull) payload = payload.
Proof. destruct (is_str ty "doc"); [|done]. by destruct payload. Qed.

Lemma json_norm_docJson d : json_norm (docJson d) = docJson d.
Proof.
  unfold docJson; simpl. by f_equal.
Qed.

Lemma candidate_docJson d :
  candidate {[ "text" := JStr (text d); "updatedAt" := JNum (updatedAt d) ]} d.
Proof. split; by simplify_map_eq. Qed.

Lemma persistDoc_docState t u r :
  docState (persistDoc t u r) = {| text := t; updatedAt := u |}.
Proof. done. Qed.

Lemma persistDoc_coherent t u r : coherent (persistDoc t u r).
Proof. done. Qed.

Lemma handleStorage_candidate (p : gmap string JsVal) d r :
  candidate p d →
  handleStorage {| key := Some (storageKey r);
                   newValue := Some (ItemJson (JObj p)) |} r
  = Ok (if lastUpdateRef r <? updatedAt d
        then persistDoc (text d) (updatedAt d) r else r).
Proof.
  intros [Ht Hu]. unfold handleStorage; simpl.
  rewrite bool_decide_eq_true_2 by done. simpl.
  rewrite Ht, Hu; simpl. by destruct (lastUpdateRef r <? updatedAt d).
Qed.

Lemma onmessage_candidate stamp now (p : gmap string JsVal) d r :
  candidate p d →
  is_str (get_opt (JObj p) "type") "presence" = false →
  onmessage stamp now (JObj p) r
  = Ok (if lastUpdateRef r <? updatedAt d
        then persistDoc (text d) (updatedAt d) r else r).
Proof.
  intros [Ht Hu] Hty. unfold onmessage; simpl. simpl in Hty. rewrite Hty.
  destruct (is_str _ "doc"); simpl; rewrite Ht, Hu; simpl;
    by destruct (lastUpdateRef r <? updatedAt d).
Qed.

(** ** What the handlers leave alone *)

Lemma presence_only_refl r : presence_only r r.
Proof. by repeat split. Qed.

Lemma presence_only_trans r1 r2 r3 :
  presence_only r1 r2 → presence_only r2 r3 → presence_only r1 r3.
Proof.
  intros (Hd & Hl & Ho & Hr & Hc & Hcc & Hi & Hs) (Hd' & Hl' & Ho' & Hr' & Hc' & Hcc' & Hi' & Hs').
  repeat split; try congruence.
  intros k Hk. rewrite Hs', Hs; [done|done|].
  unfold presenceStorageKey. by rewrite Hr.
Qed.

Lemma presence_only_written p r :
  presence_only r
    (set_presence p
       (persistPresenceSnapshot (Some (localStorage r)) (presenceStorageKey r) p) r).
Proof. repeat split. intros k Hk. simpl. by rewrite lookup_insert_ne. Qed.

Lemma presence_only_coherent r r' : presence_only r r' → coherent r → coherent r'.
Proof. intros (Hd & Hl & _). unfold coherent. by rewrite Hd, Hl. Qed.

Lemma upsertPresence_falsy now userId entryOrUpdater r :
  truthy userId = false → upsertPresence now userId entryOrUpdater r = Ok r.
Proof. intros Ht. unfold upsertPresence. by rewrite Ht. Qed.

Lemma upsertPresence_truthy now userId entryOrUpdater r key :
  truthy userId = true →
  ToPropertyKey userId = Ok key →
  prunable (props (upsertNext key entryOrUpdater (presence r))) →
  upsertPresence now userId entryOrUpdater r
  = Ok (let p := pruned now (props (upsertNext key entryOrUpdater (presence r))) in
        set_presence p
          (persistPresenceSnapshot (Some (localStorage r)) (presenceStorageKey r) p) r).
Proof.
  intros Ht Hkey Hp. unfold upsertPresence. rewrite Ht, Hkey.
  cbn [negb mbind result_bind]. by rewrite prune_closed.
Qed.

Lemma upsertPresence_Ok now userId entryOrUpdater r r' :
  upsertPresence now userId entryOrUpdater r = Ok r' →
  (truthy userId = false ∧ r' = r)
  ∨ ∃ key,
      truthy userId = true ∧ ToPropertyKey userId = Ok key
      ∧ prunable (props (upsertNext key entryOrUpdater (presence r)))
      ∧ r' = (let p := pruned now (props (upsertNext key entryOrUpdater (presence r))) in
              set_presence p
                (persistPresenceSnapshot (Some (localStorage r)) (presenceStorageKey r) p)
                r).
Proof.
  unfold upsertPresence. destruct (truthy userId) eqn:Ht; cbn [negb].
  - destruct (ToPropertyKey userId) as [key|] eqn:Hkey; [|done].
    cbn [mbind result_bind].
    destruct (prunePresenceSnapshot now _) as [o|] eqn:Hprune; [|done].
    apply prune_Ok in Hprune as [Hp ->]. cbn [mbind result_bind].
    intros [= <-]. right. exists key. by repeat split.
  - intros [= <-]. by left.
Qed.

Lemma upsertPresence_inv now userId entryOrUpdater r r' :
  upsertPresence now userId entryOrUpdater r = Ok r' →
  presence_only r r' ∧ (wellformed (presence r) → wellformed (presence r')).
Proof.
  intros [[_ ->] | (key & _ & _ & _ & ->)]%upsertPresence_Ok.
  - split; [apply presence_only_refl|done].
  - cbn zeta. split; [apply presence_only_written|].
    intros _. apply pruned_wellformed.
Qed.

Lemma pruneTick_Ok now r r' :
  pruneTick now r = Ok r' →
  prunable (props (presence r))
  ∧ ((r' = r ∧ props (pruned now (props (presence r))) = props (presence r))
     ∨ (r' = (let p := pruned now (props (presence r)) in
              set_presence p
                (persistPresenceSnapshot (Some (localStorage r))
                   (presenceStorageKey r) p) r)
        ∧ props (pruned now (props (presence r))) ≠ props (presence r))).
Proof.
  unfold pruneTick.
  destruct (prunePresenceSnapshot now _) as [o|] eqn:Hprune; [|done].
  apply prune_Ok in Hprune as [Hp ->]. cbn [mbind result_bind nullish own_props] in *.
  split; [done|]. case_bool_decide as Hsize; injection H0 as <-.
  - left. split; [done|]. apply map_subseteq_size_eq.
    + apply pruned_subseteq.
    + by rewrite Hsize.
  - right. split; [done|]. intros Heq. by rewrite Heq in Hsize.
Qed.

Lemma pruneTick_inv now r r' :
  pruneTick now r = Ok r' →
  presence_only r r' ∧ (wellformed (presence r) → wellformed (presence r')).
Proof.
  intros [_ [[-> _] | [-> _]]]%pruneTick_Ok.
  - split; [apply presence_only_refl|done].
  - cbn zeta. split; [apply presence_only_written|].
    intros _. apply pruned_wellformed.
Qed.

Lemma nullish_or_empty v :
  nullish (if truthy v then v else JObj ∅) (JObj ∅)
  = if truthy v then v else JObj ∅.
Proof.
  destruct v as [| |[]|n|s|m]; simpl; try done.
  - by destruct (n =? 0).
  - by destruct (String.eqb s "").
Qed.

Lemma handlePresenceStorage_cases now ev r :
  handlePresenceStorage now ev r = Ok r
  ∨ ∃ v, key ev = Some (presenceStorageKey r)
         ∧ newValue ev = Some (ItemJson v)
         ∧ prunable (own_props (if truthy v then v else JObj ∅))
         ∧ handlePresenceStorage now ev r
           = Ok (set_presence
                   (pruned now (own_props (if truthy v then v else JObj ∅))) None r).
Proof.
  unfold handlePresenceStorage. case_bool_decide as Hkey; simpl; [|by left].
  destruct (newValue ev) as [[| |v]|]; simpl; try by left.
  pose proof (prune_cases now (if truthy v then v else JObj ∅)) as Hcases.
  cbn zeta in Hcases. rewrite nullish_or_empty in Hcases.
  destruct Hcases as [[Hp Hc]|[_ Hc]]; rewrite Hc; simpl; [|by left].
  right. exists v. by repeat split.
Qed.

Lemma handlePresenceStorage_inv now ev r r' :
  handlePresenceStorage now ev r = Ok r' →
  presence_only r r' ∧ localStorage r' = localStorage r
  ∧ (wellformed (presence r) → wellformed (presence r')).
Proof.
  destruct (handlePresenceStorage_cases now ev r) as [-> | (v & _ & _ & _ & ->)];
    intros [= <-].
  - split; [apply presence_only_refl|done].
  - split; [by repeat split|]. split; [done|].
    intros _. apply pruned_wellformed.
Qed.

Lemma handlePresenceStorage_total now ev r :
  ∃ r', handlePresenceStorage now ev r = Ok r'.
Proof.
  destruct (handlePresenceStorage_cases now ev r) as [-> | (v & _ & _ & _ & ->)];
    by eexists.
Qed.

Lemma postMessage_Ok msg r r' :
  postMessage msg r = Ok r' →
  (channelRef r = None ∧ r' = r)
  ∨ (∃ c, channelRef r = Some c) ∧ channelClosed r = false
    ∧ r' = set_outbox (outbox r ++ [msg]) r.
Proof.
  unfold postMessage. destruct (channelRef r) as [c|] eqn:Hc.
  - destruct (channelClosed r); [done|]. intros [= <-]. right. by eauto.
  - intros [= <-]. by left.
Qed.

Lemma postMessage_open msg r :
  channelClosed r = false → ∃ r', postMessage msg r = Ok r'.
Proof. intros Ho. unfold postMessage. rewrite Ho. destruct (channelRef r); by eexists. Qed.

Lemma postMessage_inv msg r r' :
  postMessage msg r = Ok r' →
  docState r' = docState r ∧ lastUpdateRef r' = lastUpdateRef r
  ∧ presence r' = presence r ∧ localStorage r' = localStorage r
  ∧ roomId r' = roomId r ∧ channelRef r' = channelRef r
  ∧ channelClosed r' = channelClosed r ∧ isChannelReady r' = isChannelReady r.
Proof. intros [[_ ->] | (_ & _ & ->)]%postMessage_Ok; by repeat split. Qed.

Lemma broadcastCursor_Ok stampCursor stampSeen now currentUser caret r r' :
  broadcastCursor stampCursor stampSeen now currentUser caret r = Ok r' →
  r' = r
  ∨ ∃ x y r1,
      truthy currentUser = true ∧ isChannelReady r = true ∧ caret = Some (x, y)
      ∧ upsertPresence now (get_opt currentUser "id")
          (EValue (JObj {[ "user" := currentUser;
                           "cursor" := JObj {[ "x" := x; "y" := y;
                                               "updatedAt" := JNum stampCursor ]};
                           "lastSeen" := JNum stampSeen ]})) r = Ok r1
      ∧ postMessage
          (cursorMessage currentUser
             (JObj {[ "x" := x; "y" := y; "updatedAt" := JNum stampCursor ]})) r1
        = Ok r'.
Proof.
  unfold broadcastCursor. destruct (truthy currentUser) eqn:Hu; cbn [negb orb];
    [|intros [= <-]; by left].
  destruct (isChannelReady r) eqn:Hr; cbn [negb]; [|intros [= <-]; by left].
  destruct caret as [[x y]|]; [|intros [= <-]; by left].
  destruct (upsertPresence now _ _ r) as [r1|] eqn:Hup; [|done].
  cbn [mbind result_bind]. intros Hpost. right. exists x, y, r1. by repeat split.
Qed.

Lemma broadcastCursor_inv stampCursor stampSeen now currentUser caret r r' :
  broadcastCursor stampCursor stampSeen now currentUser caret r = Ok r' →
  docState r' = docState r ∧ lastUpdateRef r' = lastUpdateRef r
  ∧ roomId r' = roomId r ∧ channelClosed r' = channelClosed r
  ∧ (∀ k, k ≠ presenceStorageKey r → localStorage r' !! k = localStorage r !! k)
  ∧ (wellformed (presence r) → wellformed (presence r')).
Proof.
  intros [-> | (x & y & r1 & _ & _ & _ & Hup & Hpost)]%broadcastCursor_Ok;
    [by repeat (split; [done|])|].
  apply upsertPresence_inv in Hup as [(Hd & Hl & _ & Hr & _ & Hcc & _ & Hs) Hwf].
  apply postMessage_inv in Hpost as (Hd' & Hl' & Hp' & Hs' & Hr' & _ & Hcc' & _).
  do 4 (split; [congruence|]). split.
  - intros k Hk. rewrite Hs'. by apply Hs.
  - rewrite Hp'. apply Hwf.
Qed.

Lemma handleInput_Ok nextText timestamp stampCursor stampSeen now currentUser caret r r' :
  handleInput nextText timestamp stampCursor stampSeen now currentUser caret r = Ok r' →
  ∃ r1,
    postMessage (docMessage {| text := nextText; updatedAt := timestamp |})
      (persistDoc nextText timestamp r) = Ok r1
    ∧ broadcastCursor stampCursor stampSeen now currentUser caret r1 = Ok r'.
Proof.
  unfold handleInput. destruct (postMessage _ _) as [r1|]; [|done].
  cbn [mbind result_bind]. intros Hb. by exists r1.
Qed.

Lemma handleInput_inv nextText timestamp stampCursor stampSeen now currentUser caret r r' :
  handleInput nextText timestamp stampCursor stampSeen now currentUser caret r = Ok r' →
  docState r' = {| text := nextText; updatedAt := timestamp |}
  ∧ lastUpdateRef r' = timestamp
  ∧ roomId r' = roomId r ∧ channelClosed r' = channelClosed r
  ∧ localStorage r' !! storageKey r
    = Some (JSON_stringify (docJson {| text := nextText; updatedAt := timestamp |}))
  ∧ (wellformed (presence r) → wellformed (presence r')).
Proof.
  intros (r1 & Hpost & Hb)%handleInput_Ok.
  apply postMessage_inv in Hpost as (Hd & Hl & Hp & Hs & Hr & _ & Hcc & _).
  apply broadcastCursor_inv in Hb as (Hd' & Hl' & Hr' & Hcc' & Hs' & Hwf).
  rewrite Hd', Hl', Hd, Hl, Hr', Hr, Hcc', Hcc.
  split; [done|]. split; [done|]. split; [done|]. split; [done|]. split.
  - rewrite Hs', Hs.
    + simpl. apply lookup_insert_eq.
    + unfold presenceStorageKey, storageKey, buildPresenceKey. rewrite Hr. simpl.
      discriminate.
  - rewrite Hp in Hwf. apply Hwf.
Qed.

(** ** Reachable replicas are coherent *)

Lemma prune_empty now : prunePresenceSnapshot now (JObj ∅) = Ok (new_object ∅).
Proof. unfold prunePresenceSnapshot. cbn [nullish own_props]. by rewrite map_fold_empty. Qed.

Lemma readPresenceSnapshot_eq window key now :
  readPresenceSnapshot window key now
  = Ok (match window ≫= (.!! key) with
        | Some (ItemJson v) =>
            match prunePresenceSnapshot now v with
            | Ok o => o
            | Throw _ => new_object ∅
            end
        | _ => new_object ∅
        end).
Proof.
  unfold readPresenceSnapshot. destruct window as [st|]; [|done].
  cbn [mbind option_bind]. cbv zeta.
  destruct (st !! key) as [[| |v]|];
    cbn [raw_falsy default from_option id JSON_parse mbind result_bind];
    rewrite ?prune_empty; try done.
  by destruct (prunePresenceSnapshot now v).
Qed.

Lemma new_object_wellformed : wellformed (new_object ∅).
Proof. split; [done|]. apply map_Forall_empty. Qed.

Lemma readPresenceSnapshot_wellformed window key now o :
  readPresenceSnapshot window key now = Ok o → wellformed o.
Proof.
  rewrite readPresenceSnapshot_eq. intros [= <-].
  destruct (window ≫= (.!! key)) as [[| |v]|]; try apply new_object_wellformed.
  destruct (prunePresenceSnapshot now v) eqn:Hp; [|apply new_object_wellformed].
  by eapply prune_Ok_wellformed.
Qed.

Lemma mount_coherent room st now now' r :
  mount room st now now' = Ok r →
  coherent r ∧ wellformed (presence r) ∧ channelClosed r = false.
Proof.
  unfold mount.
  destruct (readDocSnapshot (Some st) ("room-doc:" +:+ room) room now) as [d|];
    [|done].
  destruct (readPresenceSnapshot (Some st) (buildPresenceKey room) now') as [p|] eqn:Hp;
    [|done].
  intros [= <-]. split; [done|]. split; [|done].
  by eapply readPresenceSnapshot_wellformed.
Qed.

Lemma handleStorage_cases ev r :
  handleStorage ev r = Ok r
  ∨ ∃ v t u,
      key ev = Some (storageKey r)
      ∧ newValue ev = Some (ItemJson v)
      ∧ get_opt v "text" = JStr t
      ∧ get_opt v "updatedAt" = JNum u
      ∧ lastUpdateRef r < u
      ∧ handleStorage ev r = Ok (persistDoc t u r).
Proof.
  unfold handleStorage. case_bool_decide as Hkey; simpl; [|by left].
  destruct (newValue ev) as [[| |v]|] eqn:Hv; simpl; try by left.
  destruct v as [| |b|n|s|m]; simpl; try by left.
  destruct (default JUndefined (m !! "text")) as [| |b|n|t|m'] eqn:Ht;
    simpl; try by left.
  destruct (default JUndefined (m !! "updatedAt")) as [| |b|u|s'|m'] eqn:Hu;
    simpl; try by left.
  destruct (Z.ltb_spec (lastUpdateRef r) u); [|by left].
  right. exists (JObj m), t, u. by repeat split.
Qed.

Lemma handleStorage_coherent ev r r' :
  coherent r → handleStorage ev r = Ok r' → coherent r'.
Proof.
  intros Hco.
  destruct (handleStorage_cases ev r) as [-> | (v & t & u & _ & _ & _ & _ & _ & ->)];
    by intros [= <-].
Qed.

Lemma onmessage_cases stamp now data r :
  onmessage stamp now data r = Ok r
  ∨ (truthy data = true ∧ is_str (get_opt data "type") "presence" = true
     ∧ truthy (get_opt (get_opt data "user") "id") = true
     ∧ onmessage stamp now data r
       = upsertPresence now (get_opt (get_opt data "user") "id")
           (if is_str (get_opt data "action") "leave" then EValue JNull
            else EUpdater (λ previousEntry,
                   JObj {[ "user" := get_opt data "user";
                           "cursor" := nullish (get_opt data "cursor")
                                         (get_opt previousEntry "cursor");
                           "lastSeen" := JNum stamp ]}))
           r)
  ∨ (∃ t u, truthy data = true ∧ is_str (get_opt data "type") "presence" = false
            ∧ get_opt data "text" = JStr t ∧ get_opt data "updatedAt" = JNum u
            ∧ lastUpdateRef r < u
            ∧ onmessage stamp now data r = Ok (persistDoc t u r)).
Proof.
  unfold onmessage. destruct (truthy data) eqn:Ht; simpl; [|by left].
  rewrite get_truthy by done; simpl.
  destruct (is_str (get_opt data "type") "presence") eqn:Hty.
  - unfold handlePresenceMessage. rewrite !get_truthy by done; simpl.
    destruct (truthy (get_opt (get_opt data "user") "id")) eqn:Hid; simpl;
      [|by left].
    right; left. repeat split; try done.
    by destruct (is_str (get_opt data "action") "leave").
  - rewrite (nullish_doc_or_self _ data) by done.
    destruct (get_opt data "text") as [| |b|n|t|m'] eqn:Htext; try by left.
    destruct (get_opt data "updatedAt") as [| |b|u|s'|m'] eqn:Hu; try by left.
    destruct (Z.ltb_spec (lastUpdateRef r) u); [|by left].
    right; right. exists t, u. by repeat split.
Qed.

Lemma step_coherent now ev r r' :
  coherent r → step now ev r = Ok r' → coherent r'.
Proof.
  intros Hco. destruct ev as [|stamp data|sev|sev|nextText ts sc ss cu caret|userId eou];
    simpl.
  - intros [Hpo _]%pruneTick_inv. by eapply presence_only_coherent.
  - destruct (onmessage_cases stamp now data r)
      as [-> | [(_ & _ & _ & ->) | (t & u & _ & _ & _ & _ & _ & ->)]].
    + by intros [= <-].
    + intros [Hpo _]%upsertPresence_inv. by eapply presence_only_coherent.
    + by intros [= <-].
  - by apply handleStorage_coherent.
  - intros (Hpo & _)%handlePresenceStorage_inv. by eapply presence_only_coherent.
  - intros (Hd & Hl & _)%handleInput_inv. unfold coherent. by rewrite Hd, Hl.
  - intros [Hpo _]%upsertPresence_inv. by eapply presence_only_coherent.
Qed.

(** C1. A document candidate [{text, updatedAt}] that arrives over the
    channel or in a [storage] event replaces the local document exactly
    when its [updatedAt] is greater than the local one; otherwise the
    replica is left as it was. Either way the local [updatedAt] does not
    decrease. *)
Theorem merge_iff_newer stamp now (p : gmap string JsVal) (d : Doc) (r : Replica) :
  coherent r →
  candidate p d →
  is_str (get_opt (JObj p) "type") "presence" = false →
  ∃ r',
    onmessage stamp now (JObj p) r = Ok r'
    ∧ handleStorage {| key := Some (storageKey r);
                       newValue := Some (ItemJson (JObj p)) |} r = Ok r'
    ∧ (updatedAt (docState r) < updatedAt d → docState r' = d)
    ∧ (updatedAt d ≤ updatedAt (docState r) → r' = r)
    ∧ updatedAt (docState r) ≤ updatedAt (docState r')
    ∧ coherent r'.
Proof.
  intros Hco Hc Hty. eexists. split; [by apply onmessage_candidate|].
  split; [by apply handleStorage_candidate|].
  rewrite Hco. destruct (Z.ltb_spec (updatedAt (docState r)) (updatedAt d)).
  - rewrite persistDoc_docState. destruct d; simpl in *.
    repeat split; (done || lia).
  - repeat split; (done || lia).
Qed.

(** C3. For two documents with different [updatedAt], a replica holding
    one and receiving the other ends with the same document whichever of
    the two it held: the one whose [updatedAt] is greater. This holds for
    delivery over the channel and for delivery by a [storage] event. *)
Theorem lww_commutes stamp now stamp' now' (a b : Replica) :
  coherent a → coherent b →
  updatedAt (docState a) ≠ updatedAt (docState b) →
  let winner := if updatedAt (docState a) <? updatedAt (docState b)
                then docState b else docState a in
  ∃ a' b' a'' b'',
    onmessage stamp now (docMessage (docState b)) a = Ok a'
    ∧ onmessage stamp' now' (docMessage (docState a)) b = Ok b'
    ∧ handleStorage {| key := Some (storageKey a);
                       newValue := Some (JSON_stringify (docJson (docState b))) |} a
      = Ok a''
    ∧ handleStorage {| key := Some (storageKey b);
                       newValue := Some (JSON_stringify (docJson (docState a))) |} b
      = Ok b''
    ∧ docState a' = winner ∧ docState b' = winner
    ∧ docState a'' = winner ∧ docState b'' = winner.
Proof.
  intros Ha Hb Hne winner.
  assert (Hmsg : ∀ d, candidate
            {[ "type" := JStr "doc"; "text" := JStr (text d);
               "updatedAt" := JNum (updatedAt d) ]} d)
    by (intros d; split; by simplify_map_eq).
  do 4 eexists.
  split; [by apply (onmessage_candidate _ _ _ (docState b))|].
  split; [by apply (onmessage_candidate _ _ _ (docState a))|].
  split.
  { unfold JSON_stringify. rewrite json_norm_docJson.
    apply (handleStorage_candidate _ (docState b)), candidate_docJson. }
  split.
  { unfold JSON_stringify. rewrite json_norm_docJson.
    apply (handleStorage_candidate _ (docState a)), candidate_docJson. }
  rewrite Ha, Hb. subst winner.
  destruct (Z.ltb_spec (updatedAt (docState a)) (updatedAt (docState b))),
           (Z.ltb_spec (updatedAt (docState b)) (updatedAt (docState a)));
    try lia; rewrite ?persistDoc_docState; by destruct (docState a), (docState b).
Qed.

(** C4 (as amended). [readDocSnapshot] never throws. When the durable
    record is absent, empty, unparseable or parses to [null], it returns
    the default document of the room stamped with the current time.
    Otherwise it degrades field by field: the stored [text] when that is a
    string and the empty string when not, the stored [updatedAt] when that
    is a number and the current time when not; so a record with both
    fields well typed is returned as stored. *)
Theorem readDocSnapshot_degrades window key room now :
  readDocSnapshot window key room now
  = Ok (match stored_value window key with
        | None => defaultDoc room now
        | Some v =>
            {| text := match get_opt v "text" with JStr s => s | _ => "" end;
               updatedAt := match get_opt v "updatedAt" with
                            | JNum n => n
                            | _ => now
                            end |}
        end).
Proof.
  unfold readDocSnapshot, stored_value.
  destruct window as [st|]; simpl; [|done].
  destruct (st !! key) as [[| |v]|]; simpl; try done.
  by destruct v.
Qed.

(** C5 (as amended). A channel message is dropped, with the replica left
    as it was and nothing thrown, when it is falsy, when it is a presence
    message that names no user id, or when it is any other message that
    lacks a string [text] or a number [updatedAt]. A message whose [type]
    is missing or unknown but which carries a string [text] and a number
    [updatedAt] is not dropped: it is merged like a ['doc'] message. *)
Theorem onmessage_drops_malformed stamp now data r :
  (malformed data = true → onmessage stamp now data r = Ok r)
  ∧ (∀ p d, data = JObj p → candidate p d →
       is_str (get_opt data "type") "presence" = false →
       onmessage stamp now data r
       = Ok (if lastUpdateRef r <? updatedAt d
             then persistDoc (text d) (updatedAt d) r else r)).
Proof.
  split.
  - unfold malformed, onmessage.
    destruct (truthy data) eqn:Ht; simpl; [|done].
    rewrite get_truthy by done; simpl.
    destruct (is_str (get_opt data "type") "presence").
    + intros Hid. unfold handlePresenceMessage.
      rewrite !get_truthy by done; simpl. by rewrite Hid.
    + rewrite (nullish_doc_or_self _ data) by done. unfold doc_fields_ok.
      by destruct (get_opt data "text"), (get_opt data "updatedAt").
  - intros p d -> Hc Hty. by apply onmessage_candidate.
Qed.

(** ** The channel is an optimisation *)

(** C6. Where [BroadcastChannel] cannot be constructed, opening the
    channel returns normally with the channel marked not ready, and
    documents still travel through the durable store: an edit made on
    replica [x], whoever the user and wherever the caret, posts nothing
    but writes the document record, and the [storage] event for that write
    makes replica [y] of the same room adopt the edit exactly when it is
    newer than what [y] holds. *)
Theorem storage_path_suffices (x y : Replica) nextText now
    stampCursor stampSeen now' currentUser caret :
  channelRef x = None →
  roomId x = roomId y →
  coherent y →
  ∃ x0 y0 x1 y',
    openChannel false x = Ok x0 ∧ openChannel false y = Ok y0
    ∧ isChannelReady x0 = false ∧ isChannelReady y0 = false
    ∧ handleInput nextText now stampCursor stampSeen now' currentUser caret x0 = Ok x1
    ∧ outbox x1 = outbox x
    ∧ handleStorage {| key := Some (storageKey x1);
                       newValue := localStorage x1 !! storageKey x1 |} y0
      = Ok y'
    ∧ docState y' = (if updatedAt (docState y) <? now
                     then {| text := nextText; updatedAt := now |}
                     else docState y).
Proof.
  intros Hch Hroom Hco.
  set (x0 := set_channel false (channelRef x) (channelClosed x) x).
  set (y0 := set_channel false (channelRef y) (channelClosed y) y).
  assert (Hin : handleInput nextText now stampCursor stampSeen now' currentUser caret x0
                = Ok (persistDoc nextText now x0)).
  { unfold handleInput, postMessage. cbn [channelRef persistDoc set_doc x0 set_channel].
    rewrite Hch. cbn [mbind result_bind]. unfold broadcastCursor.
    cbn [isChannelReady]. by rewrite orb_true_r. }
  exists x0, y0, (persistDoc nextText now x0). eexists.
  split; [done|]. split; [done|]. split; [done|]. split; [done|].
  split; [exact Hin|]. split; [done|].
  assert (Hkey : storageKey (persistDoc nextText now x0) = storageKey y0)
    by (unfold storageKey; simpl; by rewrite Hroom).
  assert (Hval : localStorage (persistDoc nextText now x0)
                 !! storageKey (persistDoc nextText now x0)
                 = Some (ItemJson (docJson {| text := nextText; updatedAt := now |}))).
  { unfold persistDoc; simpl. by rewrite lookup_insert_eq. }
  rewrite Hval, Hkey. split.
  - apply (handleStorage_candidate _ {| text := nextText; updatedAt := now |}).
    apply candidate_docJson.
  - simpl. rewrite Hco. by destruct (_ <? _).
Qed.

(** ** The presence registry *)

Lemma obj_get_ordinary o k :
  proto o = ObjectPrototype → obj_get o k = default JUndefined (props o !! k).
Proof. intros Hp. unfold obj_get. rewrite Hp. by destruct (props o !! k). Qed.

Lemma upsertNext_props key entryOrUpdater prev :
  props (upsertNext key entryOrUpdater prev)
  = let previousEntry := obj_get prev key in
    let source := resolve entryOrUpdater previousEntry in
    if truthy source then
      if bool_decide (key = "__proto__") && bool_decide (props prev !! key = None)
      then props prev
      else <[key := JObj (own_props source ∪ own_props previousEntry)]> (props prev)
    else delete key (props prev).
Proof.
  assert (Hset : ∀ v,
            props (obj_set key (JObj v) (new_object (props prev)))
            = if bool_decide (key = "__proto__") && bool_decide (props prev !! key = None)
              then props prev else <[key := JObj v]> (props prev)).
  { intros v. unfold obj_set. cbn [new_object props proto reaches_proto_accessor].
    rewrite andb_true_r. by destruct (_ && _). }
  unfold upsertNext. cbn zeta. destruct entryOrUpdater as [v|f]; cbn [resolve].
  - destruct v as [| |[]|n|s|m]; cbn [truthy negb]; try done; try apply Hset.
    + destruct (n =? 0); [done|]. apply Hset.
    + destruct (String.eqb s ""); [done|]. apply Hset.
  - destruct (truthy (f _)); [|done]. apply Hset.
Qed.

Lemma upsertNext_props_ordinary key entryOrUpdater prev :
  key ≠ "__proto__" →
  props (upsertNext key entryOrUpdater prev)
  = let previousEntry := obj_get prev key in
    let source := resolve entryOrUpdater previousEntry in
    if truthy source
    then <[key := JObj (own_props source ∪ own_props previousEntry)]> (props prev)
    else delete key (props prev).
Proof.
  intros Hne. rewrite upsertNext_props. cbn zeta.
  by rewrite (bool_decide_eq_false_2 (key = "__proto__")).
Qed.

Lemma upsertNext_other key entryOrUpdater prev k :
  k ≠ key → props (upsertNext key entryOrUpdater prev) !! k = props prev !! k.
Proof.
  intros Hne. rewrite upsertNext_props; cbn zeta. destruct (truthy _).
  - destruct (_ && _); [done|]. by rewrite lookup_insert_ne.
  - by rewrite lookup_delete_ne.
Qed.

Lemma upsertNext_prunable key entryOrUpdater prev :
  prunable (props prev) →
  (let previousEntry := obj_get prev key in
   let source := resolve entryOrUpdater previousEntry in
   truthy source = true →
   convertible (get_opt (JObj (own_props source ∪ own_props previousEntry)) "lastSeen")
   = true) →
  prunable (props (upsertNext key entryOrUpdater prev)).
Proof.
  intros Hp Hsrc. rewrite upsertNext_props; cbn zeta.
  destruct (truthy _) eqn:Ht.
  - destruct (_ && _); [done|]. apply map_Forall_insert_2; [|done]. by apply Hsrc.
  - by apply map_Forall_delete.
Qed.

Lemma json_norm_obj (m : gmap string JsVal) :
  json_norm (JObj m)
  = JObj (omap (λ x, match x with
                     | JUndefined => None
                     | _ => Some (json_norm x)
                     end) m).
Proof. done. Qed.

Lemma get_opt_json_norm e f :
  get_opt (json_norm e) f = json_norm (get_opt e f).
Proof.
  destruct e as [| |b|n|s|m]; try done.
  rewrite json_norm_obj. unfold get_opt. rewrite lookup_omap.
  destruct (m !! f) as [v|]; simpl; [|done]. by destruct v.
Qed.

Lemma stale_json_norm now e : stale now (json_norm e) = stale now e.
Proof.
  unfold stale. rewrite get_opt_json_norm.
  by destruct (get_opt e "lastSeen").
Qed.

(** The entries read back from a persisted snapshot are those of the
    snapshot, as [JSON] returns them. *)
Lemma persisted_lookup (snapshot : Obj) st key snap k e :
  default st (persistPresenceSnapshot (Some st) key snapshot) !! key
  = Some (ItemJson (JObj snap)) →
  snap !! k = Some e →
  ∃ e0, props snapshot !! k = Some e0 ∧ e = json_norm e0.
Proof.
  unfold persistPresenceSnapshot. cbn [from_option id]. rewrite lookup_insert_eq.
  unfold JSON_stringify. rewrite json_norm_obj. intros [= <-].
  rewrite lookup_omap. destruct (props snapshot !! k) as [e0|]; simpl; [|done].
  destruct e0; try done; intros [= <-]; by eexists.
Qed.

(** C7 (as amended). An upsert for a truthy user id whose property key is
    not the name of a member of [Object.prototype] (["__proto__"],
    ["constructor"] and the like), on a registry object with the ordinary
    prototype and where the pruning test evaluates on every entry of the
    updated snapshot, removes that user's entry when the resolved value is falsy
    ([null] or absent) and otherwise replaces it by the shallow merge of
    the resolved value over the existing entry (a field of the update
    overwrites, a field it lacks persists). The registry's state after the
    mutation is the pruned snapshot and the durable presence record is
    its serialisation, so no entry whose [lastSeen] is a number other
    than [0] and older than 45000 ms is exposed or persisted right after
    a mutation. *)
Theorem upsert_merges_prunes_persists now userId entryOrUpdater r key :
  truthy userId = true →
  ToPropertyKey userId = Ok key →
  key ∉ Object_prototype_members →
  proto (presence r) = ObjectPrototype →
  let previousEntry := default JUndefined (props (presence r) !! key) in
  let source := resolve entryOrUpdater previousEntry in
  let merged := own_props source ∪ own_props previousEntry in
  let next := if truthy source then <[key := JObj merged]> (props (presence r))
              else delete key (props (presence r)) in
  prunable next →
  ∃ r',
    upsertPresence now userId entryOrUpdater r = Ok r'
    ∧ (truthy source = false → props (presence r') !! key = None)
    ∧ (∀ f, merged !! f = match own_props source !! f with
                           | Some v => Some v
                           | None => own_props previousEntry !! f
                           end)
    ∧ prunePresenceSnapshot now (JObj next) = Ok (presence r')
    ∧ localStorage r' !! presenceStorageKey r'
      = Some (JSON_stringify (JObj (props (presence r'))))
    ∧ (∀ k e, props (presence r') !! k = Some e → stale now e = false)
    ∧ (∀ snap k e,
         localStorage r' !! presenceStorageKey r' = Some (ItemJson (JObj snap)) →
         snap !! k = Some e → stale now e = false).
Proof.
  intros Ht Hkey Hmember Hproto previousEntry source merged next Hp.
  assert (Hne : key ≠ "__proto__").
  { intros ->. apply Hmember. unfold Object_prototype_members. set_solver. }
  assert (Hnext : props (upsertNext key entryOrUpdater (presence r)) = next).
  { rewrite upsertNext_props_ordinary by done. cbn zeta.
    by rewrite obj_get_ordinary. }
  assert (Hfresh : ∀ k e, props (pruned now next) !! k = Some e → stale now e = false).
  { intros k e (_ & _ & Hf)%pruned_lookup_Some. by apply passes_not_stale. }
  eexists. split.
  { apply (upsertPresence_truthy _ _ _ _ key); [done|done|]. by rewrite Hnext. }
  cbn zeta. rewrite Hnext. cbn [presence set_presence].
  split.
  { intros Hs. rewrite pruned_lookup. case_bool_decide; [done|]. subst next.
    rewrite Hs. by rewrite lookup_delete_eq. }
  split.
  { intros f. subst merged. rewrite lookup_union.
    destruct (own_props source !! f), (own_props previousEntry !! f); done. }
  split; [by apply prune_closed|].
  split.
  { unfold presenceStorageKey; simpl. by rewrite lookup_insert_eq. }
  split; [apply Hfresh|].
  intros snap k e Hst Hk.
  destruct (persisted_lookup (pruned now next) (localStorage r) (presenceStorageKey r)
              snap k e) as (e0 & He0 & ->); [exact Hst|exact Hk|].
  rewrite stale_json_norm. by eapply Hfresh.
Qed.

Lemma onmessage_presence stamp now payload r :
  truthy payload = true →
  is_str (get_opt payload "type") "presence" = true →
  onmessage stamp now payload r = handlePresenceMessage stamp now payload r.
Proof.
  intros Ht Hty. unfold onmessage. rewrite Ht; simpl.
  rewrite get_truthy by done; simpl. by rewrite Hty.
Qed.

Lemma handlePresenceMessage_leave stamp now payload r :
  truthy payload = true →
  truthy (get_opt (get_opt payload "user") "id") = true →
  is_str (get_opt payload "action") "leave" = true →
  handlePresenceMessage stamp now payload r
  = upsertPresence now (get_opt (get_opt payload "user") "id") (EValue JNull) r.
Proof.
  intros Ht Hid Hact. unfold handlePresenceMessage.
  rewrite !get_truthy by done; simpl. by rewrite Hid, Hact.
Qed.

Lemma upsertNext_null key prev :
  props (upsertNext key (EValue JNull) prev) = delete key (props prev).
Proof. done. Qed.

(** C8. A presence message with action ['leave'] for a user (a message
    whose [user.id] is truthy, as every user id is, and converts to the
    key [U] of the user's entry) removes that user's entry from the
    registry and from the persisted snapshot at once, whatever the
    entry's [lastSeen] and whatever the time: no timer tick is involved.
    The other entries are ones the pruning test evaluates on, as all
    entries of a registry the component built are. *)
Theorem leave_removes_at_once stamp now (p user : gmap string JsVal) (uid : JsVal)
    (U : string) r :
  truthy uid = true →
  ToPropertyKey uid = Ok U →
  p !! "type" = Some (JStr "presence") →
  p !! "action" = Some (JStr "leave") →
  p !! "user" = Some (JObj user) →
  user !! "id" = Some uid →
  prunable (delete U (props (presence r))) →
  ∃ r' snap,
    onmessage stamp now (JObj p) r = Ok r'
    ∧ props (presence r') !! U = None
    ∧ localStorage r' !! presenceStorageKey r = Some (ItemJson (JObj snap))
    ∧ snap !! U = None.
Proof.
  intros HtU HU Hty Hact Huser Hid Hp.
  set (left := pruned now (delete U (props (presence r)))).
  exists (set_presence left
            (persistPresenceSnapshot (Some (localStorage r)) (presenceStorageKey r) left) r).
  eexists.
  assert (Hleft : props left !! U = None).
  { subst left. rewrite pruned_lookup, lookup_delete_eq. by destruct (bool_decide _). }
  split; [|split; [done|split]].
  - rewrite onmessage_presence by (by simpl; rewrite ?Hty).
    rewrite handlePresenceMessage_leave.
    + simpl. rewrite Huser; simpl. rewrite Hid; simpl.
      by rewrite (upsertPresence_truthy _ _ _ _ U).
    + done.
    + simpl. rewrite Huser; simpl. by rewrite Hid.
    + simpl. by rewrite Hact.
  - unfold set_presence, persistPresenceSnapshot.
    cbn [localStorage from_option id]. rewrite lookup_insert_eq.
    unfold JSON_stringify. by rewrite json_norm_obj.
  - by rewrite lookup_omap, Hleft.
Qed.

(** ** Handlers that return *)

Lemma upsertPresence_total now userId entryOrUpdater r :
  prunable (props (presence r)) →
  convertible userId = true →
  (∀ previousEntry,
     let source := resolve entryOrUpdater previousEntry in
     truthy source = true →
     ∃ lastSeen, own_props source !! "lastSeen" = Some lastSeen
                 ∧ convertible lastSeen = true) →
  ∃ r', upsertPresence now userId entryOrUpdater r = Ok r'.
Proof.
  intros Hp Hid Hsrc. destruct (truthy userId) eqn:Ht.
  - destruct (ToPropertyKey_convertible userId Hid) as (key & Hkey).
    eexists. apply (upsertPresence_truthy _ _ _ _ key); [done|done|].
    apply upsertNext_prunable; [done|]. cbn zeta. intros Hs.
    destruct (Hsrc _ Hs) as (lastSeen & Hls & Hc).
    unfold get_opt. by rewrite (lookup_union_Some_l _ _ _ _ Hls).
  - eexists. by apply upsertPresence_falsy.
Qed.

Lemma onmessage_total stamp now data r :
  prunable (props (presence r)) →
  convertible (get_opt (get_opt data "user") "id") = true →
  ∃ r', onmessage stamp now data r = Ok r'.
Proof.
  intros Hp Hid.
  destruct (onmessage_cases stamp now data r)
    as [-> | [(_ & _ & _ & ->) | (t & u & _ & _ & _ & _ & _ & ->)]];
    try by eexists.
  apply upsertPresence_total; [done|done|].
  intros previousEntry. destruct (is_str _ "leave"); cbn [resolve]; [done|].
  intros _. exists (JNum stamp). split; [|done]. cbn [own_props].
  by rewrite !lookup_insert_ne, lookup_singleton_eq.
Qed.

Lemma pruneTick_total now r :
  prunable (props (presence r)) → ∃ r', pruneTick now r = Ok r'.
Proof.
  intros Hp. unfold pruneTick. rewrite prune_closed by done.
  cbn [mbind result_bind]. destruct (bool_decide _); by eexists.
Qed.

Lemma handleStorage_total ev r : ∃ r', handleStorage ev r = Ok r'.
Proof.
  destruct (handleStorage_cases ev r) as [-> | (v & t & u & _ & _ & _ & _ & _ & ->)];
    by eexists.
Qed.

Lemma broadcastCursor_total stampCursor stampSeen now currentUser caret r :
  prunable (props (presence r)) →
  channelClosed r = false →
  convertible (get_opt currentUser "id") = true →
  ∃ r', broadcastCursor stampCursor stampSeen now currentUser caret r = Ok r'.
Proof.
  intros Hp Hopen Hid. unfold broadcastCursor.
  destruct (negb _ || negb _); [by eexists|].
  destruct caret as [[x y]|]; [|by eexists].
  destruct (upsertPresence_total now (get_opt currentUser "id")
              (EValue (JObj {[ "user" := currentUser;
                               "cursor" := JObj {[ "x" := x; "y" := y;
                                                   "updatedAt" := JNum stampCursor ]};
                               "lastSeen" := JNum stampSeen ]})) r)
    as (r1 & Hup); [done|done| |].
  { intros previousEntry. cbn zeta. intros _. exists (JNum stampSeen).
    split; [|done].
    cbn [resolve own_props]. by rewrite !lookup_insert_ne, lookup_singleton_eq. }
  rewrite Hup. cbn [mbind result_bind]. apply postMessage_open.
  apply upsertPresence_inv in Hup as [(_ & _ & _ & _ & _ & Hcc & _) _]. congruence.
Qed.

Lemma handleInput_total nextText timestamp stampCursor stampSeen now currentUser caret r :
  prunable (props (presence r)) →
  channelClosed r = false →
  convertible (get_opt currentUser "id") = true →
  ∃ r', handleInput nextText timestamp stampCursor stampSeen now currentUser caret r
        = Ok r'.
Proof.
  intros Hp Hopen Hid. unfold handleInput.
  destruct (postMessage_open
              (docMessage {| text := nextText; updatedAt := timestamp |})
              (persistDoc nextText timestamp r) Hopen) as (r1 & Hpost).
  rewrite Hpost. cbn [mbind result_bind].
  apply postMessage_inv in Hpost as (_ & _ & Hpr & _ & _ & _ & Hcc & _).
  apply broadcastCursor_total; [by rewrite Hpr|by rewrite Hcc|done].
Qed.

Lemma step_total now ev r :
  prunable (props (presence r)) → channelClosed r = false → well_typed ev →
  ∃ r', step now ev r = Ok r'.
Proof.
  intros Hp Hopen Hev.
  destruct ev as [|stamp data|sev|sev|nextText ts sc ss cu caret|userId eou]; simpl.
  - by apply pruneTick_total.
  - by apply onmessage_total.
  - apply handleStorage_total.
  - apply handlePresenceStorage_total.
  - by apply handleInput_total.
  - destruct Hev as (Hid & Hsrc & _). by apply upsertPresence_total.
Qed.

Lemma step_inv now ev r r' :
  step now ev r = Ok r' →
  (wellformed (presence r) → wellformed (presence r'))
  ∧ channelClosed r' = channelClosed r.
Proof.
  destruct ev as [|stamp data|sev|sev|nextText ts sc ss cu caret|userId eou]; simpl.
  - intros [(_ & _ & _ & _ & _ & ? & _) ?]%pruneTick_inv. by split.
  - destruct (onmessage_cases stamp now data r)
      as [-> | [(_ & _ & _ & ->) | (t & u & _ & _ & _ & _ & _ & ->)]].
    + by intros [= <-].
    + intros [(_ & _ & _ & _ & _ & ? & _) ?]%upsertPresence_inv. by split.
    + by intros [= <-].
  - destruct (handleStorage_cases sev r)
      as [-> | (v & t & u & _ & _ & _ & _ & _ & ->)]; by intros [= <-].
  - intros ((_ & _ & _ & _ & _ & ? & _) & _ & ?)%handlePresenceStorage_inv. by split.
  - intros (_ & _ & _ & ? & _ & ?)%handleInput_inv. by split.
  - intros [(_ & _ & _ & _ & _ & ? & _) ?]%upsertPresence_inv. by split.
Qed.

Lemma run_total trace : ∀ r,
  wellformed (presence r) → channelClosed r = false →
  Forall (λ te, well_typed te.2) trace →
  ∃ r', run trace r = Ok r'.
Proof.
  induction trace as [|[now ev] trace IH]; intros r Hwf Hopen Hty.
  - by exists r.
  - apply Forall_cons in Hty as [Hev Hty]. simpl in Hev.
    destruct (step_total now ev r) as (r1 & Hstep); [apply Hwf|done|done|].
    apply step_inv in Hstep as Hinv. destruct Hinv as [Hwf1 Hcc].
    destruct (IH r1) as (r' & Hrun); [by apply Hwf1|congruence|done|].
    exists r'. simpl. by rewrite Hstep.
Qed.

(** ** Expiry along a run *)

Lemma upsertPresence_other now userId entryOrUpdater r r' U :
  U ≠ "__proto__" →
  ToPropertyKey userId ≠ Ok U →
  upsertPresence now userId entryOrUpdater r = Ok r' →
  props (presence r') !! U = props (presence r) !! U
  ∨ props (presence r') !! U
    = e ← props (presence r) !! U; if passes now e then Some e else None.
Proof.
  intros HU Hne [[_ ->] | (key & _ & Hkey & _ & ->)]%upsertPresence_Ok; [by left|].
  right. cbn zeta. cbn [presence set_presence].
  rewrite pruned_lookup, bool_decide_eq_false_2 by done.
  rewrite upsertNext_other; [done|]. intros ->. by apply Hne.
Qed.

(** What an event that does not concern [U] does to [U]'s entry: nothing,
    or the pruning test at the time of the event. *)
Lemma step_quiet now ev r r' U :
  U ≠ "__proto__" →
  ¬ concerns U ev →
  step now ev r = Ok r' →
  props (presence r') !! U = props (presence r) !! U
  ∨ props (presence r') !! U
    = e ← props (presence r) !! U; if passes now e then Some e else None.
Proof.
  intros HU Hq.
  destruct ev as [|stamp data|sev|sev|nextText ts sc ss cu caret|userId eou]; simpl.
  - intros [_ [[-> _] | [-> _]]]%pruneTick_Ok; [by left|]. right.
    cbn zeta. cbn [presence set_presence].
    by rewrite pruned_lookup, bool_decide_eq_false_2.
  - destruct (onmessage_cases stamp now data r)
      as [-> | [(_ & Hty & _ & ->) | (t & u & _ & _ & _ & _ & _ & ->)]].
    + intros [= <-]. by left.
    + apply upsertPresence_other; [done|]. intros Hkey. by apply Hq.
    + intros [= <-]. by left.
  - destruct (handleStorage_cases sev r)
      as [-> | (v & t & u & _ & _ & _ & _ & _ & ->)]; intros [= <-]; by left.
  - by destruct Hq.
  - intros (r1 & Hpost & Hb)%handleInput_Ok.
    apply postMessage_inv in Hpost as (_ & _ & Hpr & _).
    simpl in Hpr. rewrite <- Hpr.
    apply broadcastCursor_Ok in Hb as [-> | (x & y & r2 & _ & _ & _ & Hup & Hpost2)];
      [by left|].
    apply postMessage_inv in Hpost2 as (_ & _ & -> & _).
    eapply upsertPresence_other; [done| |exact Hup]. exact Hq.
  - apply upsertPresence_other; [done|]. exact Hq.
Qed.

(** A tick at which [U]'s entry fails the pruning test removes it. *)
Lemma tick_removes now r r' U e :
  props (presence r) !! U = Some e → passes now e = false →
  pruneTick now r = Ok r' →
  props (presence r') !! U = None.
Proof.
  intros HU Hf [_ Hcases]%pruneTick_Ok.
  assert (Hp : props (pruned now (props (presence r))) !! U = None).
  { rewrite pruned_lookup, HU; simpl. rewrite Hf. by destruct (bool_decide _). }
  destruct Hcases as [[-> Heq] | [-> _]]; [|done].
  rewrite Heq in Hp. congruence.
Qed.

Lemma presenceList_elem r k e :
  props (presence r) !! k = Some e →
  truthy (get_opt (get_opt e "user") "id") = true →
  e ∈ presenceList r.
Proof.
  intros Hk Hid. unfold presenceList.
  apply list_elem_of_filter. split; [done|].
  apply list_elem_of_fmap. exists (k, e). split; [done|].
  by apply elem_of_map_to_list.
Qed.

Lemma presenceList_from r e :
  e ∈ presenceList r → ∃ k, props (presence r) !! k = Some e.
Proof.
  unfold presenceList. intros [_ Hin]%list_elem_of_filter.
  apply list_elem_of_fmap in Hin as ([k e'] & -> & Hin).
  exists k. by apply elem_of_map_to_list.
Qed.

Section Expiry.
Variables (U : string) (e : JsVal) (T : Z).
Hypothesis not_proto : U ≠ "__proto__".
Hypothesis lastSeen_T : get_opt e "lastSeen" = JNum T.
Hypothesis T_nonzero : T ≠ 0.

(** Along a run of events that do not concern [U], the entry stays while
    every event is handled no later than [T + 45000], is gone once a tick
    is handled later than that, and never comes back. *)
Lemma run_quiet trace : ∀ r r',
  Forall (λ te, ¬ concerns U te.2) trace →
  run trace r = Ok r' →
  (props (presence r) !! U = None → props (presence r') !! U = None)
  ∧ (props (presence r) !! U = Some e →
     (props (presence r') !! U = Some e ∨ props (presence r') !! U = None)
     ∧ (Forall (λ te, te.1 ≤ T + 45000) trace → props (presence r') !! U = Some e)
     ∧ (Exists (λ te, te.2 = Tick ∧ T + 45000 < te.1) trace →
        props (presence r') !! U = None)).
Proof.
  induction trace as [|[now ev] trace IH]; intros r r' Hq.
  - intros [= <-]. split; [done|]. intros HU.
    split; [by left|]. split; [done|]. by intros ?%Exists_nil.
  - apply Forall_cons in Hq as [Hq Hqs]. simpl in Hq. simpl.
    destruct (step now ev r) as [r1|] eqn:Hstep; [|done]. cbn [mbind result_bind].
    intros Hrun. destruct (IH r1 r' Hqs Hrun) as (Hnone & Hsome).
    pose proof (step_quiet now ev r r1 U not_proto Hq Hstep) as Hr1.
    split.
    { intros HU. apply Hnone. destruct Hr1 as [-> | ->]; by rewrite HU. }
    intros HU. rewrite HU in Hr1; simpl in Hr1.
    rewrite (passes_numeric now e T) in Hr1 by done.
    split; [|split].
    + destruct Hr1 as [Hr1 | Hr1]; [by apply Hsome|].
      destruct (now - T <=? 45000); [by apply Hsome|]. right. by apply Hnone.
    + intros [Hle Hles]%Forall_cons. simpl in Hle.
      assert (props (presence r1) !! U = Some e) as HU1.
      { destruct Hr1 as [Hr1 | Hr1]; [done|].
        destruct (Z.leb_spec (now - T) 45000); [done|lia]. }
      by apply Hsome.
    + intros [[Htick Hlate] | Hlater]%Exists_cons; simpl in *.
      * subst ev. simpl in Hstep.
        apply Hnone. apply (tick_removes now r r1 U e HU); [|done].
        rewrite (passes_numeric now e T) by done.
        destruct (Z.leb_spec (now - T) 45000); [lia|done].
      * destruct Hr1 as [Hr1 | Hr1].
        -- by apply Hsome.
        -- destruct (now - T <=? 45000); [by apply Hsome|by apply Hnone].
Qed.

End Expiry.

(** The interval timer started at [M] has a tick in every window of
    45000 ms that opens after its first period. *)
Lemma timer_tick_in_window M T :
  M ≤ T + 45000 →
  ∃ k, 1 ≤ k ∧ T + 45000 < M + k * 45000 ≤ T + 90000.
Proof.
  intros HM. exists ((T + 45000 - M) `div` 45000 + 1).
  pose proof (Z.div_mod (T + 45000 - M) 45000 ltac:(lia)) as Hdm.
  pose proof (Z.mod_pos_bound (T + 45000 - M) 45000 ltac:(lia)) as Hmod.
  pose proof (Z.div_pos (T + 45000 - M) 45000 ltac:(lia) ltac:(lia)) as Hpos.
  lia.
Qed.

(** C9 (as amended). In a registry the component built, an entry of user
    [U] with [lastSeen = T] ([T] not [0]) that no presence event refreshes
    or removes stays in the registry's state, and in the list handed to
    the view when it names a user id, as long as every event is handled
    no later than [T + 45000]. It is absent once the pruning timer has
    ticked later than [T + 45000]; with the timer started at
    [M ≤ T + 45000] and ticking every 45000 ms that is the case at every
    query time from [T + 90000] on. The run itself completes when its
    events are well typed and the channel was not closed. *)
Theorem entry_expires_at_next_tick (U : string) (e : JsVal) (T : Z)
    (trace : list (Z * Event)) (r : Replica) :
  wellformed (presence r) →
  props (presence r) !! U = Some e →
  get_opt e "lastSeen" = JNum T →
  T ≠ 0 →
  Forall (λ te, ¬ concerns U te.2) trace →
  (∀ r', run trace r = Ok r' →
     (Forall (λ te, te.1 ≤ T + 45000) trace →
      props (presence r') !! U = Some e
      ∧ (truthy (get_opt (get_opt e "user") "id") = true → e ∈ presenceList r'))
     ∧ (Exists (λ te, te.2 = Tick ∧ T + 45000 < te.1) trace →
        props (presence r') !! U = None)
     ∧ (∀ M q, M ≤ T + 45000 → T + 90000 ≤ q →
          (∀ k, 1 ≤ k → M + k * 45000 ≤ q → (M + k * 45000, Tick) ∈ trace) →
          props (presence r') !! U = None))
  ∧ (channelClosed r = false → Forall (λ te, well_typed te.2) trace →
     ∃ r', run trace r = Ok r').
Proof.
  intros Hwf HU HT Hne Hq.
  assert (Hproto : U ≠ "__proto__").
  { intros ->. destruct Hwf as [Hnone _]. congruence. }
  split; [|intros Hopen Hty; by apply run_total].
  intros r' Hrun.
  destruct (run_quiet U e T Hproto HT Hne trace r r' Hq Hrun) as (_ & Hsome).
  destruct (Hsome HU) as (_ & Hearly & Hlate).
  split; [|split; [done|]].
  - intros Hle. split; [by apply Hearly|].
    intros Hid. eapply presenceList_elem; [by apply Hearly|done].
  - intros M q HM Hquery Hticks. apply Hlate.
    destruct (timer_tick_in_window M T HM) as (k & Hk & Hlo & Hhi).
    apply Exists_exists. exists (M + k * 45000, Tick).
    split; [apply Hticks; lia|]. simpl. split; [done|lia].
Qed.

End Properties.

(** * The properties at sample inputs *)

(** ** Pruning *)

(** C2 fails as stated: at time 50000 an entry with [lastSeen = 0]
    satisfies [now - lastSeen > 45000], and [prunePresenceSnapshot] keeps
    it, where removing exactly the entries with [now - lastSeen > 45000]
    would leave nothing. *)
Lemma prune_keeps_epoch_entry :
  (∀ rt : JsRuntime,
     prunePresenceSnapshot 50000 (JObj {[ "u1" := entry_at "u1" 0 ]})
     = Ok (new_object {[ "u1" := entry_at "u1" 0 ]}))
  ∧ filter (λ kv, expired_by_spec 50000 kv.2 = false)
           ({[ "u1" := entry_at "u1" 0 ]} : gmap string JsVal)
    = ∅.
Proof. split; [intros rt|]; vm_compute; reflexivity. Qed.

Lemma prune_removes_exactly_stale_witness :
  (∀ k e,
     ({[ "u1" := entry_at "u1" 1000; "u2" := entry_at "u2" 60000;
         "u3" := entry_unstamped "u3" ]} : gmap string JsVal) !! k = Some e →
     timestamped e)
  ∧ ∀ rt : JsRuntime,
      prunePresenceSnapshot 70000
        (JObj {[ "u1" := entry_at "u1" 1000; "u2" := entry_at "u2" 60000;
                 "u3" := entry_unstamped "u3" ]})
      = Ok (new_object
              {[ "u2" := entry_at "u2" 60000; "u3" := entry_unstamped "u3" ]}).
Proof.
  assert (Hts : ∀ k e,
     ({[ "u1" := entry_at "u1" 1000; "u2" := entry_at "u2" 60000;
         "u3" := entry_unstamped "u3" ]} : gmap string JsVal) !! k = Some e →
     timestamped e).
  { apply map_Forall_insert_2; [exact I|].
    apply map_Forall_insert_2; [exact I|].
    apply map_Forall_singleton. exact I. }
  split; [exact Hts|]. intros rt.
  rewrite (prune_removes_exactly_stale 70000 _ Hts eq_refl).
  vm_compute. reflexivity.
Defined.

(** C10 at its failing input: the snapshot that [JSON.parse] returns for
    the record [{"__proto__": {"user": {"id": "__proto__"}, "lastSeen": 0}}]
    holds one entry, whose [lastSeen] is falsy, and pruning returns an
    object without entries, with that entry as prototype. *)
Lemma prune_loses_proto_entry_witness :
  truthy (get_opt (entry_at "__proto__" 0) "lastSeen") = false
  ∧ ∀ rt : JsRuntime,
      prunePresenceSnapshot 1000 (JObj {[ "__proto__" := entry_at "__proto__" 0 ]})
      = Ok {| props := ∅; proto := prototype_of (entry_at "__proto__" 0) |}
      ∧ ∃ o, prunePresenceSnapshot 1000 (JObj {[ "__proto__" := entry_at "__proto__" 0 ]})
             = Ok o
             ∧ props o !! "__proto__" = None.
Proof.
  split; [reflexivity|]. intros rt. split; [vm_compute; reflexivity|].
  destruct (prune_loses_proto_entry 1000 {[ "__proto__" := entry_at "__proto__" 0 ]}
              (entry_at "__proto__" 0)) as (o & Ho & Hnone & _).
  - reflexivity.
  - reflexivity.
  - apply map_Forall_singleton. reflexivity.
  - exists o. split; [exact Ho|exact Hnone].
Defined.

(** ** The document store *)

Lemma merge_iff_newer_witness :
  coherent (replica_holding {| text := "foo"; updatedAt := 100 |} ∅)
  ∧ candidate ping_message {| text := "x"; updatedAt := 100 |}
  ∧ ∀ rt : JsRuntime,
      onmessage 7 7 (JObj ping_message)
        (replica_holding {| text := "foo"; updatedAt := 100 |} ∅)
      = Ok (replica_holding {| text := "foo"; updatedAt := 100 |} ∅).
Proof.
  split; [reflexivity|]. split; [split; reflexivity|]. intros rt.
  destruct (merge_iff_newer 7 7 ping_message {| text := "x"; updatedAt := 100 |}
              (replica_holding {| text := "foo"; updatedAt := 100 |} ∅))
    as (r' & Hmsg & _ & _ & Hnoop & _).
  - reflexivity.
  - split; reflexivity.
  - reflexivity.
  - rewrite Hmsg. f_equal. apply Hnoop. simpl. lia.
Defined.

Lemma lww_commutes_witness :
  updatedAt {| text := "foo"; updatedAt := 100 |}
    ≠ updatedAt {| text := "foobar"; updatedAt := 50 |}
  ∧ ∀ rt : JsRuntime,
    ∃ a' b',
      onmessage 0 0 (docMessage {| text := "foobar"; updatedAt := 50 |})
        (replica_holding {| text := "foo"; updatedAt := 100 |} ∅) = Ok a'
      ∧ onmessage 0 0 (docMessage {| text := "foo"; updatedAt := 100 |})
          (replica_holding {| text := "foobar"; updatedAt := 50 |} ∅) = Ok b'
      ∧ docState a' = {| text := "foo"; updatedAt := 100 |}
      ∧ docState b' = {| text := "foo"; updatedAt := 100 |}.
Proof.
  split; [simpl; lia|]. intros rt.
  destruct (lww_commutes 0 0 0 0
              (replica_holding {| text := "foo"; updatedAt := 100 |} ∅)
              (replica_holding {| text := "foobar"; updatedAt := 50 |} ∅))
    as (a' & b' & _ & _ & Ha & Hb & _ & _ & Ha' & Hb' & _).
  - reflexivity.
  - reflexivity.
  - simpl. lia.
  - exists a', b'. split; [exact Ha|]. split; [exact Hb|].
    split; [exact Ha'|exact Hb'].
Defined.

(** C4 fails as stated: a record that parses but has no [text] is not
    replaced by the default document; the stored [updatedAt] is kept and
    the text is empty, not the placeholder. *)
Lemma readDocSnapshot_keeps_partial_record :
  readDocSnapshot (Some storage_without_text) "room-doc:lobby" "lobby" 1000
  = Ok {| text := ""; updatedAt := 5 |}
  ∧ String.eqb "" (text (defaultDoc "lobby" 1000)) = false
  ∧ updatedAt (defaultDoc "lobby" 1000) = 1000.
Proof. split; [|split]; vm_compute; reflexivity. Qed.

(** C5 fails as stated: a message whose [type] is neither ['doc'] nor
    ['presence'] but which carries a string [text] and a newer number
    [updatedAt] is not ignored; it replaces the document. *)
Lemma onmessage_applies_unknown_type :
  is_str (get_opt (JObj ping_message) "type") "doc" = false
  ∧ is_str (get_opt (JObj ping_message) "type") "presence" = false
  ∧ docState (replica_holding {| text := ""; updatedAt := 0 |} ∅)
    = {| text := ""; updatedAt := 0 |}
  ∧ ∀ rt : JsRuntime,
    ∃ r', onmessage 7 7 (JObj ping_message)
            (replica_holding {| text := ""; updatedAt := 0 |} ∅) = Ok r'
          ∧ docState r' = {| text := "x"; updatedAt := 100 |}.
Proof.
  split; [reflexivity|]. split; [reflexivity|]. split; [reflexivity|].
  intros rt. eexists. split; reflexivity.
Qed.

Lemma onmessage_drops_malformed_witness :
  malformed mistyped_message = true
  ∧ ∀ rt : JsRuntime,
      onmessage 7 7 mistyped_message
        (replica_holding {| text := ""; updatedAt := 0 |} ∅)
      = Ok (replica_holding {| text := ""; updatedAt := 0 |} ∅).
Proof.
  split; [reflexivity|]. intros rt.
  destruct (onmessage_drops_malformed 7 7 mistyped_message
              (replica_holding {| text := ""; updatedAt := 0 |} ∅)) as [Hdrop _].
  apply Hdrop. reflexivity.
Defined.

Lemma storage_path_suffices_witness :
  channelRef (replica_holding {| text := "foo"; updatedAt := 100 |} ∅) = None
  ∧ coherent (replica_holding {| text := ""; updatedAt := 0 |} ∅)
  ∧ ∀ rt : JsRuntime,
    ∃ x0 y0 x1 y',
      openChannel false (replica_holding {| text := "foo"; updatedAt := 100 |} ∅) = Ok x0
      ∧ openChannel false (replica_holding {| text := ""; updatedAt := 0 |} ∅) = Ok y0
      ∧ handleInput "foobar" 150 151 152 153 (profile "u1" "Ann")
          (Some (JNum 12, JNum 40)) x0 = Ok x1
      ∧ handleStorage
          {| key := Some (storageKey x1);
             newValue := localStorage x1 !! storageKey x1 |} y0
        = Ok y'
      ∧ docState y' = {| text := "foobar"; updatedAt := 150 |}.
Proof.
  split; [reflexivity|]. split; [reflexivity|]. intros rt.
  destruct (storage_path_suffices
              (replica_holding {| text := "foo"; updatedAt := 100 |} ∅)
              (replica_holding {| text := ""; updatedAt := 0 |} ∅)
              "foobar" 150 151 152 153 (profile "u1" "Ann") (Some (JNum 12, JNum 40)))
    as (x0 & y0 & x1 & y' & Hx & Hy & _ & _ & Hin & _ & Hev & Hdoc).
  - reflexivity.
  - reflexivity.
  - reflexivity.
  - exists x0, y0, x1, y'. split; [exact Hx|]. split; [exact Hy|].
    split; [exact Hin|]. split; [exact Hev|exact Hdoc].
Defined.

(** ** The presence registry *)

(** C7 fails as stated: an entry whose [lastSeen] is [0] is present and
    older than 45000 ms at time 50000, and it is still exposed and
    persisted right after an upsert made at that time. *)
Lemma upsert_leaves_epoch_entry :
  expired_by_spec 50000 (entry_at "ghost" 0) = true
  ∧ ∀ rt : JsRuntime,
    ∃ r',
      upsertPresence 50000 (JStr "u1") (EValue (entry_at "u1" 50000))
        (replica_holding {| text := ""; updatedAt := 0 |}
           {[ "ghost" := entry_at "ghost" 0 ]}) = Ok r'
      ∧ props (presence r') !! "ghost" = Some (entry_at "ghost" 0)
      ∧ localStorage r' !! "room-presence:lobby"
        = Some (ItemJson (JObj {[ "ghost" := entry_at "ghost" 0;
                                  "u1" := entry_at "u1" 50000 ]})).
Proof.
  split; [reflexivity|]. intros rt. eexists.
  split; [vm_compute; reflexivity|]. split; vm_compute; reflexivity.
Qed.

Lemma upsert_merges_prunes_persists_witness :
  truthy (JStr "u1") = true
  ∧ ∀ rt : JsRuntime,
    ∃ r',
      upsertPresence 50000 (JStr "u1") (EValue (entry_at "u1" 50000))
        (replica_holding {| text := ""; updatedAt := 0 |}
           {[ "u1" := entry_at "u1" 20000; "u2" := entry_at "u2" 1000 ]}) = Ok r'
      ∧ props (presence r') = {[ "u1" := entry_at "u1" 50000 ]}.
Proof.
  split; [reflexivity|]. intros rt.
  destruct (upsert_merges_prunes_persists 50000 (JStr "u1")
              (EValue (entry_at "u1" 50000))
              (replica_holding {| text := ""; updatedAt := 0 |}
                 {[ "u1" := entry_at "u1" 20000; "u2" := entry_at "u2" 1000 ]})
              "u1")
    as (r' & Hup & _ & _ & Hstate & _).
  - reflexivity.
  - reflexivity.
  - apply (bool_decide_unpack _). vm_compute. exact I.
  - reflexivity.
  - unfold prunable. apply (bool_decide_unpack _). vm_compute. exact I.
  - exists r'. split; [exact Hup|].
    assert (Hr' : Ok (presence r') = Ok (new_object {[ "u1" := entry_at "u1" 50000 ]}))
      by (rewrite <- Hstate; vm_compute; reflexivity).
    injection Hr' as ->. reflexivity.
Defined.

Lemma leave_removes_at_once_witness :
  truthy (JStr "u1") = true
  ∧ ∀ rt : JsRuntime,
    ∃ r' snap,
      onmessage 7 7 (JObj (leave_message "u1"))
        (replica_holding {| text := ""; updatedAt := 0 |}
           {[ "u1" := entry_at "u1" 5; "u2" := entry_at "u2" 6 ]}) = Ok r'
      ∧ props (presence r') !! "u1" = None
      ∧ localStorage r' !! "room-presence:lobby" = Some (ItemJson (JObj snap))
      ∧ snap !! "u1" = None.
Proof.
  split; [reflexivity|]. intros rt.
  destruct (leave_removes_at_once 7 7 (leave_message "u1") {[ "id" := JStr "u1" ]}
              (JStr "u1") "u1"
              (replica_holding {| text := ""; updatedAt := 0 |}
                 {[ "u1" := entry_at "u1" 5; "u2" := entry_at "u2" 6 ]}))
    as (r' & snap & Hmsg & Hstate & Hrec & Hsnap).
  - reflexivity.
  - reflexivity.
  - reflexivity.
  - reflexivity.
  - reflexivity.
  - reflexivity.
  - unfold prunable. apply (bool_decide_unpack _). vm_compute. exact I.
  - exists r', snap. split; [exact Hmsg|]. split; [exact Hstate|].
    split; [exact Hrec|exact Hsnap].
Defined.

(** ** Expiry along a run *)

(** C9 fails as stated: with the timer started at time 0, an entry
    created at [T = 1] passes the pruning test of the tick at 45000, the
    only tick up to the query time [T + 45001], so it is still in the
    registry's state and in the list handed to the view at that time. *)
Lemma entry_survives_first_tick :
  1 + 45001 < 0 + 2 * 45000
  ∧ ∀ rt : JsRuntime,
    ∃ r', run [(0 + 1 * 45000, Tick)]
            (replica_holding {| text := ""; updatedAt := 0 |}
               {[ "u1" := entry_at "u1" 1 ]}) = Ok r'
          ∧ props (presence r') !! "u1" = Some (entry_at "u1" 1)
          ∧ entry_at "u1" 1 ∈ presenceList r'.
Proof.
  split; [lia|]. intros rt. eexists. split; [vm_compute; reflexivity|].
  split; [reflexivity|].
  apply (presenceList_elem _ "u1"); reflexivity.
Qed.

Lemma entry_expires_at_next_tick_witness :
  get_opt (entry_at "u1" 1) "lastSeen" = JNum 1
  ∧ 1 ≠ 0
  ∧ ∀ rt : JsRuntime,
    ∃ r', run [(45000, Tick);
               (60003, Input "hello" 60000 60001 60002 (profile "u2" "Bo") None);
               (90000, Tick)]
            (replica_holding {| text := ""; updatedAt := 0 |}
               {[ "u1" := entry_at "u1" 1 ]}) = Ok r'
          ∧ props (presence r') !! "u1" = None.
Proof.
  split; [reflexivity|]. split; [lia|]. intros rt.
  destruct (entry_expires_at_next_tick "u1" (entry_at "u1" 1) 1
              [(45000, Tick);
               (60003, Input "hello" 60000 60001 60002 (profile "u2" "Bo") None);
               (90000, Tick)]
              (replica_holding {| text := ""; updatedAt := 0 |}
                 {[ "u1" := entry_at "u1" 1 ]}))
    as (Hquiet & Hruns).
  - split; [reflexivity|]. apply map_Forall_singleton. reflexivity.
  - reflexivity.
  - reflexivity.
  - lia.
  - apply Forall_cons; split; [simpl; tauto|].
    apply Forall_cons; split; [simpl; discriminate|].
    apply Forall_cons; split; [simpl; tauto|]. apply Forall_nil_2.
  - destruct Hruns as (r' & Hrun).
    + reflexivity.
    + repeat (apply Forall_cons; split; [exact I || reflexivity|]). apply Forall_nil_2.
    + exists r'. split; [exact Hrun|].
      destruct (Hquiet r' Hrun) as (_ & Hgone & _). apply Hgone.
      apply Exists_cons_tl, Exists_cons_tl, Exists_cons_hd. simpl.
      split; [reflexivity|lia].
Defined.

(** * More properties of the component *)

Section MoreProperties.
Context `{!JsRuntime}.

(** ** Pruning and the persisted presence record *)

(** X1. Pruning composes along the clock: pruning at [now1] and then at a
    later [now2] leaves the entries that pruning at [now2] alone leaves,
    and the first pruning throws exactly when the second alone does. In
    particular pruning twice at the same time is pruning once. *)
Theorem prune_then_prune_later now1 now2 (s : JsVal) :
  now1 ≤ now2 →
  match prunePresenceSnapshot now1 s with
  | Ok o1 =>
      ∃ o2 o,
        prunePresenceSnapshot now2 (JObj (props o1)) = Ok o2
        ∧ prunePresenceSnapshot now2 s = Ok o
        ∧ props o2 = props o
  | Throw e => prunePresenceSnapshot now2 s = Throw e
  end.
Proof.
  intros Hle. destruct (prune_cases now1 s) as [[Hp ->]|[Hnp ->]]; cbn zeta in *.
  - exists (pruned now2 (props (pruned now1 (own_props (nullish s (JObj ∅)))))),
           (pruned now2 (own_props (nullish s (JObj ∅)))).
    split; [apply prune_closed, pruned_wellformed|].
    split; [rewrite prune_of_value; by apply prune_closed|].
    apply map_eq; intros k. rewrite !pruned_lookup.
    case_bool_decide; [done|].
    destruct (own_props _ !! k) as [e|]; simpl; [|done].
    destruct (passes now2 e) eqn:H2.
    + rewrite (passes_earlier now1 now2 e Hle H2); simpl. by rewrite H2.
    + destruct (passes now1 e); simpl; [by rewrite H2|done].
  - rewrite prune_of_value. by apply prune_throws.
Qed.

Lemma readPresenceSnapshot_returns window key now :
  ∃ snap,
    readPresenceSnapshot window key now = Ok snap
    ∧ map_Forall (λ _ e, fresh now e = Ok true) (props snap).
Proof.
  eexists. split; [apply readPresenceSnapshot_eq|].
  destruct (window ≫= (.!! key)) as [[| |v]|]; try apply map_Forall_empty.
  destruct (prunePresenceSnapshot now v) as [o|] eqn:Hv; [|apply map_Forall_empty].
  apply prune_Ok in Hv as [_ ->].
  intros k e Hk. apply passes_fresh. by eapply pruned_all_pass.
Qed.

(** X2. [readPresenceSnapshot] never throws: it returns the empty
    snapshot when there is no [window], no item, an empty item or an item
    that is not JSON, and also when pruning the parsed value throws; it
    returns the pruned value otherwise. Every entry it returns passes the
    pruning test at the time of the read, and none is stored under
    ["__proto__"]. *)
Theorem readPresenceSnapshot_only_fresh window key now :
  ∃ snap,
    readPresenceSnapshot window key now = Ok snap
    ∧ match window ≫= (.!! key) with
      | Some (ItemJson v) =>
          match prunePresenceSnapshot now v with
          | Ok o => snap = o
          | Throw _ => snap = new_object ∅
          end
      | _ => snap = new_object ∅
      end
    ∧ map_Forall (λ _ e, fresh now e = Ok true) (props snap)
    ∧ props snap !! "__proto__" = None.
Proof.
  eexists. split; [apply readPresenceSnapshot_eq|].
  destruct (window ≫= (.!! key)) as [[| |v]|];
    try (split; [done|]; split; [apply map_Forall_empty|done]).
  destruct (prunePresenceSnapshot now v) as [o|] eqn:Hv;
    [|split; [done|]; split; [apply map_Forall_empty|done]].
  split; [done|]. apply prune_Ok in Hv as [_ ->]. split.
  - intros k e Hk. apply passes_fresh. by eapply pruned_all_pass.
  - apply pruned_no_proto_key.
Qed.

Lemma truthy_json_norm v : truthy (json_norm v) = truthy v.
Proof. by destruct v. Qed.

Lemma convertible_json_norm v :
  convertible v = true → convertible (json_norm v) = true.
Proof.
  destruct v as [| |b|n|s|m]; try done. rewrite json_norm_obj. cbn [convertible].
  intros Hm%bool_decide_eq_true. apply bool_decide_eq_true.
  by rewrite lookup_omap, Hm.
Qed.

Lemma passes_json_norm now e : passes now (json_norm e) = passes now e.
Proof.
  unfold passes, fresh. rewrite get_opt_json_norm.
  destruct (get_opt e "lastSeen") as [| |b|n|s|m]; try done.
  rewrite json_norm_obj. cbn [truthy negb ToNumber]. unfold OrdinaryToPrimitive.
  by do 2 case_bool_decide.
Qed.

(** Pruning what was persisted of a snapshot that pruning returned. *)
Lemma prune_persisted now (o : Obj) :
  wellformed o →
  ∃ back,
    prunePresenceSnapshot now (json_norm (JObj (props o))) = Ok back
    ∧ (∀ k, props back !! k = props o !! k ≫= reloaded now)
    ∧ proto back = ObjectPrototype.
Proof.
  intros [Hnone Hp]. rewrite json_norm_obj.
  set (record := omap _ (props o)).
  assert (Hrecord : prunable record).
  { intros k e. subst record. rewrite lookup_omap.
    destruct (props o !! k) as [e0|] eqn:He0; [|done].
    cbn [mbind option_bind]. intros He.
    assert (He' : e = json_norm e0) by (destruct e0; try done; by injection He).
    subst e. rewrite get_opt_json_norm. apply convertible_json_norm.
    apply (Hp k e0 He0). }
  exists (pruned now record). split; [by apply prune_closed|]. split.
  - intros k. rewrite pruned_lookup. subst record. rewrite lookup_omap.
    case_bool_decide as Hk; [subst k; by rewrite Hnone|].
    destruct (props o !! k) as [e|]; [|done].
    destruct e as [| |b|n|s|m]; try done.
    cbn [mbind option_bind reloaded].
    by rewrite (passes_json_norm now (JObj m)).
  - rewrite pruned_ordinary; [done|]. subst record. by rewrite lookup_omap, Hnone.
Qed.

(** X3. Round trip of the presence record, for a snapshot as pruning
    returns it: reading at time [now] what [persistPresenceSnapshot] wrote
    gives, key by key, the entries of the written snapshot that are not
    [undefined] and are fresh at [now], as [JSON] returns them, in an
    object with the ordinary prototype. *)
Theorem presence_record_round_trip st key (snap : Obj) now :
  wellformed snap →
  ∃ back,
    readPresenceSnapshot (persistPresenceSnapshot (Some st) key snap) key now
    = Ok back
    ∧ (∀ k, props back !! k = props snap !! k ≫= reloaded now)
    ∧ proto back = ObjectPrototype.
Proof.
  intros Hwf. destruct (prune_persisted now snap Hwf) as (back & Hback & Hk & Hproto).
  exists back. split; [|by split].
  rewrite readPresenceSnapshot_eq. cbn [persistPresenceSnapshot mbind option_bind].
  rewrite lookup_insert_eq. unfold JSON_stringify. by rewrite Hback.
Qed.

(** ** The pruning timer *)

Lemma pruned_all_pass_id now (m : gmap string JsVal) :
  m !! "__proto__" = None →
  map_Forall (λ _ e, passes now e = true) m →
  props (pruned now m) = m.
Proof.
  intros Hnone Hall. apply map_eq; intros k. rewrite pruned_lookup.
  case_bool_decide as Hk; [by subst k|].
  destruct (m !! k) as [e|] eqn:He; simpl; [|done].
  by rewrite (Hall k e He).
Qed.

(** X4. On a registry the component built, a tick of the pruning timer
    returns and leaves only entries that pass the pruning test; it
    changes nothing at all, and writes nothing, when every entry already
    passes it; and a second tick at the same time changes nothing more. *)
Theorem pruneTick_settles now r :
  wellformed (presence r) →
  ∃ r',
    pruneTick now r = Ok r'
    ∧ map_Forall (λ _ e, fresh now e = Ok true) (props (presence r'))
    ∧ (map_Forall (λ _ e, fresh now e = Ok true) (props (presence r)) → r' = r)
    ∧ pruneTick now r' = Ok r'.
Proof.
  intros Hwf.
  assert (Hid : ∀ r0, wellformed (presence r0) →
                      map_Forall (λ _ e, fresh now e = Ok true) (props (presence r0)) →
                      pruneTick now r0 = Ok r0).
  { intros r0 [Hnone Hp] Hall. unfold pruneTick. rewrite prune_closed by done.
    cbn [mbind result_bind]. rewrite pruned_all_pass_id; [|done|].
    - by rewrite bool_decide_eq_true_2.
    - intros k e Hk. apply passes_fresh. by eapply Hall. }
  destruct (pruneTick_total now r) as (r' & Htick); [apply Hwf|].
  exists r'. split; [done|].
  assert (Hfresh : map_Forall (λ _ e, fresh now e = Ok true) (props (presence r'))).
  { apply pruneTick_Ok in Htick as [_ [[-> Heq] | [-> _]]].
    - intros k e Hk. apply passes_fresh. rewrite <- Heq in Hk.
      exact (pruned_all_pass now _ k e Hk).
    - intros k e Hk. apply passes_fresh. exact (pruned_all_pass now _ k e Hk). }
  split; [done|]. split.
  - intros Hall. rewrite (Hid r Hwf Hall) in Htick. by injection Htick.
  - apply Hid; [|done]. apply pruneTick_inv in Htick as [_ Hwf']. by apply Hwf'.
Qed.

(** ** Removing a user from the persisted record *)

Lemma removeUser_record st key userId now U :
  truthy userId = true →
  ToPropertyKey userId = Ok U →
  ∃ st' prev snap,
    removeUserFromPresenceSnapshot (Some st) key userId now = Ok (Some st')
    ∧ readPresenceSnapshot (Some st) key now = Ok prev
    ∧ st' !! key = Some (ItemJson (JObj snap))
    ∧ snap !! U = None
    ∧ (∀ k, k ≠ U → snap !! k = props prev !! k ≫= reloaded now)
    ∧ (∀ k', k' ≠ key → st' !! k' = st !! k').
Proof.
  intros Ht HU. unfold removeUserFromPresenceSnapshot. rewrite Ht. cbn [negb].
  destruct (readPresenceSnapshot_returns (Some st) key now)
    as (prev & Hread & Hprev).
  rewrite Hread, HU. cbn [mbind result_bind].
  eexists _, prev, _. split; [reflexivity|]. split; [reflexivity|].
  split; [|split; [|split]].
  - unfold persistPresenceSnapshot. rewrite lookup_insert_eq.
    unfold JSON_stringify. by rewrite json_norm_obj.
  - cbn [obj_delete props]. by rewrite lookup_omap, lookup_delete_eq.
  - intros k Hk. cbn [obj_delete props]. rewrite lookup_omap, lookup_delete_ne by done.
    destruct (props prev !! k) as [e|] eqn:He; [|reflexivity].
    cbn [mbind option_bind]. unfold reloaded.
    apply Hprev in He as Hpass. apply passes_fresh in Hpass. rewrite Hpass.
    by destruct e.
  - intros k' Hk'. unfold persistPresenceSnapshot. by rewrite lookup_insert_ne.
Qed.

(** X5. [removeUserFromPresenceSnapshot] with a truthy user id that
    converts to a property key rewrites the presence record, whatever was
    stored under the key (nothing, or something that is not JSON,
    included): the record then holds an object without the user, with
    every other entry that the read returned, and no other key of the
    storage is touched. With a user id that does not convert, an object
    with an own [toString], it throws, the [delete] being outside any
    [try]. With a falsy user id it leaves the storage as it is. *)
Theorem removeUser_rewrites_record st key userId now :
  if truthy userId then
    match ToPropertyKey userId with
    | Ok U =>
        ∃ st' prev snap,
          removeUserFromPresenceSnapshot (Some st) key userId now = Ok (Some st')
          ∧ readPresenceSnapshot (Some st) key now = Ok prev
          ∧ st' !! key = Some (ItemJson (JObj snap))
          ∧ snap !! U = None
          ∧ (∀ k, k ≠ U → snap !! k = props prev !! k ≫= reloaded now)
          ∧ (∀ k', k' ≠ key → st' !! k' = st !! k')
    | Throw e =>
        removeUserFromPresenceSnapshot (Some st) key userId now = Throw e
    end
  else removeUserFromPresenceSnapshot (Some st) key userId now = Ok (Some st).
Proof.
  destruct (truthy userId) eqn:Ht.
  - destruct (ToPropertyKey userId) as [U|e] eqn:HU.
    + by apply removeUser_record.
    + unfold removeUserFromPresenceSnapshot. rewrite Ht. cbn [negb].
      rewrite readPresenceSnapshot_eq. cbn [mbind result_bind]. by rewrite HU.
  - unfold removeUserFromPresenceSnapshot. by rewrite Ht.
Qed.

(** ** The document record *)

Lemma readDocSnapshot_docJson st key room now d :
  st !! key = Some (JSON_stringify (docJson d)) →
  readDocSnapshot (Some st) key room now = Ok d.
Proof.
  intros Hst. unfold readDocSnapshot. rewrite Hst.
  unfold JSON_stringify. rewrite json_norm_docJson. by destruct d.
Qed.

(** X6. Round trip of the document record: after a local edit that the
    handler completes, a replica of the same room that mounts on the
    storage starts from the edited text and its timestamp, with its
    timestamp ref in agreement. The handler completes on a registry the
    component built, when the channel was not closed and the user id
    converts to a property key. *)
Theorem edit_then_mount nextText ts stampCursor stampSeen pruneAt currentUser caret r
    now now' :
  (∀ r1,
     handleInput nextText ts stampCursor stampSeen pruneAt currentUser caret r = Ok r1 →
     ∃ m, mount (roomId r) (localStorage r1) now now' = Ok m
          ∧ docState m = {| text := nextText; updatedAt := ts |}
          ∧ lastUpdateRef m = ts)
  ∧ (wellformed (presence r) → channelClosed r = false →
     convertible (get_opt currentUser "id") = true →
     ∃ r1, handleInput nextText ts stampCursor stampSeen pruneAt currentUser caret r
           = Ok r1).
Proof.
  split.
  - intros r1 (_ & _ & _ & _ & Hrec & _)%handleInput_inv. unfold mount.
    rewrite (readDocSnapshot_docJson _ _ _ _ {| text := nextText; updatedAt := ts |})
      by exact Hrec.
    rewrite readPresenceSnapshot_eq. by eexists.
  - intros [_ Hp] Hopen Hid. by apply handleInput_total.
Qed.

(** X7. Delivering the same document candidate a second time, over the
    channel or as a [storage] event, changes nothing: the replica after
    the first delivery is a fixed point of both handlers. *)
Theorem redelivery_is_noop stamp now stamp' now' (p : gmap string JsVal) d r :
  candidate p d →
  is_str (get_opt (JObj p) "type") "presence" = false →
  ∃ r',
    onmessage stamp now (JObj p) r = Ok r'
    ∧ onmessage stamp' now' (JObj p) r' = Ok r'
    ∧ handleStorage {| key := Some (storageKey r');
                       newValue := Some (ItemJson (JObj p)) |} r' = Ok r'.
Proof.
  intros Hc Hty. eexists. split; [by apply onmessage_candidate|].
  rewrite (onmessage_candidate _ _ p d) by done.
  rewrite (handleStorage_candidate p d) by done.
  destruct (Z.ltb_spec (lastUpdateRef r) (updatedAt d)) as [Hlt|Hge].
  - simpl. by rewrite Z.ltb_irrefl.
  - destruct (Z.ltb_spec (lastUpdateRef r) (updatedAt d)); [lia|done].
Qed.

(** X8. [handleStorage] never throws, and it changes the replica in one case
    only: the event is for the replica's own document key and its value
    parses to something with a string [text] and a number [updatedAt]
    greater than the timestamp ref; the change is then [persistDoc]. An
    event for another key, without a value, with a value that is not JSON
    or that parses to [null], or with mistyped fields, is dropped. *)
Theorem handleStorage_changes_only_when_newer ev r :
  ∃ r',
    handleStorage ev r = Ok r'
    ∧ (r' = r
       ∨ ∃ v t u,
           key ev = Some (storageKey r)
           ∧ newValue ev = Some (ItemJson v)
           ∧ get_opt v "text" = JStr t
           ∧ get_opt v "updatedAt" = JNum u
           ∧ lastUpdateRef r < u
           ∧ r' = persistDoc t u r).
Proof.
  destruct (handleStorage_cases ev r) as [-> | (v & t & u & ? & ? & ? & ? & ? & ->)].
  - eexists. split; [done|]. by left.
  - eexists. split; [done|]. right. exists v, t, u. by repeat split.
Qed.

(** ** Invariants of a run *)

Lemma run_coherent trace : ∀ r r',
  coherent r → run trace r = Ok r' → coherent r'.
Proof.
  induction trace as [|[now ev] trace IH]; intros r r' Hco; simpl.
  - by intros [= <-].
  - destruct (step now ev r) as [r1|] eqn:Hstep; [|done]. cbn [mbind result_bind].
    apply IH. by eapply step_coherent.
Qed.

Lemma run_inv trace : ∀ r r',
  run trace r = Ok r' →
  (wellformed (presence r) → wellformed (presence r'))
  ∧ channelClosed r' = channelClosed r.
Proof.
  induction trace as [|[now ev] trace IH]; intros r r'; simpl.
  - by intros [= <-].
  - destruct (step now ev r) as [r1|] eqn:Hstep; [|done]. cbn [mbind result_bind].
    intros Hrun. apply step_inv in Hstep as [Hwf Hcc].
    apply IH in Hrun as [Hwf' Hcc']. split; [by auto|congruence].
Qed.

(** X9. Along every run that completes, the timestamp ref keeps agreeing
    with the document state. A run completes, from a registry the
    component built and with a channel that was not closed, when its
    events are well typed: user ids that convert to property keys, and
    local upserts whose value carries a [lastSeen] that converts to a
    number (an updater only under a key that no member of
    [Object.prototype] has). The registry stays one the component
    built. *)
Theorem run_keeps_coherent trace r :
  coherent r →
  (∀ r', run trace r = Ok r' → coherent r')
  ∧ (wellformed (presence r) → channelClosed r = false →
     Forall (λ te, well_typed te.2) trace →
     ∃ r', run trace r = Ok r' ∧ coherent r'
           ∧ wellformed (presence r') ∧ channelClosed r' = false).
Proof.
  intros Hco. split; [intros r'; by apply run_coherent|].
  intros Hwf Hopen Hty. destruct (run_total trace r Hwf Hopen Hty) as (r' & Hrun).
  exists r'. split; [done|]. split; [by eapply run_coherent|].
  apply run_inv in Hrun as [Hwf' Hcc]. split; [by apply Hwf'|congruence].
Qed.

Lemma step_lastUpdate_mono now ev r r' :
  is_input ev = false → step now ev r = Ok r' →
  lastUpdateRef r ≤ lastUpdateRef r'.
Proof.
  intros Hin. destruct ev as [|stamp data|sev|sev|nextText ts sc ss cu caret|userId eou];
    simpl; try done.
  - intros [(_ & -> & _) _]%pruneTick_inv. lia.
  - destruct (onmessage_cases stamp now data r)
      as [-> | [(_ & _ & _ & ->) | (t & u & _ & _ & _ & _ & Hlt & ->)]].
    + intros [= <-]. lia.
    + intros [(_ & -> & _) _]%upsertPresence_inv. lia.
    + intros [= <-]. simpl. lia.
  - destruct (handleStorage_cases sev r)
      as [-> | (v & t & u & _ & _ & _ & _ & Hlt & ->)]; intros [= <-]; simpl; lia.
  - intros ((_ & -> & _) & _)%handlePresenceStorage_inv. lia.
  - intros [(_ & -> & _) _]%upsertPresence_inv. lia.
Qed.

(** X10. Remote events never move the document's timestamp backwards:
    along a run without local edits the timestamp ref does not decrease.
    (A local edit installs the clock reading it is given, whatever the ref
    was.) *)
Theorem remote_events_never_rewind trace r r' :
  forallb (λ te, negb (is_input te.2)) trace = true →
  run trace r = Ok r' →
  lastUpdateRef r ≤ lastUpdateRef r'.
Proof.
  revert r. induction trace as [|[now ev] trace IH]; intros r Hall; simpl.
  - intros [= <-]. lia.
  - simpl in Hall. apply andb_true_iff in Hall as [Hev Hall].
    apply negb_true_iff in Hev.
    destruct (step now ev r) as [r1|] eqn:Hstep; [|done]. cbn [mbind result_bind].
    intros Hrun. pose proof (step_lastUpdate_mono now ev r r1 Hev Hstep).
    pose proof (IH r1 Hall Hrun). lia.
Qed.

(** ** Documents and presence do not interfere *)

Lemma doc_presence_keys_differ r : presenceStorageKey r ≠ storageKey r.
Proof. unfold presenceStorageKey, storageKey, buildPresenceKey. discriminate. Qed.

(** X11. The events of the presence protocol never touch the document:
    the text, its timestamp, the timestamp ref, the stored document record
    and the outbox are as before. *)
Theorem presence_events_spare_document now ev r r' :
  presence_event ev = true →
  step now ev r = Ok r' →
  docState r' = docState r
  ∧ lastUpdateRef r' = lastUpdateRef r
  ∧ localStorage r' !! storageKey r = localStorage r !! storageKey r
  ∧ outbox r' = outbox r.
Proof.
  assert (Hframe : presence_only r r' →
            docState r' = docState r ∧ lastUpdateRef r' = lastUpdateRef r
            ∧ localStorage r' !! storageKey r = localStorage r !! storageKey r
            ∧ outbox r' = outbox r).
  { intros (Hd & Hl & Ho & _ & _ & _ & _ & Hs). repeat split; try done.
    apply Hs. intros Heq. by apply (doc_presence_keys_differ r). }
  destruct ev as [|stamp data|sev|sev|nextText ts sc ss cu caret|userId eou];
    simpl; try done.
  - intros _ [Hpo _]%pruneTick_inv. by apply Hframe.
  - intros [Ht Hty]%andb_true_iff.
    destruct (onmessage_cases stamp now data r)
      as [-> | [(_ & _ & _ & ->) | (t & u & _ & Hty' & _)]].
    + intros [= <-]. apply Hframe, presence_only_refl.
    + intros [Hpo _]%upsertPresence_inv. by apply Hframe.
    + congruence.
  - intros _ (Hpo & _)%handlePresenceStorage_inv. by apply Hframe.
  - intros _ [Hpo _]%upsertPresence_inv. by apply Hframe.
Qed.

(** X12. A document that arrives, over the channel or in a [storage]
    event, never touches the presence registry nor the stored presence
    record. A local edit touches them through [broadcastCursor] only: up
    to that call they are as before, and they stay so when the channel is
    not ready, when there is no user or when there is no caret. *)
Theorem document_events_spare_presence now ev r :
  (document_event ev = true →
   ∃ r', step now ev r = Ok r'
         ∧ presence r' = presence r
         ∧ localStorage r' !! presenceStorageKey r
           = localStorage r !! presenceStorageKey r)
  ∧ (∀ nextText ts stampCursor stampSeen currentUser caret r',
       ev = Input nextText ts stampCursor stampSeen currentUser caret →
       step now ev r = Ok r' →
       ∃ r1, presence r1 = presence r
             ∧ localStorage r1 !! presenceStorageKey r
               = localStorage r !! presenceStorageKey r
             ∧ broadcastCursor stampCursor stampSeen now currentUser caret r1 = Ok r'
             ∧ (isChannelReady r = false ∨ truthy currentUser = false ∨ caret = None →
                r' = r1)).
Proof.
  pose proof (doc_presence_keys_differ r) as Hkeys.
  assert (Hdoc : ∀ t u,
            presence (persistDoc t u r) = presence r
            ∧ localStorage (persistDoc t u r) !! presenceStorageKey r
              = localStorage r !! presenceStorageKey r).
  { intros t u. split; [done|]. simpl. by rewrite lookup_insert_ne. }
  split.
  - destruct ev as [|stamp data|sev|sev|nextText ts sc ss cu caret|userId eou];
      simpl; try done.
    + intros Hev%negb_true_iff.
      destruct (onmessage_cases stamp now data r)
        as [-> | [(Ht & Hty & _) | (t & u & _ & _ & _ & _ & _ & ->)]].
      * by eexists.
      * rewrite Ht, Hty in Hev. done.
      * eexists. split; [done|]. apply Hdoc.
    + intros _. destruct (handleStorage_cases sev r)
        as [-> | (v & t & u & _ & _ & _ & _ & _ & ->)]; eexists; (split; [done|]);
        [done|apply Hdoc].
  - intros nextText ts sc ss cu caret r' -> Hstep. simpl in Hstep.
    apply handleInput_Ok in Hstep as (r1 & Hpost & Hb).
    exists r1. apply postMessage_inv in Hpost as Hinv.
    destruct Hinv as (_ & _ & Hpr & Hst & _ & _ & _ & Hready).
    split; [rewrite Hpr; apply Hdoc|]. split; [rewrite Hst; apply Hdoc|].
    split; [exact Hb|]. intros Hguard. revert Hb. unfold broadcastCursor.
    rewrite Hready. cbn [persistDoc set_doc isChannelReady].
    destruct Hguard as [-> | [-> | ->]].
    + rewrite orb_true_r. by intros [= <-].
    + by intros [= <-].
    + destruct (_ || _); by intros [= <-].
Qed.

(** ** What a peer makes of what a replica sends *)

(** X13. A local edit that the handler completes is installed whatever
    the timestamp held before; with an open channel it posts one ['doc']
    message, followed by the ['cursor'] message of [broadcastCursor] when
    there is a user, a ready channel and a caret; a peer that receives the
    ['doc'] message adopts the edit exactly when the edit's timestamp is
    greater than the peer's timestamp ref. *)
Theorem edit_reaches_peer nextText ts stampCursor stampSeen now currentUser caret x c x1 :
  channelRef x = Some c →
  handleInput nextText ts stampCursor stampSeen now currentUser caret x = Ok x1 →
  let d := {| text := nextText; updatedAt := ts |} in
  docState x1 = d
  ∧ outbox x1
    = outbox x ++ docMessage d
        :: (if truthy currentUser && isChannelReady x
            then match caret with
                 | Some (cx, cy) =>
                     [cursorMessage currentUser
                        (JObj {[ "x" := cx; "y" := cy;
                                 "updatedAt" := JNum stampCursor ]})]
                 | None => []
                 end
            else [])
  ∧ ∀ stamp' now' y,
      onmessage stamp' now' (docMessage d) y
      = Ok (if lastUpdateRef y <? ts then persistDoc nextText ts y else y).
Proof.
  intros Hch Hin d.
  apply handleInput_inv in Hin as Hinv. destruct Hinv as (Hd & _).
  split; [exact Hd|]. split.
  - apply handleInput_Ok in Hin as (r1 & Hpost & Hb).
    apply postMessage_inv in Hpost as Hinv.
    destruct Hinv as (_ & _ & _ & _ & _ & Hch1 & _ & Hready).
    apply postMessage_Ok in Hpost as [[Hnone _] | (_ & _ & ->)];
      [simpl in Hnone; congruence|].
    cbn [persistDoc set_doc isChannelReady] in Hready.
    apply broadcastCursor_Ok in Hb as Hcases.
    destruct Hcases as [-> | (cx & cy & r2 & Hu & Hr & -> & Hup & Hpost2)].
    + revert Hb. unfold broadcastCursor. cbn [isChannelReady set_outbox persistDoc set_doc].
      destruct (truthy currentUser), (isChannelReady x), caret as [[cx cy]|];
        cbn [negb orb andb]; try done.
      destruct (upsertPresence _ _ _ _) as [r2|] eqn:Hup; [|done].
      cbn [mbind result_bind]. intros Hpost2.
      apply upsertPresence_inv in Hup as [(_ & _ & Ho & _ & Hc2 & _) _].
      apply postMessage_Ok in Hpost2 as [[Hnone _] | (_ & _ & Heq)].
      * rewrite Hc2 in Hnone. simpl in Hnone. congruence.
      * apply (f_equal outbox) in Heq. simpl in Heq. rewrite Ho in Heq. simpl in Heq.
        exfalso. revert Heq. rewrite <- (app_nil_r (outbox x ++ [_])) at 1.
        intros Heq%app_inv_head. done.
    + cbn [isChannelReady set_outbox persistDoc set_doc] in Hr.
      rewrite Hu, Hr. cbn [andb].
      apply upsertPresence_inv in Hup as [(_ & _ & Ho & _ & Hc2 & _) _].
      apply postMessage_Ok in Hpost2 as [[Hnone _] | (_ & _ & ->)].
      * rewrite Hc2 in Hnone. simpl in Hnone. congruence.
      * cbn [outbox set_outbox]. rewrite Ho. cbn [outbox set_outbox].
        by rewrite <- app_assoc.
  - intros stamp' now' y.
    apply (onmessage_candidate stamp' now' _ d); [|done].
    split; by simplify_map_eq.
Qed.

Lemma passes_stamped now stamp (m : gmap string JsVal) :
  m !! "lastSeen" = Some (JNum stamp) → now - stamp ≤ 45000 →
  passes now (JObj m) = true.
Proof.
  intros Hm Hle. unfold passes, fresh, get_opt. rewrite Hm; simpl.
  destruct (stamp =? 0); simpl; [done|].
  unfold PRESENCE_TTL_MS. by destruct (Z.leb_spec (now - stamp) 45000); [|lia].
Qed.

(** The entry an upsert leaves behind when the resolved value is an
    object that carries a recent [lastSeen]. *)
Lemma upsert_entry now stamp userId entryOrUpdater r U (source : gmap string JsVal) :
  truthy userId = true →
  ToPropertyKey userId = Ok U →
  U ≠ "__proto__" →
  prunable (props (presence r)) →
  resolve entryOrUpdater (obj_get (presence r) U) = JObj source →
  source !! "lastSeen" = Some (JNum stamp) →
  now - stamp ≤ 45000 →
  ∃ r', upsertPresence now userId entryOrUpdater r = Ok r'
        ∧ presence_only r r'
        ∧ props (presence r') !! U
          = Some (JObj (source ∪ own_props (obj_get (presence r) U))).
Proof.
  intros Ht HU Hne Hp Hsrc Hls Hle.
  assert (Hmerged : (source ∪ own_props (obj_get (presence r) U)) !! "lastSeen"
                    = Some (JNum stamp))
    by (by apply lookup_union_Some_l).
  assert (Hnext : props (upsertNext U entryOrUpdater (presence r))
                  = <[U := JObj (source ∪ own_props (obj_get (presence r) U))]>
                      (props (presence r))).
  { rewrite upsertNext_props_ordinary by done. cbn zeta. by rewrite Hsrc. }
  eexists. split.
  { apply (upsertPresence_truthy _ _ _ _ U); [done|done|].
    rewrite Hnext. apply map_Forall_insert_2; [|done].
    unfold get_opt. by rewrite Hmerged. }
  cbn zeta. split; [apply presence_only_written|].
  cbn [presence set_presence].
  rewrite pruned_lookup, bool_decide_eq_false_2 by done.
  rewrite Hnext, lookup_insert_eq. cbn [mbind option_bind].
  by rewrite (passes_stamped now stamp).
Qed.

(** The entry a presence message other than ['leave'] leaves behind. *)
Lemma presence_message_entry stamp now data r U :
  truthy data = true →
  is_str (get_opt data "type") "presence" = true →
  is_str (get_opt data "action") "leave" = false →
  truthy (get_opt (get_opt data "user") "id") = true →
  ToPropertyKey (get_opt (get_opt data "user") "id") = Ok U →
  U ≠ "__proto__" →
  prunable (props (presence r)) →
  now - stamp ≤ 45000 →
  let previousEntry := obj_get (presence r) U in
  let source : gmap string JsVal :=
    {[ "user" := get_opt data "user";
       "cursor" := nullish (get_opt data "cursor") (get_opt previousEntry "cursor");
       "lastSeen" := JNum stamp ]} in
  ∃ r', onmessage stamp now data r = Ok r'
        ∧ props (presence r') !! U = Some (JObj (source ∪ own_props previousEntry)).
Proof.
  intros Ht Hty Hact Hid HU Hne Hp Hle previousEntry source.
  rewrite onmessage_presence by done. unfold handlePresenceMessage.
  rewrite !get_truthy by done. cbn [mbind result_bind].
  rewrite Hid, Hact. cbn [negb].
  destruct (upsert_entry now stamp (get_opt (get_opt data "user") "id")
              (EUpdater (λ previousEntry,
                 JObj {[ "user" := get_opt data "user";
                         "cursor" := nullish (get_opt data "cursor")
                                       (get_opt previousEntry "cursor");
                         "lastSeen" := JNum stamp ]}))
              r U source) as (r' & Hup & _ & Hentry); try done.
  by exists r'.
Qed.

Lemma get_opt_field (m : gmap string JsVal) f v :
  m !! f = Some v → get_opt (JObj m) f = v.
Proof. intros Hm. unfold get_opt. by rewrite Hm. Qed.

Lemma entry_fields (u c : JsVal) stamp prev :
  let entry := ({[ "user" := u; "cursor" := c; "lastSeen" := JNum stamp ]}
                  : gmap string JsVal) ∪ own_props prev in
  entry !! "user" = Some u
  ∧ entry !! "cursor" = Some c
  ∧ entry !! "lastSeen" = Some (JNum stamp)
  ∧ ∀ f, f ≠ "user" → f ≠ "cursor" → f ≠ "lastSeen" →
         entry !! f = own_props prev !! f.
Proof.
  cbn zeta. split; [|split; [|split]].
  - apply lookup_union_Some_l. by rewrite lookup_insert_eq.
  - apply lookup_union_Some_l. by rewrite lookup_insert_ne, lookup_insert_eq.
  - apply lookup_union_Some_l. by rewrite !lookup_insert_ne, lookup_singleton_eq.
  - intros f ? ? ?. rewrite lookup_union.
    rewrite !lookup_insert_ne, lookup_singleton_ne by done.
    by destruct (own_props prev !! f).
Qed.

(** X14. A presence message other than ['leave'] that names a user id
    which converts to a key [U] other than ["__proto__"] leaves, in a
    registry the pruning test evaluates on, an entry for that user whose
    [user] is the one of the message, whose [lastSeen] is the receiver's
    own clock reading, and whose [cursor] is the one of the message or,
    when the message has none, the one the registry read under [U] before;
    every other field of what it read there is kept. *)
Theorem presence_message_refreshes stamp now (p : gmap string JsVal) r U :
  p !! "type" = Some (JStr "presence") →
  is_str (get_opt (JObj p) "action") "leave" = false →
  truthy (get_opt (get_opt (JObj p) "user") "id") = true →
  ToPropertyKey (get_opt (get_opt (JObj p) "user") "id") = Ok U →
  U ≠ "__proto__" →
  prunable (props (presence r)) →
  now - stamp ≤ 45000 →
  let previousEntry := obj_get (presence r) U in
  ∃ r' (entry : gmap string JsVal),
    onmessage stamp now (JObj p) r = Ok r'
    ∧ props (presence r') !! U = Some (JObj entry)
    ∧ entry !! "user" = Some (get_opt (JObj p) "user")
    ∧ entry !! "lastSeen" = Some (JNum stamp)
    ∧ entry !! "cursor"
      = Some (nullish (get_opt (JObj p) "cursor") (get_opt previousEntry "cursor"))
    ∧ ∀ f, f ≠ "user" → f ≠ "cursor" → f ≠ "lastSeen" →
           entry !! f = own_props previousEntry !! f.
Proof.
  intros Hty Hact Hid HU Hne Hp Hle previousEntry.
  destruct (presence_message_entry stamp now (JObj p) r U) as (r' & Hmsg & Hentry);
    try done.
  { simpl. by rewrite Hty. }
  eexists r', _. split; [done|]. split; [exact Hentry|].
  destruct (entry_fields (get_opt (JObj p) "user")
              (nullish (get_opt (JObj p) "cursor") (get_opt previousEntry "cursor"))
              stamp previousEntry) as (Hu & Hc & Hl & Hrest).
  by repeat split.
Qed.

Lemma truthy_has_id v : truthy (get_opt v "id") = true → truthy v = true.
Proof. by destruct v. Qed.

(** X15. Joining: with the channel open, the announcing effect posts one
    ['join'] message and registers the local user in the sender's own
    registry; a peer that receives the message gets an entry for that user
    too, stamped with the peer's own clock. The user id converts to a key
    other than ["__proto__"], and the registries are ones the pruning test
    evaluates on. *)
Theorem join_reaches_peer stampx nowx stampy nowy currentUser x c U :
  truthy (get_opt currentUser "id") = true →
  ToPropertyKey (get_opt currentUser "id") = Ok U →
  U ≠ "__proto__" →
  prunable (props (presence x)) →
  isChannelReady x = true →
  channelRef x = Some c →
  channelClosed x = false →
  nowx - stampx ≤ 45000 →
  nowy - stampy ≤ 45000 →
  ∃ x1,
    announceJoin stampx nowx currentUser x = Ok x1
    ∧ outbox x1 = outbox x ++ [joinMessage currentUser]
    ∧ (∃ ex : gmap string JsVal,
         props (presence x1) !! U = Some (JObj ex)
         ∧ ex !! "user" = Some currentUser
         ∧ ex !! "lastSeen" = Some (JNum stampx))
    ∧ ∀ y, prunable (props (presence y)) →
        ∃ y' (ey : gmap string JsVal),
          onmessage stampy nowy (joinMessage currentUser) y = Ok y'
          ∧ props (presence y') !! U = Some (JObj ey)
          ∧ ey !! "user" = Some currentUser
          ∧ ey !! "lastSeen" = Some (JNum stampy).
Proof.
  intros Hid HU Hne Hp Hready Hch Hopen Hx Hy. unfold announceJoin, postMessage.
  rewrite (truthy_has_id currentUser Hid), Hready, Hch, Hopen.
  cbn [negb orb mbind result_bind].
  destruct (upsert_entry nowx stampx (get_opt currentUser "id")
              (EValue (selfEntry currentUser stampx))
              (set_outbox (outbox x ++ [joinMessage currentUser]) x) U
              {[ "user" := currentUser; "lastSeen" := JNum stampx ]})
    as (x1 & Hup & (_ & _ & Ho & _) & Hentry); try done.
  exists x1. split; [exact Hup|]. split; [by rewrite Ho|]. split.
  - eexists. split; [exact Hentry|]. split; apply lookup_union_Some_l.
    + by rewrite lookup_insert_eq.
    + by rewrite lookup_insert_ne, lookup_singleton_eq.
  - intros y Hpy.
    destruct (presence_message_entry stampy nowy (joinMessage currentUser) y U)
      as (y' & Hmsg & Hentry'); try done.
    eexists y', _. split; [exact Hmsg|]. split; [exact Hentry'|].
    destruct (entry_fields currentUser
                (nullish JUndefined (get_opt (obj_get (presence y) U) "cursor"))
                stampy (obj_get (presence y) U)) as (Hu & _ & Hl & _).
    by split.
Qed.

(** X16. Moving the caret: with the channel open and a caret in the
    editor, [broadcastCursor] records the caret in the sender's own entry
    and posts one ['cursor'] message; a peer that receives it records the
    same caret, and keeps it when a later message for the user, such as a
    ['join'], carries none. The user id converts to a key other than
    ["__proto__"], and the registries are ones the pruning test evaluates
    on. *)
Theorem cursor_reaches_peer_and_stays
    stampCursor stampSeen now stamp1 now1 stamp2 now2 currentUser cx cy x c U :
  truthy (get_opt currentUser "id") = true →
  ToPropertyKey (get_opt currentUser "id") = Ok U →
  U ≠ "__proto__" →
  prunable (props (presence x)) →
  isChannelReady x = true →
  channelRef x = Some c →
  channelClosed x = false →
  now - stampSeen ≤ 45000 → now1 - stamp1 ≤ 45000 → now2 - stamp2 ≤ 45000 →
  let cursor := JObj {[ "x" := cx; "y" := cy; "updatedAt" := JNum stampCursor ]} in
  ∃ x1,
    broadcastCursor stampCursor stampSeen now currentUser (Some (cx, cy)) x = Ok x1
    ∧ outbox x1 = outbox x ++ [cursorMessage currentUser cursor]
    ∧ (∃ ex : gmap string JsVal,
         props (presence x1) !! U = Some (JObj ex) ∧ ex !! "cursor" = Some cursor)
    ∧ ∀ y, prunable (props (presence y)) →
        ∃ y' y'' (e1 e2 : gmap string JsVal),
          onmessage stamp1 now1 (cursorMessage currentUser cursor) y = Ok y'
          ∧ props (presence y') !! U = Some (JObj e1)
          ∧ e1 !! "cursor" = Some cursor
          ∧ onmessage stamp2 now2 (joinMessage currentUser) y' = Ok y''
          ∧ props (presence y'') !! U = Some (JObj e2)
          ∧ e2 !! "cursor" = Some cursor
          ∧ e2 !! "lastSeen" = Some (JNum stamp2).
Proof.
  intros Hid HU Hne Hp Hready Hch Hopen Hx H1 H2 cursor. unfold broadcastCursor.
  rewrite (truthy_has_id currentUser Hid), Hready. cbn [negb orb].
  destruct (upsert_entry now stampSeen (get_opt currentUser "id")
              (EValue (JObj {[ "user" := currentUser; "cursor" := cursor;
                               "lastSeen" := JNum stampSeen ]}))
              x U
              {[ "user" := currentUser; "cursor" := cursor;
                 "lastSeen" := JNum stampSeen ]})
    as (x0 & Hup & (_ & _ & Ho & _ & Hc0 & Hcc0 & _) & Hentry); try done.
  fold cursor. rewrite Hup. cbn [mbind result_bind]. unfold postMessage.
  rewrite Hc0, Hch, Hcc0, Hopen. eexists. split; [reflexivity|].
  split; [cbn [outbox set_outbox]; by rewrite Ho|]. split.
  - eexists. split; [exact Hentry|].
    apply (entry_fields currentUser cursor stampSeen).
  - intros y Hpy.
    destruct (presence_message_entry stamp1 now1
                (cursorMessage currentUser cursor) y U)
      as (y' & Hmsg1 & Hentry1); try done.
    assert (Hpy' : prunable (props (presence y'))).
    { rewrite onmessage_presence in Hmsg1 by done.
      unfold handlePresenceMessage in Hmsg1. rewrite !get_truthy in Hmsg1 by done.
      cbn [mbind result_bind] in Hmsg1.
      change (get_opt (get_opt (cursorMessage currentUser cursor) "user") "id")
        with (get_opt currentUser "id") in Hmsg1.
      rewrite Hid in Hmsg1. cbn [negb] in Hmsg1.
      change (is_str (get_opt (cursorMessage currentUser cursor) "action") "leave")
        with false in Hmsg1.
      apply upsertPresence_Ok in Hmsg1 as [[? _] | (key & _ & _ & _ & ->)];
        [congruence|]. apply pruned_wellformed. }
    destruct (presence_message_entry stamp2 now2 (joinMessage currentUser) y' U)
      as (y'' & Hmsg2 & Hentry2); try done.
    change (get_opt (cursorMessage currentUser cursor) "cursor")
      with cursor in Hentry1.
    change (get_opt (joinMessage currentUser) "cursor")
      with JUndefined in Hentry2.
    change (get_opt (cursorMessage currentUser cursor) "user")
      with currentUser in Hentry1.
    change (get_opt (joinMessage currentUser) "user")
      with currentUser in Hentry2.
    assert (Hprev : obj_get (presence y') U
                    = JObj (({[ "user" := currentUser;
                                "cursor" := nullish cursor
                                  (get_opt (obj_get (presence y) U) "cursor");
                                "lastSeen" := JNum stamp1 ]} : gmap string JsVal)
                            ∪ own_props (obj_get (presence y) U)))
      by (unfold obj_get; by rewrite Hentry1).
    rewrite Hprev in Hentry2.
    destruct (entry_fields currentUser
                (nullish cursor (get_opt (obj_get (presence y) U) "cursor"))
                stamp1 (obj_get (presence y) U)) as (_ & Hc1 & _).
    cbn zeta in Hc1.
    assert (Hcur : get_opt
                     (JObj (({[ "user" := currentUser;
                                "cursor" := nullish cursor
                                  (get_opt (obj_get (presence y) U) "cursor");
                                "lastSeen" := JNum stamp1 ]} : gmap string JsVal)
                            ∪ own_props (obj_get (presence y) U))) "cursor"
                   = cursor)
      by (by apply get_opt_field).
    rewrite Hcur in Hentry2.
    eexists y', y'', _, _.
    split; [exact Hmsg1|]. split; [exact Hentry1|]. split; [exact Hc1|].
    split; [exact Hmsg2|]. split; [exact Hentry2|].
    destruct (entry_fields currentUser (nullish JUndefined cursor) stamp2
                (JObj (({[ "user" := currentUser;
                           "cursor" := nullish cursor
                             (get_opt (obj_get (presence y) U) "cursor");
                           "lastSeen" := JNum stamp1 ]} : gmap string JsVal)
                       ∪ own_props (obj_get (presence y) U))))
      as (_ & Hc2 & Hl2 & _).
    by split.
Qed.

Lemma readDocSnapshot_total window key room now :
  ∃ d, readDocSnapshot window key room now = Ok d.
Proof.
  unfold readDocSnapshot. destruct window as [st|]; simpl; [|by eexists].
  destruct (st !! key) as [[| |v]|]; simpl; try by eexists.
  destruct v; by eexists.
Qed.

Lemma mount_presence room st now now' :
  ∃ m, mount room st now now' = Ok m
       ∧ readPresenceSnapshot (Some st) (buildPresenceKey room) now' = Ok (presence m).
Proof.
  unfold mount.
  destruct (readDocSnapshot_total (Some st) ("room-doc:" +:+ room) room now)
    as (d & ->).
  rewrite readPresenceSnapshot_eq. by eexists.
Qed.

(** What a replica that mounts reads of a record that holds a snapshot as
    pruning returned it. *)
Lemma mount_on_record room st now now' (o : Obj) :
  wellformed o →
  st !! buildPresenceKey room = Some (JSON_stringify (JObj (props o))) →
  ∃ m, mount room st now now' = Ok m
       ∧ ∀ k, props (presence m) !! k = props o !! k ≫= reloaded now'.
Proof.
  intros Hwf Hst. destruct (mount_presence room st now now') as (m & Hm & Hread).
  exists m. split; [exact Hm|].
  destruct (prune_persisted now' o Hwf) as (back & Hback & Hk & _).
  rewrite readPresenceSnapshot_eq in Hread. cbn [mbind option_bind] in Hread.
  rewrite Hst in Hread. unfold JSON_stringify in Hread. rewrite Hback in Hread.
  injection Hread as <-. exact Hk.
Qed.

Lemma obj_delete_wellformed k o : wellformed o → wellformed (obj_delete k o).
Proof.
  intros [Hnone Hp]. split.
  - cbn [obj_delete props]. destruct (decide (k = "__proto__")) as [->|Hne].
    + by rewrite lookup_delete_eq.
    + by rewrite lookup_delete_ne.
  - by apply map_Forall_delete.
Qed.

(** X17. Leaving. With the channel open, as it is when the page unloads,
    the handler posts one ['leave'] message and rewrites the presence
    record without the local user, leaving its own registry state as it
    is, and a replica that mounts on the storage afterwards does not see
    the user. When the component unmounts, the same body runs as a
    cleanup after the channel effect's cleanup has closed the channel: it
    throws at [postMessage] and the record is not rewritten. A peer that
    receives the ['leave'] message drops the user. *)
Theorem leave_is_announced_and_persisted now currentUser x c U :
  truthy (get_opt currentUser "id") = true →
  ToPropertyKey (get_opt currentUser "id") = Ok U →
  channelRef x = Some c →
  (channelClosed x = false →
   ∃ x' snap,
     announceLeave now currentUser x = Ok x'
     ∧ outbox x' = outbox x ++ [leaveMessage currentUser]
     ∧ presence x' = presence x
     ∧ localStorage x' !! presenceStorageKey x = Some (ItemJson (JObj snap))
     ∧ snap !! U = None
     ∧ ∀ t t', ∃ m, mount (roomId x) (localStorage x') t t' = Ok m
                    ∧ props (presence m) !! U = None)
  ∧ announceLeave now currentUser (closeChannel x) = Throw DOMException
  ∧ ∀ stamp' now' y,
      prunable (delete U (props (presence y))) →
      ∃ y', onmessage stamp' now' (leaveMessage currentUser) y = Ok y'
            ∧ props (presence y') !! U = None.
Proof.
  intros Hid HU Hch. split; [|split].
  - intros Hopen. unfold announceLeave, postMessage. rewrite Hch, Hopen.
    cbn [mbind result_bind].
    set (r1 := set_outbox (outbox x ++ [leaveMessage currentUser]) x).
    unfold removeUserFromPresenceSnapshot. rewrite Hid. cbn [negb].
    destruct (readPresenceSnapshot (Some (localStorage r1)) (presenceStorageKey r1) now)
      as [prev|] eqn:Hread; [|by rewrite readPresenceSnapshot_eq in Hread].
    apply readPresenceSnapshot_wellformed in Hread as Hwf.
    rewrite HU. cbn [mbind result_bind].
    eexists _, _. split; [reflexivity|]. split; [done|]. split; [done|].
    split; [|split].
    + cbn [localStorage set_presence persistPresenceSnapshot default from_option id].
      change (presenceStorageKey r1) with (presenceStorageKey x).
      rewrite lookup_insert_eq. unfold JSON_stringify. by rewrite json_norm_obj.
    + cbn [obj_delete props]. by rewrite lookup_omap, lookup_delete_eq.
    + intros t t'.
      destruct (mount_on_record (roomId x)
                  (localStorage
                     (set_presence (presence r1)
                        (persistPresenceSnapshot (Some (localStorage r1))
                           (presenceStorageKey r1) (obj_delete U prev)) r1))
                  t t' (obj_delete U prev)) as (m & Hm & Hk).
      * by apply obj_delete_wellformed.
      * cbn [localStorage set_presence persistPresenceSnapshot default from_option id].
        change (buildPresenceKey (roomId x)) with (presenceStorageKey r1).
        by rewrite lookup_insert_eq.
      * exists m. split; [exact Hm|]. rewrite Hk. cbn [obj_delete props].
        by rewrite lookup_delete_eq.
  - unfold announceLeave, postMessage, closeChannel. rewrite Hch. done.
  - intros stamp' now' y Hpy. eexists. split.
    + rewrite onmessage_presence by done.
      rewrite handlePresenceMessage_leave by done.
      apply (upsertPresence_truthy _ _ _ _ U); done.
    + cbn zeta. cbn [presence set_presence].
      rewrite pruned_lookup, upsertNext_null, lookup_delete_eq.
      by destruct (bool_decide _).
Qed.

(** ** The presence record mirrors the registry *)

(** X18. After an upsert that returns, the presence record holds the
    registry the replica exposes, so a peer learns exactly that registry
    from the record, whether it mounts on the storage or handles the
    [storage] event of the write: key by key it has the writer's entries
    that are still fresh at its own time. The peer's previous registry
    plays no part, and handling the event writes nothing back. *)
Theorem record_mirrors_registry nowx userId entryOrUpdater x x' y t t' nowy :
  truthy userId = true →
  roomId y = roomId x →
  upsertPresence nowx userId entryOrUpdater x = Ok x' →
  (∃ m, mount (roomId x) (localStorage x') t t' = Ok m
        ∧ ∀ k, props (presence m) !! k = props (presence x') !! k ≫= reloaded t')
  ∧ ∃ y',
      handlePresenceStorage nowy
        {| key := Some (presenceStorageKey x');
           newValue := localStorage x' !! presenceStorageKey x' |} y = Ok y'
      ∧ (∀ k, props (presence y') !! k = props (presence x') !! k ≫= reloaded nowy)
      ∧ localStorage y' = localStorage y
      ∧ docState y' = docState y.
Proof.
  intros Ht Hroom [[? _] | (U & _ & _ & _ & ->)]%upsertPresence_Ok; [congruence|].
  cbn zeta. set (written := pruned nowx _).
  assert (Hwf : wellformed written) by apply pruned_wellformed.
  assert (Hrec : localStorage
                   (set_presence written
                      (persistPresenceSnapshot (Some (localStorage x))
                         (presenceStorageKey x) written) x)
                 !! presenceStorageKey x
                 = Some (JSON_stringify (JObj (props written)))).
  { simpl. by rewrite lookup_insert_eq. }
  split.
  - apply mount_on_record; [done|exact Hrec].
  - unfold handlePresenceStorage. cbn [key newValue].
    change (presenceStorageKey (set_presence written _ x))
      with (presenceStorageKey x).
    rewrite Hrec.
    rewrite bool_decide_eq_true_2
      by (unfold presenceStorageKey; by rewrite Hroom).
    unfold JSON_stringify.
    cbn [negb orb raw_falsy default from_option id JSON_parse mbind result_bind].
    rewrite truthy_json_norm. cbn [truthy].
    destruct (prune_persisted nowy written Hwf) as (back & Hback & Hk & _).
    rewrite Hback. cbn [mbind result_bind try_catch].
    eexists. split; [done|]. by split.
Qed.

(** ** The stored identity *)

(** X19. [readCurrentUserFromStorage] never throws, and what it returns is
    [null] or the stored value, the latter only when that value has a
    truthy [id] and a truthy [name]. *)
Theorem readCurrentUser_validates window :
  ∃ v, readCurrentUserFromStorage window = Ok v
       ∧ (v = JNull
          ∨ (window ≫= (.!! CURRENT_USER_KEY) = Some (ItemJson v)
             ∧ truthy (get_opt v "id") = true
             ∧ truthy (get_opt v "name") = true)).
Proof.
  unfold readCurrentUserFromStorage. destruct window as [st|]; simpl; [|by eauto].
  destruct (st !! CURRENT_USER_KEY) as [[| |v]|]; simpl; try by eauto.
  destruct (truthy (get_opt v "id")) eqn:Hid; simpl; [|by eauto].
  destruct (truthy (get_opt v "name")) eqn:Hname; simpl; [|by eauto].
  exists v. split; [done|]. right. by repeat split.
Qed.

(** X20. Round trip of the identity: reading what [persistCurrentUser] wrote
    gives the profile back, as [JSON] returns it, when the profile has a
    truthy [id] and a truthy [name], and [null] for any other value. *)
Theorem currentUser_round_trip st user :
  readCurrentUserFromStorage (persistCurrentUser (Some st) user)
  = Ok (if truthy (get_opt user "id") && truthy (get_opt user "name")
        then json_norm user else JNull).
Proof.
  unfold readCurrentUserFromStorage, persistCurrentUser.
  rewrite lookup_insert_eq. destruct user as [| |b|n|s|m]; try done.
  unfold JSON_stringify.
  cbn [raw_falsy default from_option id JSON_parse mbind result_bind].
  rewrite !get_opt_json_norm, !truthy_json_norm.
  by destruct (truthy (get_opt (JObj m) "id") && truthy (get_opt (JObj m) "name")).
Qed.

(** ** Presence without a channel *)

(** X23. Where the channel is not ready, the local user is registered
    once, by the registering effect, and never refreshed: the announcing
    effect and [broadcastCursor] return at their guard. The user's own
    entry is therefore removed from the local registry by a tick of the
    pruning timer later than 45000 ms after the registration. The user id
    converts to a key other than ["__proto__"], and the registry is one
    the pruning test evaluates on. *)
Theorem offline_user_expires_locally stamp now tick currentUser x U :
  truthy (get_opt currentUser "id") = true →
  ToPropertyKey (get_opt currentUser "id") = Ok U →
  U ≠ "__proto__" →
  prunable (props (presence x)) →
  isChannelReady x = false →
  stamp ≠ 0 →
  now - stamp ≤ 45000 →
  stamp + 45000 < tick →
  ∃ x1 x2,
    registerSelf stamp now currentUser x = Ok x1
    ∧ (∃ e : gmap string JsVal,
         props (presence x1) !! U = Some (JObj e)
         ∧ e !! "lastSeen" = Some (JNum stamp))
    ∧ (∀ s n, announceJoin s n currentUser x1 = Ok x1)
    ∧ (∀ sc ss n caret, broadcastCursor sc ss n currentUser caret x1 = Ok x1)
    ∧ pruneTick tick x1 = Ok x2
    ∧ props (presence x2) !! U = None.
Proof.
  intros Hid HU Hne Hp Hready Hstamp Hle Hlate. unfold registerSelf.
  rewrite (truthy_has_id currentUser Hid). cbn [negb].
  destruct (upsert_entry now stamp (get_opt currentUser "id")
              (EValue (selfEntry currentUser stamp)) x U
              {[ "user" := currentUser; "lastSeen" := JNum stamp ]})
    as (x1 & Hup & (_ & _ & _ & _ & _ & _ & Hready1 & _) & Hentry); try done.
  assert (Hls : (({[ "user" := currentUser; "lastSeen" := JNum stamp ]}
                   : gmap string JsVal)
                 ∪ own_props (obj_get (presence x) U)) !! "lastSeen"
                = Some (JNum stamp))
    by (apply lookup_union_Some_l; by rewrite lookup_insert_ne, lookup_singleton_eq).
  assert (Hwf1 : wellformed (presence x1)).
  { apply upsertPresence_Ok in Hup as [[? _] | (key & _ & _ & _ & ->)];
      [congruence|]. apply pruned_wellformed. }
  destruct (pruneTick_total tick x1) as (x2 & Htick); [apply Hwf1|].
  exists x1, x2. split; [exact Hup|]. split; [by eauto|]. split; [|split; [|split]].
  - intros s n. unfold announceJoin. rewrite Hready1, Hready. by rewrite orb_true_r.
  - intros sc ss n caret. unfold broadcastCursor. rewrite Hready1, Hready.
    by rewrite orb_true_r.
  - exact Htick.
  - eapply tick_removes; [exact Hentry| |exact Htick].
    rewrite (passes_numeric tick _ stamp); [|by unfold get_opt; rewrite Hls|done].
    apply Z.leb_gt. lia.
Qed.

(** ** The keys and values that do not convert *)

(** X24. A user whose id is ["__proto__"] is never registered: on a
    registry the component built, an upsert under that id, whatever the
    value or the updater, returns with the registry pruned and nothing
    else, and with no entry under the id. *)
Theorem upsert_under_proto_registers_nothing now entryOrUpdater r :
  wellformed (presence r) →
  ∃ r',
    upsertPresence now (JStr "__proto__") entryOrUpdater r = Ok r'
    ∧ prunePresenceSnapshot now (JObj (props (presence r))) = Ok (presence r')
    ∧ props (presence r') !! "__proto__" = None.
Proof.
  intros [Hnone Hp].
  assert (Hnext : props (upsertNext "__proto__" entryOrUpdater (presence r))
                  = props (presence r)).
  { rewrite upsertNext_props. cbn zeta. destruct (truthy _).
    - by rewrite !bool_decide_eq_true_2.
    - by apply delete_id. }
  eexists. split.
  { apply (upsertPresence_truthy _ _ _ _ "__proto__"); [done|done|].
    by rewrite Hnext. }
  cbn zeta. rewrite Hnext. cbn [presence set_presence].
  split; [by apply prune_closed|apply pruned_no_proto_key].
Qed.

(** X25. What does not convert makes the registry throw. An upsert whose
    user id is an object with an own [toString] throws a [TypeError], and
    so does the channel handler on a presence message that names such an
    id. Pruning throws exactly when some entry has a [lastSeen] that is
    such an object. The readers of the durable record catch it:
    [readPresenceSnapshot] and [handlePresenceStorage] always return. *)
Theorem unconvertible_values_throw now :
  (∀ userId entryOrUpdater r,
     convertible userId = false →
     upsertPresence now userId entryOrUpdater r = Throw TypeError)
  ∧ (∀ stamp data r,
       is_str (get_opt data "type") "presence" = true →
       convertible (get_opt (get_opt data "user") "id") = false →
       onmessage stamp now data r = Throw TypeError)
  ∧ (∀ s, prunePresenceSnapshot now s = Throw TypeError
          ↔ ¬ prunable (own_props (nullish s (JObj ∅))))
  ∧ (∀ window key, ∃ o, readPresenceSnapshot window key now = Ok o)
  ∧ (∀ ev r, ∃ r', handlePresenceStorage now ev r = Ok r').
Proof.
  assert (Hup : ∀ userId entryOrUpdater r,
            convertible userId = false →
            upsertPresence now userId entryOrUpdater r = Throw TypeError).
  { intros userId eou r Hc. unfold upsertPresence.
    assert (Ht : truthy userId = true) by (by destruct userId).
    rewrite Ht. cbn [negb]. by rewrite ToPropertyKey_unconvertible. }
  split; [exact Hup|]. split; [|split; [|split]].
  - intros stamp data r Hty Hc.
    assert (Hid : truthy (get_opt (get_opt data "user") "id") = true)
      by (by destruct (get_opt (get_opt data "user") "id")).
    assert (Ht : truthy data = true) by (by destruct data).
    rewrite onmessage_presence by done. unfold handlePresenceMessage.
    rewrite !get_truthy by done. cbn [mbind result_bind]. rewrite Hid. cbn [negb].
    destruct (is_str _ "leave"); by apply Hup.
  - intros s. destruct (prune_cases now s) as [[Hp ->]|[Hnp ->]]; split; done.
  - intros window key. eexists. apply readPresenceSnapshot_eq.
  - intros ev r. apply handlePresenceStorage_total.
Qed.

End MoreProperties.
(** ** Initials *)

Section InitialsProperties.
Context `{!JsText}.

Lemma append_empty_r (s : string) : s +:+ "" = s.
Proof.
  induction s as [|c s IH]; [done|].
  change (String c (s +:+ "") = String c s). by rewrite IH.
Qed.

Lemma split_ws_spaces sp s :
  Forall (λ c, isWhiteSpace c = true) sp →
  split_ws (sp ++ s) [] true = split_ws s [] true.
Proof.
  induction 1 as [|c sp Hc _ IH]; [done|]. simpl. by rewrite Hc.
Qed.

Lemma split_ws_word w s piece b :
  Forall (λ c, isWhiteSpace c = false) w →
  split_ws (w ++ s) piece b
  = match w with
    | [] => split_ws s piece b
    | _ => split_ws s (rev w ++ piece) false
    end.
Proof.
  intros Hw. revert piece b. induction Hw as [|c w Hc _ IH]; intros piece b.
  - done.
  - simpl. rewrite Hc, IH. rewrite <- app_assoc. by destruct w.
Qed.

Lemma split_ws_after_word w s piece b :
  w ≠ [] → Forall (λ c, isWhiteSpace c = false) w →
  (s = [] ∨ ∃ c s', s = c :: s' ∧ isWhiteSpace c = true) →
  ∃ more, split_ws (w ++ s) piece b = (rev piece ++ w) :: more
          ∧ (s = [] → more = [])
          ∧ (∀ c s', s = c :: s' → more = split_ws s' [] true).
Proof.
  intros Hne Hw Hs. rewrite split_ws_word by done.
  destruct w as [|c0 w0]; [done|].
  assert (Hrev : rev (rev (c0 :: w0) ++ piece) = rev piece ++ c0 :: w0)
    by (by rewrite rev_app_distr, rev_involutive).
  destruct Hs as [-> | (c & s' & -> & Hc)].
  - exists []. cbn [split_ws]. by rewrite Hrev.
  - exists (split_ws s' [] true). cbn [split_ws]. rewrite Hc, Hrev.
    split; [done|]. split; [done|]. by intros ? ? [= _ ->].
Qed.

Lemma split_ws_two_words w1 sp1 w2 rest b :
  word w1 → spaces sp1 → sp1 ≠ [] → word w2 →
  (rest = [] ∨ ∃ c rest', rest = c :: rest' ∧ isWhiteSpace c = true) →
  ∃ more, split_ws (w1 ++ sp1 ++ w2 ++ rest) [] b = w1 :: w2 :: more.
Proof.
  intros [Hne1 Hw1] Hsp1 Hnsp [Hne2 Hw2] Hrest.
  destruct sp1 as [|c sp1']; [done|]. apply Forall_cons in Hsp1 as [Hc Hsp1].
  destruct (split_ws_after_word w1 ((c :: sp1') ++ w2 ++ rest) [] b Hne1 Hw1)
    as (more1 & -> & _ & Hmore1); [right; by eauto|].
  rewrite (Hmore1 c (sp1' ++ w2 ++ rest) eq_refl), split_ws_spaces by done.
  destruct (split_ws_after_word w2 rest [] true Hne2 Hw2 Hrest)
    as (more2 & -> & _). by eexists.
Qed.

Lemma split_ws_one_word w sp b :
  word w → spaces sp → split_ws (w ++ sp) [] b = w :: match sp with
                                                       | [] => []
                                                       | _ => [[]]
                                                       end.
Proof.
  intros [Hne Hw] Hsp.
  destruct (split_ws_after_word w sp [] b Hne Hw) as (more & -> & Hnil & Hcons).
  { destruct Hsp as [|c sp Hc Hsp]; [by left|right; by eauto]. }
  destruct Hsp as [|c sp Hc Hsp]; [by rewrite Hnil|].
  rewrite (Hcons c sp eq_refl). f_equal.
  rewrite <- (app_nil_r sp), split_ws_spaces by done. done.
Qed.

Lemma split_ws_leading sp s :
  spaces sp →
  filter (λ seg, seg ≠ []) (split_ws (sp ++ s) [] false)
  = filter (λ seg, seg ≠ [])
      (split_ws s [] (match sp with [] => false | _ => true end)).
Proof.
  intros Hsp. destruct Hsp as [|c sp Hc Hsp]; [done|].
  cbn [app split_ws rev]. rewrite Hc, split_ws_spaces by done.
  by rewrite filter_cons_False by (by intros ?).
Qed.

(** X21. The initials are those of the first two words: white space before the
    first word, the run of white space between the two, and everything
    after the second word, play no part. *)
Theorem getInitials_first_two_words sp0 w1 sp1 w2 rest :
  spaces sp0 → word w1 → spaces sp1 → sp1 ≠ [] → word w2 →
  (rest = [] ∨ ∃ c rest', rest = c :: rest' ∧ isWhiteSpace c = true) →
  getInitials (JStr (String.string_of_list_ascii (sp0 ++ w1 ++ sp1 ++ w2 ++ rest)))
  = Ok (initial w1 +:+ initial w2).
Proof.
  intros Hsp0 Hw1 Hsp1 Hnsp Hw2 Hrest. unfold getInitials, initials_of.
  rewrite String.list_ascii_of_string_of_list_ascii, split_ws_leading by done.
  destruct (split_ws_two_words w1 sp1 w2 rest
              (match sp0 with [] => false | _ => true end))
    as (more & ->); try done.
  rewrite !filter_cons_True by (apply Hw1 || apply Hw2).
  cbn [take fmap list_fmap foldr]. by rewrite append_empty_r.
Qed.

(** X22. The edge cases of [getInitials]: a missing name and a name made of
    white space only have no initials, a name of one word has the initial
    of that word, and a name that is neither a string nor [undefined]
    ([null] included) makes it throw. *)
Theorem getInitials_edges sp0 w sp1 :
  spaces sp0 → word w → spaces sp1 →
  getInitials JUndefined = Ok ""
  ∧ getInitials (JStr (String.string_of_list_ascii sp0)) = Ok ""
  ∧ getInitials (JStr (String.string_of_list_ascii (sp0 ++ w ++ sp1)))
    = Ok (initial w)
  ∧ ∀ v, typeof v ≠ TString → typeof v ≠ TUndefined →
         getInitials v = Throw TypeError.
Proof.
  intros Hsp0 Hw Hsp1. split; [done|]. split; [|split].
  - unfold getInitials, initials_of.
    rewrite String.list_ascii_of_string_of_list_ascii.
    rewrite <- (app_nil_r sp0), split_ws_leading by done.
    by destruct sp0.
  - unfold getInitials, initials_of.
    rewrite String.list_ascii_of_string_of_list_ascii, split_ws_leading by done.
    rewrite split_ws_one_word by done.
    rewrite filter_cons_True by apply Hw.
    destruct sp1; cbn [filter list_filter take fmap list_fmap foldr];
      rewrite ?filter_cons_False, ?filter_nil by (by intros ?);
      cbn [take fmap list_fmap foldr]; by rewrite append_empty_r.
  - intros v Hs Hu. by destruct v.
Qed.

End InitialsProperties.

(** * The further properties at sample inputs *)

Lemma prune_then_prune_later_witness :
  10 ≤ 70000
  ∧ ∀ rt : JsRuntime,
    ∃ o1 o2 o,
      prunePresenceSnapshot 10
        (JObj {[ "u1" := entry_at "u1" 1000; "u2" := entry_at "u2" 60000 ]}) = Ok o1
      ∧ prunePresenceSnapshot 70000 (JObj (props o1)) = Ok o2
      ∧ prunePresenceSnapshot 70000
          (JObj {[ "u1" := entry_at "u1" 1000; "u2" := entry_at "u2" 60000 ]}) = Ok o
      ∧ props o2 = props o.
Proof.
  split; [lia|]. intros rt.
  assert (H1 : ∃ o1, prunePresenceSnapshot 10
                       (JObj {[ "u1" := entry_at "u1" 1000;
                                "u2" := entry_at "u2" 60000 ]}) = Ok o1)
    by (eexists; vm_compute; reflexivity).
  destruct H1 as (o1 & H1).
  pose proof (prune_then_prune_later 10 70000
                (JObj {[ "u1" := entry_at "u1" 1000; "u2" := entry_at "u2" 60000 ]})
                ltac:(lia)) as Hlater.
  rewrite H1 in Hlater. destruct Hlater as (o2 & o & H2 & H3 & Heq).
  exists o1, o2, o. split; [exact H1|]. split; [exact H2|]. split; [exact H3|exact Heq].
Defined.

Lemma presence_record_round_trip_witness :
  wellformed (new_object {[ "u1" := entry_at "u1" 50 ]})
  ∧ ∀ rt : JsRuntime,
    ∃ back,
      readPresenceSnapshot
        (persistPresenceSnapshot (Some ∅) "room-presence:lobby"
           (new_object {[ "u1" := entry_at "u1" 50 ]}))
        "room-presence:lobby" 100 = Ok back
      ∧ props back !! "u1" = Some (entry_at "u1" 50).
Proof.
  assert (Hwf : wellformed (new_object {[ "u1" := entry_at "u1" 50 ]})).
  { split; [reflexivity|]. apply map_Forall_singleton. reflexivity. }
  split; [exact Hwf|]. intros rt.
  destruct (presence_record_round_trip ∅ "room-presence:lobby"
              (new_object {[ "u1" := entry_at "u1" 50 ]}) 100 Hwf)
    as (back & Hread & Hk & _).
  exists back. split; [exact Hread|]. rewrite Hk. vm_compute. reflexivity.
Defined.

Lemma pruneTick_settles_witness :
  wellformed (presence (replica_holding {| text := ""; updatedAt := 0 |}
                          {[ "u1" := entry_at "u1" 50 ]}))
  ∧ ∀ rt : JsRuntime,
      pruneTick 100 (replica_holding {| text := ""; updatedAt := 0 |}
                       {[ "u1" := entry_at "u1" 50 ]})
      = Ok (replica_holding {| text := ""; updatedAt := 0 |}
              {[ "u1" := entry_at "u1" 50 ]}).
Proof.
  assert (Hwf : wellformed (presence (replica_holding {| text := ""; updatedAt := 0 |}
                                        {[ "u1" := entry_at "u1" 50 ]}))).
  { split; [reflexivity|]. apply map_Forall_singleton. reflexivity. }
  split; [exact Hwf|]. intros rt.
  destruct (pruneTick_settles 100
              (replica_holding {| text := ""; updatedAt := 0 |}
                 {[ "u1" := entry_at "u1" 50 ]}) Hwf) as (r' & Htick & _ & Hid & _).
  rewrite Htick. f_equal. apply Hid. apply map_Forall_singleton. reflexivity.
Defined.

Lemma edit_then_mount_witness :
  wellformed (presence (replica_holding {| text := ""; updatedAt := 0 |} ∅))
  ∧ ∀ rt : JsRuntime,
    ∃ r1 m,
      handleInput "hello" 1000 1001 1002 1003 (profile "u1" "Ann") None
        (replica_holding {| text := ""; updatedAt := 0 |} ∅) = Ok r1
      ∧ mount "lobby" (localStorage r1) 2000 2000 = Ok m
      ∧ docState m = {| text := "hello"; updatedAt := 1000 |}.
Proof.
  assert (Hwf : wellformed (presence (replica_holding {| text := ""; updatedAt := 0 |} ∅))).
  { split; [reflexivity|]. apply map_Forall_empty. }
  split; [exact Hwf|]. intros rt.
  destruct (edit_then_mount "hello" 1000 1001 1002 1003 (profile "u1" "Ann") None
              (replica_holding {| text := ""; updatedAt := 0 |} ∅) 2000 2000)
    as (Hmount & Hruns).
  destruct Hruns as (r1 & Hin).
  - exact Hwf.
  - reflexivity.
  - reflexivity.
  - destruct (Hmount r1 Hin) as (m & Hm & Hdoc & _).
    exists r1, m. split; [exact Hin|]. split; [exact Hm|exact Hdoc].
Defined.

Lemma redelivery_is_noop_witness :
  candidate ping_message {| text := "x"; updatedAt := 100 |}
  ∧ is_str (get_opt (JObj ping_message) "type") "presence" = false
  ∧ ∀ rt : JsRuntime,
    ∃ r', onmessage 7 7 (JObj ping_message)
            (replica_holding {| text := ""; updatedAt := 0 |} ∅) = Ok r'
          ∧ onmessage 8 8 (JObj ping_message) r' = Ok r'.
Proof.
  split; [split; reflexivity|]. split; [reflexivity|]. intros rt.
  destruct (redelivery_is_noop 7 7 8 8 ping_message
              {| text := "x"; updatedAt := 100 |}
              (replica_holding {| text := ""; updatedAt := 0 |} ∅))
    as (r' & H1 & H2 & _).
  - split; reflexivity.
  - reflexivity.
  - exists r'. split; [exact H1|exact H2].
Defined.

Lemma run_keeps_coherent_witness :
  coherent (replica_holding {| text := ""; updatedAt := 0 |} ∅)
  ∧ ∀ rt : JsRuntime,
    ∃ r', run [(8, Input "a" 5 6 7 (profile "u1" "Ann") (Some (JNum 12, JNum 40)));
               (9, Message 9 (JObj join_payload)); (10, Tick)]
            (replica_online {| text := ""; updatedAt := 0 |} ∅) = Ok r'
          ∧ coherent r'.
Proof.
  split; [reflexivity|]. intros rt.
  destruct (run_keeps_coherent
              [(8, Input "a" 5 6 7 (profile "u1" "Ann") (Some (JNum 12, JNum 40)));
               (9, Message 9 (JObj join_payload)); (10, Tick)]
              (replica_online {| text := ""; updatedAt := 0 |} ∅) eq_refl)
    as (_ & Hruns).
  destruct Hruns as (r' & Hrun & Hco & _).
  - split; [reflexivity|]. apply map_Forall_empty.
  - reflexivity.
  - apply Forall_cons; split; [reflexivity|].
    apply Forall_cons; split; [reflexivity|].
    apply Forall_cons; split; [exact I|]. apply Forall_nil_2.
  - exists r'. split; [exact Hrun|exact Hco].
Defined.

Lemma remote_events_never_rewind_witness :
  forallb (λ te : Z * Event, negb (is_input te.2))
    [(6, Message 6 (JObj ping_message)); (7, Tick)] = true
  ∧ ∀ rt : JsRuntime,
    ∃ r', run [(6, Message 6 (JObj ping_message)); (7, Tick)]
            (replica_holding {| text := ""; updatedAt := 0 |} ∅) = Ok r'
          ∧ lastUpdateRef (replica_holding {| text := ""; updatedAt := 0 |} ∅)
            ≤ lastUpdateRef r'.
Proof.
  split; [reflexivity|]. intros rt.
  assert (Hrun : ∃ r', run [(6, Message 6 (JObj ping_message)); (7, Tick)]
                         (replica_holding {| text := ""; updatedAt := 0 |} ∅) = Ok r')
    by (eexists; vm_compute; reflexivity).
  destruct Hrun as (r' & Hrun). exists r'. split; [exact Hrun|].
  exact (remote_events_never_rewind
           [(6, Message 6 (JObj ping_message)); (7, Tick)]
           (replica_holding {| text := ""; updatedAt := 0 |} ∅) r' eq_refl Hrun).
Defined.

Lemma presence_events_spare_document_witness :
  presence_event Tick = true
  ∧ ∀ rt : JsRuntime,
    ∃ r', step 50000 Tick
            (replica_holding {| text := "foo"; updatedAt := 100 |}
               {[ "u1" := entry_at "u1" 1 ]}) = Ok r'
          ∧ docState r' = {| text := "foo"; updatedAt := 100 |}.
Proof.
  split; [reflexivity|]. intros rt.
  assert (Hstep : ∃ r', step 50000 Tick
                          (replica_holding {| text := "foo"; updatedAt := 100 |}
                             {[ "u1" := entry_at "u1" 1 ]}) = Ok r')
    by (eexists; vm_compute; reflexivity).
  destruct Hstep as (r' & Hstep). exists r'. split; [exact Hstep|].
  destruct (presence_events_spare_document 50000 Tick
              (replica_holding {| text := "foo"; updatedAt := 100 |}
                 {[ "u1" := entry_at "u1" 1 ]}) r' eq_refl Hstep)
    as (Hdoc & _).
  exact Hdoc.
Defined.

Lemma document_events_spare_presence_witness :
  document_event (Message 6 (JObj ping_message)) = true
  ∧ ∀ rt : JsRuntime,
    ∃ r', step 6 (Message 6 (JObj ping_message))
            (replica_holding {| text := "foo"; updatedAt := 0 |}
               {[ "u1" := entry_at "u1" 1 ]}) = Ok r'
          ∧ presence r' = new_object {[ "u1" := entry_at "u1" 1 ]}.
Proof.
  split; [reflexivity|]. intros rt.
  destruct (document_events_spare_presence 6 (Message 6 (JObj ping_message))
              (replica_holding {| text := "foo"; updatedAt := 0 |}
                 {[ "u1" := entry_at "u1" 1 ]})) as (Hdoc & _).
  destruct (Hdoc eq_refl) as (r' & Hstep & Hp & _).
  exists r'. split; [exact Hstep|exact Hp].
Defined.

Lemma edit_reaches_peer_witness :
  channelRef (replica_online {| text := "foo"; updatedAt := 100 |} ∅)
  = Some "room-channel:lobby"
  ∧ ∀ rt : JsRuntime,
    ∃ x1,
      handleInput "foobar" 150 151 152 153 (profile "u1" "Ann")
        (Some (JNum 12, JNum 40))
        (replica_online {| text := "foo"; updatedAt := 100 |} ∅) = Ok x1
      ∧ outbox x1
        = [docMessage {| text := "foobar"; updatedAt := 150 |};
           cursorMessage (profile "u1" "Ann")
             (JObj {[ "x" := JNum 12; "y" := JNum 40; "updatedAt" := JNum 151 ]})].
Proof.
  split; [reflexivity|]. intros rt.
  assert (Hin : ∃ x1, handleInput "foobar" 150 151 152 153 (profile "u1" "Ann")
                        (Some (JNum 12, JNum 40))
                        (replica_online {| text := "foo"; updatedAt := 100 |} ∅)
                      = Ok x1)
    by (eexists; vm_compute; reflexivity).
  destruct Hin as (x1 & Hin). exists x1. split; [exact Hin|].
  destruct (edit_reaches_peer "foobar" 150 151 152 153 (profile "u1" "Ann")
              (Some (JNum 12, JNum 40))
              (replica_online {| text := "foo"; updatedAt := 100 |} ∅)
              "room-channel:lobby" x1 eq_refl Hin) as (_ & Hout & _).
  exact Hout.
Defined.

Lemma presence_message_refreshes_witness :
  join_payload !! "type" = Some (JStr "presence")
  ∧ truthy (get_opt (get_opt (JObj join_payload) "user") "id") = true
  ∧ 100 - 90 ≤ 45000
  ∧ ∀ rt : JsRuntime,
    ∃ r' (entry : gmap string JsVal),
      onmessage 90 100 (JObj join_payload)
        (replica_holding {| text := ""; updatedAt := 0 |} ∅) = Ok r'
      ∧ props (presence r') !! "u1" = Some (JObj entry)
      ∧ entry !! "lastSeen" = Some (JNum 90).
Proof.
  split; [reflexivity|]. split; [reflexivity|]. split; [lia|]. intros rt.
  destruct (presence_message_refreshes 90 100 join_payload
              (replica_holding {| text := ""; updatedAt := 0 |} ∅) "u1")
    as (r' & entry & Hmsg & Hentry & _ & Hseen & _).
  - reflexivity.
  - reflexivity.
  - reflexivity.
  - reflexivity.
  - discriminate.
  - apply map_Forall_empty.
  - lia.
  - exists r', entry. split; [exact Hmsg|]. split; [exact Hentry|exact Hseen].
Defined.

Lemma join_reaches_peer_witness :
  truthy (get_opt (profile "u1" "Ann") "id") = true
  ∧ 100 - 90 ≤ 45000
  ∧ 200 - 190 ≤ 45000
  ∧ ∀ rt : JsRuntime,
    ∃ x1,
      announceJoin 90 100 (profile "u1" "Ann")
        (replica_online {| text := ""; updatedAt := 0 |} ∅) = Ok x1
      ∧ outbox x1 = [joinMessage (profile "u1" "Ann")].
Proof.
  split; [reflexivity|]. split; [lia|]. split; [lia|]. intros rt.
  destruct (join_reaches_peer 90 100 190 200 (profile "u1" "Ann")
              (replica_online {| text := ""; updatedAt := 0 |} ∅)
              "room-channel:lobby" "u1")
    as (x1 & Hjoin & Hout & _).
  - reflexivity.
  - reflexivity.
  - discriminate.
  - apply map_Forall_empty.
  - reflexivity.
  - reflexivity.
  - reflexivity.
  - lia.
  - lia.
  - exists x1. split; [exact Hjoin|exact Hout].
Defined.

Lemma cursor_reaches_peer_and_stays_witness :
  truthy (get_opt (profile "u1" "Ann") "id") = true
  ∧ 100 - 95 ≤ 45000
  ∧ ∀ rt : JsRuntime,
    ∃ x1,
      broadcastCursor 90 95 100 (profile "u1" "Ann") (Some (JNum 12, JNum 40))
        (replica_online {| text := ""; updatedAt := 0 |} ∅) = Ok x1
      ∧ outbox x1
        = [cursorMessage (profile "u1" "Ann")
             (JObj {[ "x" := JNum 12; "y" := JNum 40; "updatedAt" := JNum 90 ]})].
Proof.
  split; [reflexivity|]. split; [lia|]. intros rt.
  destruct (cursor_reaches_peer_and_stays 90 95 100 190 200 290 300
              (profile "u1" "Ann") (JNum 12) (JNum 40)
              (replica_online {| text := ""; updatedAt := 0 |} ∅)
              "room-channel:lobby" "u1")
    as (x1 & Hcur & Hout & _).
  - reflexivity.
  - reflexivity.
  - discriminate.
  - apply map_Forall_empty.
  - reflexivity.
  - reflexivity.
  - reflexivity.
  - lia.
  - lia.
  - lia.
  - exists x1. split; [exact Hcur|exact Hout].
Defined.

Lemma leave_is_announced_and_persisted_witness :
  truthy (get_opt (profile "u1" "Ann") "id") = true
  ∧ ∀ rt : JsRuntime,
      (∃ x' snap,
         announceLeave 100 (profile "u1" "Ann")
           (replica_online {| text := ""; updatedAt := 0 |}
              {[ "u1" := entry_at "u1" 90 ]}) = Ok x'
         ∧ outbox x' = [leaveMessage (profile "u1" "Ann")]
         ∧ localStorage x' !! "room-presence:lobby" = Some (ItemJson (JObj snap))
         ∧ snap !! "u1" = None)
      ∧ announceLeave 100 (profile "u1" "Ann")
          (closeChannel (replica_online {| text := ""; updatedAt := 0 |}
                           {[ "u1" := entry_at "u1" 90 ]}))
        = Throw DOMException.
Proof.
  split; [reflexivity|]. intros rt.
  destruct (leave_is_announced_and_persisted 100 (profile "u1" "Ann")
              (replica_online {| text := ""; updatedAt := 0 |}
                 {[ "u1" := entry_at "u1" 90 ]})
              "room-channel:lobby" "u1")
    as (Hopen & Hclosed & _).
  - reflexivity.
  - reflexivity.
  - reflexivity.
  - split; [|exact Hclosed].
    destruct (Hopen eq_refl) as (x' & snap & Hleave & Hout & _ & Hrec & Hsnap & _).
    exists x', snap. split; [exact Hleave|]. split; [exact Hout|].
    split; [exact Hrec|exact Hsnap].
Defined.

Lemma record_mirrors_registry_witness :
  truthy (JStr "u1") = true
  ∧ roomId (replica_holding {| text := ""; updatedAt := 0 |} ∅)
    = roomId (replica_online {| text := ""; updatedAt := 0 |} ∅)
  ∧ ∀ rt : JsRuntime,
    ∃ x' m,
      upsertPresence 100 (JStr "u1") (EValue (entry_at "u1" 90))
        (replica_online {| text := ""; updatedAt := 0 |} ∅) = Ok x'
      ∧ mount "lobby" (localStorage x') 150 150 = Ok m
      ∧ ∀ k, props (presence m) !! k = props (presence x') !! k ≫= reloaded 150.
Proof.
  split; [reflexivity|]. split; [reflexivity|]. intros rt.
  assert (Hup : ∃ x', upsertPresence 100 (JStr "u1") (EValue (entry_at "u1" 90))
                        (replica_online {| text := ""; updatedAt := 0 |} ∅) = Ok x')
    by (eexists; vm_compute; reflexivity).
  destruct Hup as (x' & Hup).
  destruct (record_mirrors_registry 100 (JStr "u1") (EValue (entry_at "u1" 90))
              (replica_online {| text := ""; updatedAt := 0 |} ∅) x'
              (replica_holding {| text := ""; updatedAt := 0 |} ∅)
              150 150 160 eq_refl eq_refl Hup)
    as ((m & Hmount & Hk) & _).
  exists x', m. split; [exact Hup|]. split; [exact Hmount|exact Hk].
Defined.

Lemma offline_user_expires_locally_witness :
  truthy (get_opt (profile "u1" "Ann") "id") = true
  ∧ 10 ≠ 0 ∧ 20 - 10 ≤ 45000 ∧ 10 + 45000 < 50000
  ∧ ∀ rt : JsRuntime,
    ∃ x1 x2,
      registerSelf 10 20 (profile "u1" "Ann")
        (replica_holding {| text := ""; updatedAt := 0 |} ∅) = Ok x1
      ∧ pruneTick 50000 x1 = Ok x2
      ∧ props (presence x2) !! "u1" = None.
Proof.
  split; [reflexivity|]. split; [lia|]. split; [lia|]. split; [lia|]. intros rt.
  destruct (offline_user_expires_locally 10 20 50000 (profile "u1" "Ann")
              (replica_holding {| text := ""; updatedAt := 0 |} ∅) "u1")
    as (x1 & x2 & Hreg & _ & _ & _ & Htick & Hgone).
  - reflexivity.
  - reflexivity.
  - discriminate.
  - apply map_Forall_empty.
  - reflexivity.
  - lia.
  - lia.
  - lia.
  - exists x1, x2. split; [exact Hreg|]. split; [exact Htick|exact Hgone].
Defined.

Lemma upsert_under_proto_registers_nothing_witness :
  wellformed (presence (replica_holding {| text := ""; updatedAt := 0 |}
                          {[ "u2" := entry_at "u2" 90 ]}))
  ∧ ∀ rt : JsRuntime,
    ∃ r',
      upsertPresence 100 (JStr "__proto__") (EValue (entry_at "__proto__" 95))
        (replica_holding {| text := ""; updatedAt := 0 |}
           {[ "u2" := entry_at "u2" 90 ]}) = Ok r'
      ∧ props (presence r') = {[ "u2" := entry_at "u2" 90 ]}.
Proof.
  assert (Hwf : wellformed (presence (replica_holding {| text := ""; updatedAt := 0 |}
                                        {[ "u2" := entry_at "u2" 90 ]}))).
  { split; [reflexivity|]. apply map_Forall_singleton. reflexivity. }
  split; [exact Hwf|]. intros rt.
  destruct (upsert_under_proto_registers_nothing 100
              (EValue (entry_at "__proto__" 95))
              (replica_holding {| text := ""; updatedAt := 0 |}
                 {[ "u2" := entry_at "u2" 90 ]}) Hwf) as (r' & Hup & Hprune & _).
  exists r'. split; [exact Hup|].
  assert (Hr' : Ok (presence r') = Ok (new_object {[ "u2" := entry_at "u2" 90 ]}))
    by (rewrite <- Hprune; vm_compute; reflexivity).
  injection Hr' as ->. reflexivity.
Defined.

Lemma unconvertible_values_throw_witness :
  convertible unconvertible_object = false
  ∧ ∀ rt : JsRuntime,
      onmessage 90 100 unconvertible_join
        (replica_holding {| text := ""; updatedAt := 0 |} ∅)
      = Throw TypeError.
Proof.
  split; [reflexivity|]. intros rt.
  destruct (unconvertible_values_throw 100) as (_ & Hmsg & _).
  apply Hmsg; reflexivity.
Defined.

Lemma getInitials_first_two_words_witness :
  @spaces ascii_text (units " ")
  ∧ @word ascii_text (units "ada")
  ∧ @word ascii_text (units "king")
  ∧ @getInitials ascii_text (JStr " ada  king of") = Ok "AK".
Proof.
  assert (Hsp : @spaces ascii_text (units " "))
    by (repeat constructor).
  assert (Hsp2 : @spaces ascii_text (units "  "))
    by (repeat constructor).
  assert (Hw1 : @word ascii_text (units "ada"))
    by (split; [discriminate|repeat constructor]).
  assert (Hw2 : @word ascii_text (units "king"))
    by (split; [discriminate|repeat constructor]).
  split; [exact Hsp|]. split; [exact Hw1|]. split; [exact Hw2|].
  refine (@getInitials_first_two_words ascii_text
            (units " ") (units "ada") (units "  ") (units "king") (units " of")
            Hsp Hw1 Hsp2 _ Hw2 _).
  - discriminate.
  - right. exists (Ascii.ascii_of_nat 32), (units "of"). split; reflexivity.
Defined.

Lemma getInitials_edges_witness :
  @spaces ascii_text (units " ")
  ∧ @word ascii_text (units "ada")
  ∧ @getInitials ascii_text (JStr " ada ") = Ok "A"
  ∧ @getInitials ascii_text JNull = Throw TypeError.
Proof.
  assert (Hsp : @spaces ascii_text (units " "))
    by (repeat constructor).
  assert (Hw : @word ascii_text (units "ada"))
    by (split; [discriminate|repeat constructor]).
  split; [exact Hsp|]. split; [exact Hw|].
  destruct (@getInitials_edges ascii_text (units " ") (units "ada")
              (units " ") Hsp Hw Hsp) as (_ & _ & Hone & Hthrow).
  split; [exact Hone|]. apply Hthrow; discriminate.
Defined.
